(** * Verification of the Reddit sentiment collection pipeline

    Shallow embedding of [collection_analysis.py]: the text normaliser
    [preprocess_text], the classifier [classify_sentiment], the per-topic
    driver [run_analysis_for_theme], the top-level loop and the set-up of
    the NLTK resources; and of the parts of [dashboard_app.py] that compute
    on the artifact: its location, the date filter and the total.  The
    theorems that settle the properties stated for them follow.

    Conventions of the embedding.
    - A Python [str] is the sequence of its code points.  The embedding covers
      the code points below 256 (ASCII and Latin-1), held in Rocq's [string];
      the character classes of the [re] module and of [str.lower] are written
      out for that range.
    - A Python [float] is an IEEE-754 binary64 number: Rocq's primitive
      [float].
    - The file system is a finite map from paths to file contents.
    - What the program obtains from outside (the credentials file, the Reddit
      service, the outcome of the final write) is an explicit [world] value
      passed to the driver; the driver returns the new file system, the trace
      of the effects it performed and how it ended (normal return or a
      propagating exception). *)

From Stdlib Require Import ZArith Lia List Bool Ascii String Floats.
From Stdlib Require Import DecimalString.
From Stdlib Require DecimalNat.
From stdpp Require Import base gmap strings.
Import ListNotations.
Open Scope string_scope.

(* Decimal float literals denote the nearest binary64 number, as in Python. *)
#[global] Set Warnings "-inexact-float".

(* ===================================================================== *)
(** * 1. Characters and strings                                           *)
(* ===================================================================== *)

Module Chars.

(** Code point of a character. *)
Definition code (c : ascii) : nat := nat_of_ascii c.

Definition between (lo hi : nat) (c : ascii) : bool :=
  Nat.leb lo (code c) && Nat.leb (code c) hi.

Definition is_code (n : nat) (c : ascii) : bool := Nat.eqb (code c) n.

(** [\s] of a [str] pattern, which is also the whitespace of [str.split()]
    and [str.strip()]: TAB..CR, FS..US, SPACE, NEL and NBSP. *)
Definition is_space (c : ascii) : bool :=
  between 9 13 c || between 28 32 c || is_code 133 c || is_code 160 c.

(** [\w] of a [str] pattern: alphanumeric code points and the underscore. *)
Definition is_word (c : ascii) : bool :=
  between 48 57 c || between 65 90 c || is_code 95 c || between 97 122 c
  || is_code 170 c || between 178 179 c || is_code 181 c || between 185 186 c
  || between 188 190 c || between 192 214 c || between 216 246 c
  || between 248 255 c.

(** Code points that [str.lower] changes: A-Z and the Latin-1 capitals. *)
Definition is_upper (c : ascii) : bool :=
  between 65 90 c || between 192 214 c || between 216 222 c.

Definition lower_char (c : ascii) : ascii :=
  if is_upper c then ascii_of_nat (code c + 32) else c.

End Chars.

Module Str.
Import Chars.

(** [s.lower()] *)
Fixpoint lower (s : string) : string :=
  match s with
  | EmptyString => EmptyString
  | String c r => String (lower_char c) (lower r)
  end.

(** Characters of [s] satisfying [p], in order. *)
Fixpoint keep (p : ascii -> bool) (s : string) : string :=
  match s with
  | EmptyString => EmptyString
  | String c r => if p c then String c (keep p r) else keep p r
  end.

(** Every character of [s] satisfies [p]. *)
Fixpoint all (p : ascii -> bool) (s : string) : bool :=
  match s with
  | EmptyString => true
  | String c r => p c && all p r
  end.

(** The character [c] occurs in [s]. *)
Fixpoint has (c : ascii) (s : string) : bool :=
  match s with
  | EmptyString => false
  | String d r => Ascii.eqb c d || has c r
  end.

(** [sub in s] of Python: [sub] occurs in [s] as a contiguous substring. *)
Fixpoint contains (sub s : string) : bool :=
  String.prefix sub s ||
  match s with
  | EmptyString => false
  | String _ r => contains sub r
  end.

(** The character at offset [n] exists and is not whitespace. *)
Definition nonspace_at (n : nat) (s : string) : bool :=
  match String.get n s with
  | Some c => negb (is_space c)
  | None => false
  end.

(** [sep.join(parts)] *)
Definition join (sep : string) (parts : list string) : string :=
  String.concat sep parts.

(** [s.split()]: the maximal runs of non-whitespace characters. *)
Fixpoint split (s : string) : list string :=
  match s with
  | EmptyString => []
  | String c r =>
      if is_space c then split r
      else if nonspace_at 0 r then
        match split r with
        | w :: ws => String c w :: ws
        | [] => [String c EmptyString]
        end
      else String c EmptyString :: split r
  end.

(** [s.lstrip()] and [s.strip()] *)
Fixpoint lstrip (s : string) : string :=
  match s with
  | EmptyString => EmptyString
  | String c r => if is_space c then lstrip r else s
  end.

Fixpoint rstrip (s : string) : string :=
  match s with
  | EmptyString => EmptyString
  | String c r =>
      match rstrip r with
      | EmptyString => if is_space c then EmptyString else String c EmptyString
      | r' => String c r'
      end
  end.

Definition strip (s : string) : string := rstrip (lstrip s).

(** [s.replace(old, new)] for a one-character [old]. *)
Fixpoint replace (old : ascii) (new : string) (s : string) : string :=
  match s with
  | EmptyString => EmptyString
  | String c r =>
      if Ascii.eqb c old then new +:+ replace old new r
      else String c (replace old new r)
  end.

End Str.

(* ===================================================================== *)
(** * 2. Text normaliser: [preprocess_text]                               *)
(* ===================================================================== *)

Module Normalizer.
Import Chars.

(** ** The three regular-expression substitutions *)

(** A match of [http\S+|www\S+|https\S+] starts at the head of [s].  [\S+]
    is greedy and is followed by nothing, so a match exists exactly when the
    literal is followed by one non-whitespace character, and it then runs to
    the end of the maximal run of non-whitespace characters. *)
Definition url_at (s : string) : bool :=
  (String.prefix "http" s && Str.nonspace_at 4 s)
  || (String.prefix "www" s && Str.nonspace_at 3 s)
  || (String.prefix "https" s && Str.nonspace_at 5 s).

(** [re.sub(r'http\S+|www\S+|https\S+', '', s)].  The scan goes left to
    right; [inside] records that the current position lies within a match,
    whose characters are dropped up to the next whitespace. *)
Fixpoint sub_urls (inside : bool) (s : string) : string :=
  match s with
  | EmptyString => EmptyString
  | String c r =>
      if is_space c then String c (sub_urls false r)
      else if inside then sub_urls true r
      else if url_at s then sub_urls true r
      else String c (sub_urls false r)
  end.

(** A match of [@\w+] starts at the head of [s]. *)
Definition mention_at (s : string) : bool :=
  match s with
  | String c (String d _) => Ascii.eqb c "@" && is_word d
  | _ => false
  end.

(** [re.sub(r'@\w+', '', s)]: a match runs over the maximal run of word
    characters after the [@]; the scan resumes at the first character after
    it, which may start a new match. *)
Fixpoint sub_mentions (inside : bool) (s : string) : string :=
  match s with
  | EmptyString => EmptyString
  | String c r =>
      if inside && is_word c then sub_mentions true r
      else if mention_at s then sub_mentions true r
      else String c (sub_mentions false r)
  end.

(** [re.sub(r'[^\w\s]', '', s)] *)
Definition sub_punct (s : string) : string :=
  Str.keep (fun c => is_word c || is_space c) s.

(** ** [nltk.word_tokenize]

    The tokenizer is a function of the NLTK library.  [preprocess_text]
    calls it on texts made of word characters and whitespace only (the
    result of [sub_punct]); on such a text the sentence splitter finds no
    sentence end and none of the Treebank quote, punctuation, bracket and
    dash rules applies.  What remains is: the contraction rules
    (CONTRACTIONS2 without the two that need an apostrophe), applied to a
    whole run because [\b] only occurs at the ends of a run, and the final
    [text.split()]. *)
Definition contractions2 : list (string * string) :=
  [ ("can", "not"); ("gim", "me"); ("gon", "na");
    ("got", "ta"); ("lem", "me"); ("wan", "na") ].

Definition split_contraction (w : string) : list string :=
  match find (fun p => String.eqb (Str.lower w) (fst p +:+ snd p)) contractions2 with
  | Some (a, b) =>
      [ String.substring 0 (String.length a) w;
        String.substring (String.length a) (String.length b) w ]
  | None => [w]
  end.

Definition word_tokenize (s : string) : list string :=
  flat_map split_contraction (Str.split s).

(** ** The filter and the whole function

    [words_pt] and [words_en] are [stopwords.words('portuguese')] and
    [stopwords.words('english')]: word lists of the NLTK corpus, data that
    the repository does not contain.  They are parameters. *)
Section Preprocess.
Variables words_pt words_en : list string.

(** [set(stopwords.words(...))]: the two sets serve for membership tests
    only, which a list answers as well. *)
Definition stop_words_pt (word : string) : bool :=
  existsb (String.eqb word) words_pt.
Definition stop_words_en (word : string) : bool :=
  existsb (String.eqb word) words_en.

(** The condition of the list comprehension. *)
Definition kept (word : string) : bool :=
  negb (stop_words_pt word) && negb (stop_words_en word)
  && Nat.ltb 1 (String.length word).

(** The text handed to the tokenizer (lines 43 to 46). *)
Definition cleaned (text : string) : string :=
  sub_punct (sub_mentions false (sub_urls false (Str.lower text))).

Definition filtered_tokens (text : string) : list string :=
  List.filter kept (word_tokenize (cleaned text)).

Definition preprocess_text (text : string) : string :=
  Str.join " " (filtered_tokens text).

End Preprocess.

End Normalizer.

(* ===================================================================== *)
(** * 2a. Vocabulary for the statements about the normaliser             *)
(* ===================================================================== *)

Module Tokens.
Import Chars.

(** A character that is not whitespace. *)
Definition solid (c : ascii) : bool := negb (is_space c).

(** A character that [str.lower] leaves as it is. *)
Definition lowered (c : ascii) : bool := Ascii.eqb (lower_char c) c.

(** A token as [str.split] produces it: not empty and without whitespace. *)
Definition well_formed (t : string) : Prop :=
  t <> EmptyString /\ Str.all solid t = true.

(** No match of the URL pattern starts anywhere in [s]. *)
Fixpoint url_free (s : string) : bool :=
  negb (Normalizer.url_at s)
  && match s with
     | EmptyString => true
     | String _ r => url_free r
     end.

(** What the text handed to the tokenizer is made of: lowered word
    characters and whitespace. *)
Definition clean_char (c : ascii) : bool :=
  lowered c && (is_word c || is_space c).

(** [y] and [r] have the same characters up to the first whitespace (or the
    end) of [y]. *)
Fixpoint agree (y r : string) : Prop :=
  match y with
  | EmptyString => True
  | String d y' =>
      if is_space d then True
      else match r with
           | String e r' => d = e /\ agree y' r'
           | EmptyString => False
           end
  end.

End Tokens.

(* ===================================================================== *)
(** * 2b. The stop-word lists                                             *)
(* ===================================================================== *)

Module Corpus.

(** The literals below are written in UTF-8; [latin1] turns the two-byte
    sequences of the letters with diacritics into their code points. *)
Fixpoint latin1 (s : string) : string :=
  match s with
  | EmptyString => EmptyString
  | String c r =>
      if Chars.is_code 195 c then
        match r with
        | String d r' => String (ascii_of_nat (Chars.code d + 64)) (latin1 r')
        | EmptyString => EmptyString
        end
      else if Chars.is_code 194 c then
        match r with
        | String d r' => String d (latin1 r')
        | EmptyString => EmptyString
        end
      else String c (latin1 r)
  end.

(** [stopwords.words('english')] and [stopwords.words('portuguese')]: the
    Snowball word lists that the NLTK stopwords corpus ships.  The corpus is
    data of the NLTK distribution and not of this repository, and its
    releases differ by a few entries: the general statements below take the
    two lists as parameters, and these two values serve where a statement is
    evaluated on a concrete text (there the only entries that matter are
    the words of that text). *)
Definition english : list string :=
  [ "i"; "me"; "my"; "myself"; "we"; "our"; "ours"; "ourselves"; "you";
    "you're"; "you've"; "you'll"; "you'd"; "your"; "yours"; "yourself";
    "yourselves"; "he"; "him"; "his"; "himself"; "she"; "she's"; "her";
    "hers"; "herself"; "it"; "it's"; "its"; "itself"; "they"; "them";
    "their"; "theirs"; "themselves"; "what"; "which"; "who"; "whom"; "this";
    "that"; "that'll"; "these"; "those"; "am"; "is"; "are"; "was"; "were";
    "be"; "been"; "being"; "have"; "has"; "had"; "having"; "do"; "does";
    "did"; "doing"; "a"; "an"; "the"; "and"; "but"; "if"; "or"; "because";
    "as"; "until"; "while"; "of"; "at"; "by"; "for"; "with"; "about";
    "against"; "between"; "into"; "through"; "during"; "before"; "after";
    "above"; "below"; "to"; "from"; "up"; "down"; "in"; "out"; "on"; "off";
    "over"; "under"; "again"; "further"; "then"; "once"; "here"; "there";
    "when"; "where"; "why"; "how"; "all"; "any"; "both"; "each"; "few";
    "more"; "most"; "other"; "some"; "such"; "no"; "nor"; "not"; "only";
    "own"; "same"; "so"; "than"; "too"; "very"; "s"; "t"; "can"; "will";
    "just"; "don"; "don't"; "should"; "should've"; "now"; "d"; "ll"; "m";
    "o"; "re"; "ve"; "y"; "ain"; "aren"; "aren't"; "couldn"; "couldn't";
    "didn"; "didn't"; "doesn"; "doesn't"; "hadn"; "hadn't"; "hasn";
    "hasn't"; "haven"; "haven't"; "isn"; "isn't"; "ma"; "mightn";
    "mightn't"; "mustn"; "mustn't"; "needn"; "needn't"; "shan"; "shan't";
    "shouldn"; "shouldn't"; "wasn"; "wasn't"; "weren"; "weren't"; "won";
    "won't"; "wouldn"; "wouldn't" ].

Definition portuguese : list string :=
  map latin1
    [ "de"; "a"; "o"; "que"; "e"; "do"; "da"; "em"; "um"; "para"; "com";
    "não"; "uma"; "os"; "no"; "se"; "na"; "por"; "mais"; "as"; "dos";
    "como"; "mas"; "ao"; "ele"; "das"; "à"; "seu"; "sua"; "ou"; "quando";
    "muito"; "nos"; "já"; "eu"; "também"; "só"; "pelo"; "pela"; "até";
    "isso"; "ela"; "entre"; "depois"; "sem"; "mesmo"; "aos"; "seus"; "quem";
    "nas"; "me"; "esse"; "eles"; "você"; "essa"; "num"; "nem"; "suas";
    "meu"; "às"; "minha"; "numa"; "pelos"; "elas"; "qual"; "nós"; "lhe";
    "deles"; "essas"; "esses"; "pelas"; "este"; "dele"; "tu"; "te"; "vocês";
    "vos"; "lhes"; "meus"; "minhas"; "teu"; "tua"; "teus"; "tuas"; "nosso";
    "nossa"; "nossos"; "nossas"; "dela"; "delas"; "esta"; "estes"; "estas";
    "aquele"; "aquela"; "aqueles"; "aquelas"; "isto"; "aquilo"; "estou";
    "está"; "estamos"; "estão"; "estive"; "esteve"; "estivemos";
    "estiveram"; "estava"; "estávamos"; "estavam"; "estivera";
    "estivéramos"; "esteja"; "estejamos"; "estejam"; "estivesse";
    "estivéssemos"; "estivessem"; "estiver"; "estivermos"; "estiverem";
    "hei"; "há"; "havemos"; "hão"; "houve"; "houvemos"; "houveram";
    "houvera"; "houvéramos"; "haja"; "hajamos"; "hajam"; "houvesse";
    "houvéssemos"; "houvessem"; "houver"; "houvermos"; "houverem";
    "houverei"; "houverá"; "houveremos"; "houverão"; "houveria";
    "houveríamos"; "houveriam"; "sou"; "somos"; "são"; "era"; "éramos";
    "eram"; "fui"; "foi"; "fomos"; "foram"; "fora"; "fôramos"; "seja";
    "sejamos"; "sejam"; "fosse"; "fôssemos"; "fossem"; "for"; "formos";
    "forem"; "serei"; "será"; "seremos"; "serão"; "seria"; "seríamos";
    "seriam"; "tenho"; "tem"; "temos"; "tém"; "tinha"; "tínhamos"; "tinham";
    "tive"; "teve"; "tivemos"; "tiveram"; "tivera"; "tivéramos"; "tenha";
    "tenhamos"; "tenham"; "tivesse"; "tivéssemos"; "tivessem"; "tiver";
    "tivermos"; "tiverem"; "terei"; "terá"; "teremos"; "terão"; "teria";
    "teríamos"; "teriam" ].

End Corpus.

(* ===================================================================== *)
(** * 3. Sentiment classes: [classify_sentiment]                          *)
(* ===================================================================== *)

Module Sentiment.

(** The two thresholds are the binary64 numbers that the literals [0.05]
    and [-0.05] denote. *)
Definition pos_threshold : float := 0.05%float.
Definition neg_threshold : float := (- pos_threshold)%float.

(** [score >= 0.05] is [0.05 <= score]; a comparison with NaN is false. *)
Definition classify_sentiment (score : float) : string :=
  if (pos_threshold <=? score)%float then "Positivo"
  else if (score <=? neg_threshold)%float then "Negativo"
  else "Neutro".

End Sentiment.

(* ===================================================================== *)
(** * 4. The artifact file: [DataFrame.to_csv(path, index=False, sep=';')] *)
(* ===================================================================== *)

Module Csv.

Definition LF : ascii := ascii_of_nat 10.
Definition CR : ascii := ascii_of_nat 13.
Definition DQUOTE : ascii := ascii_of_nat 34.

(** The writer runs with the default [QUOTE_MINIMAL]: a field is quoted
    when it contains the delimiter, the quote character, or a line break. *)
Definition special (sep c : ascii) : bool :=
  Ascii.eqb c sep || Ascii.eqb c DQUOTE || Ascii.eqb c LF || Ascii.eqb c CR.

Definition needs_quotes (sep : ascii) (s : string) : bool :=
  negb (Str.all (fun c => negb (special sep c)) s).

(** Inside quotes a quote character is doubled. *)
Definition escape (s : string) : string :=
  Str.replace DQUOTE (String DQUOTE (String DQUOTE EmptyString)) s.

Definition field (sep : ascii) (s : string) : string :=
  if needs_quotes sep s
  then String DQUOTE (escape s +:+ String DQUOTE EmptyString)
  else s.

(** One record: its fields joined by the delimiter, ended by the line
    terminator (LF). *)
Definition line (sep : ascii) (fields : list string) : string :=
  Str.join (String sep EmptyString) (map (field sep) fields)
  +:+ String LF EmptyString.

Definition write (sep : ascii) (records : list (list string)) : string :=
  String.concat EmptyString (map (line sep) records).

(** The reader of such a file ([read_csv(path, sep=';')] on the consumer's
    side): fields end at a delimiter outside quotes, records at a line
    break outside quotes, and blank lines are skipped. *)
Inductive mode := Unquoted | Quoted | QuoteSeen.

Definition snoc (s : string) (c : ascii) : string := s +:+ String c EmptyString.

Fixpoint read (sep : ascii) (m : mode) (fld : string) (rec : list string)
    (s : string) : list (list string) :=
  match s with
  | EmptyString =>
      match m, fld, rec with
      | Unquoted, EmptyString, [] => []
      | _, _, _ => [(rec ++ [fld])%list]
      end
  | String c r =>
      match m with
      | Quoted =>
          if Ascii.eqb c DQUOTE then read sep QuoteSeen fld rec r
          else read sep Quoted (snoc fld c) rec r
      | QuoteSeen =>
          if Ascii.eqb c DQUOTE then read sep Quoted (snoc fld c) rec r
          else if Ascii.eqb c sep then read sep Unquoted EmptyString (rec ++ [fld])%list r
          else if Ascii.eqb c LF then (rec ++ [fld])%list :: read sep Unquoted EmptyString [] r
          else read sep Unquoted (snoc fld c) rec r
      | Unquoted =>
          if Ascii.eqb c sep then read sep Unquoted EmptyString (rec ++ [fld])%list r
          else if Ascii.eqb c LF then
            match fld, rec with
            | EmptyString, [] => read sep Unquoted EmptyString [] r
            | _, _ => (rec ++ [fld])%list :: read sep Unquoted EmptyString [] r
            end
          else if Ascii.eqb c DQUOTE then
            match fld with
            | EmptyString => read sep Quoted EmptyString rec r
            | _ => read sep Unquoted (snoc fld c) rec r
            end
          else read sep Unquoted (snoc fld c) rec r
      end
  end.

Definition parse (sep : ascii) (s : string) : list (list string) :=
  read sep Unquoted EmptyString [] s.

End Csv.

Module Artifact.

(** A naive [datetime] / [Timestamp]: calendar date and time of day. *)
Record datetime := DateTime {
  year : nat; month : nat; day : nat;
  hour : nat; minute : nat; second : nat; microsecond : nat
}.

(** [Series.dt.normalize()]: the time of day is set to midnight. *)
Definition normalize (d : datetime) : datetime :=
  DateTime (year d) (month d) (day d) 0 0 0 0.

Definition is_midnight (d : datetime) : bool :=
  Nat.eqb (hour d) 0 && Nat.eqb (minute d) 0 && Nat.eqb (second d) 0
  && Nat.eqb (microsecond d) 0.

(** Decimal numeral of a natural number, zero-padded on the left to
    [width] digits. *)
Definition digits (n : nat) : string := NilZero.string_of_uint (Nat.to_uint n).

Fixpoint zeros (k : nat) : string :=
  match k with O => EmptyString | S k' => String "0" (zeros k') end.

Definition padded (width n : nat) : string :=
  zeros (width - String.length (digits n)) +:+ digits n.

(** [%Y-%m-%d] *)
Definition iso_date (d : datetime) : string :=
  padded 4 (year d) +:+ "-" +:+ padded 2 (month d) +:+ "-" +:+ padded 2 (day d).

(** The characters of a calendar date: digits and the hyphen. *)
Definition date_char (c : ascii) : bool :=
  Chars.between 48 57 c || Ascii.eqb c "-".

(** [%H:%M:%S], with the microseconds when they are not zero. *)
Definition iso_time (d : datetime) : string :=
  padded 2 (hour d) +:+ ":" +:+ padded 2 (minute d) +:+ ":" +:+ padded 2 (second d)
  +:+ (if Nat.eqb (microsecond d) 0 then EmptyString
       else "." +:+ padded 6 (microsecond d)).

(** How [to_csv] renders a datetime column: when every value of the column
    is a midnight the time of day is left out, otherwise every value is
    written with its time. *)
Definition render_dates (col : list datetime) : list string :=
  if forallb is_midnight col then map iso_date col
  else map (fun d => iso_date d +:+ " " +:+ iso_time d) col.

(** [str] of an [int]. *)
Definition int_str (z : Z) : string := NilZero.string_of_int (Z.to_int z).

(** One row of [df_final]. *)
Record row := Row {
  post_id : string;
  date : datetime;
  text : string;
  cleaned_text : string;
  sentiment_score : float;
  sentiment : string;
  comment_score : Z
}.

(** The column selection of line 161, which is also the header row. *)
Definition columns : list string :=
  [ "post_id"; "date"; "text"; "cleaned_text"; "sentiment_score";
    "sentiment"; "comment_score" ].

Definition SEP : ascii := ";".

Section ToCsv.
(** How a float prints in the file ([repr]): a fact of the Python runtime,
    taken as a parameter. *)
Variable float_repr : float -> string.

Definition cells (r : row) (rendered_date : string) : list string :=
  [ post_id r; rendered_date; text r; cleaned_text r;
    float_repr (sentiment_score r); sentiment r; int_str (comment_score r) ].

Definition records (rows : list row) : list (list string) :=
  map (fun p => cells (fst p) (snd p))
      (combine rows (render_dates (map date rows))).

(** [df_final.to_csv(path, index=False, sep=';')]: header, then one record
    per row, no index column. *)
Definition to_csv (rows : list row) : string :=
  Csv.write SEP (columns :: records rows).

End ToCsv.

End Artifact.

(* ===================================================================== *)
(** * 5. The per-topic driver and the top-level loop                      *)
(* ===================================================================== *)

Module Reddit.

(** A comment as PRAW lists it.  [author] is [None] for a deleted account;
    [created] is [dt.datetime.fromtimestamp(comment.created_utc)]. *)
Record comment := Comment {
  comment_id : string;
  author : option string;
  body : string;
  score : Z;
  created : Artifact.datetime
}.

(** A submission of the search.  [comments] is the outcome of
    [submission.comments.replace_more(limit=0)] followed by
    [submission.comments.list()]: the flattened comment forest, or [None]
    when one of the two calls raises. *)
Record submission := Submission {
  id : string;
  title : string;
  post_score : Z;
  url : string;
  posted : Artifact.datetime;
  stickied : bool;
  comments : option (list comment)
}.

(** What iterating [reddit.subreddit(...).search(...)] does: it yields a
    submission and goes on, or it is exhausted, or the request behind it
    raises. *)
Inductive listing :=
| Exhausted
| Broken
| Yield (s : submission) (rest : listing).

End Reddit.

Module Pipeline.
Import Reddit.

(** How the final [to_csv] ends: the file is written; or [open] fails and
    nothing is created; or the write fails after [n] characters reached the
    file. *)
Inductive write_outcome :=
| Written
| OpenFails
| FailsAfter (n : nat).

(** Everything one call of the driver obtains from outside. *)
Record world := World {
  credentials : option (list string);  (* the lines of credentials.txt; None: open raises *)
  session : bool;                      (* praw.Reddit(...) returns (true) or raises *)
  search : listing;
  disk : write_outcome
}.

(** The effects of a call, in order.  Console output is left out. *)
Inductive event :=
| OpenCredentials (path : string)
| NewSession (client_id client_secret username password user_agent : string)
| SearchPosts (subreddits query : string) (limit : nat)
| ExpandComments (post : string)
| ScoreComments (n : nat)
| WriteCsv (path : string).

(** The [return] statement a call ends with (lines 83, 104, 142 and the end
    of the body), or the exception that leaves it: nothing in the body
    catches what the collection loop or [to_csv] raise. *)
Inductive status := Cached | AuthFailed | SkippedEmpty | Persisted.
Inductive error := CollectionError | PersistenceError.
Inductive outcome :=
| Returned (s : status)
| Raised (e : error).

(** The dictionaries appended to [posts_data] and [comments_data]. *)
Record post_record := PostRecord {
  p_post_id : string; p_title : string; p_score : Z; p_url : string;
  p_created_utc : Artifact.datetime
}.

Record comment_record := CommentRecord {
  c_post_id : string; c_comment_id : string; c_comment_text : string;
  c_comment_score : Z; c_created_utc : Artifact.datetime
}.

(** [os.path.join(a, b)] (POSIX). *)
Definition ends_with_slash (a : string) : bool :=
  match String.get (String.length a - 1) a with
  | Some c => Ascii.eqb c "/"
  | None => false
  end.

Definition path_join (a b : string) : string :=
  if String.prefix "/" b then b
  else if String.eqb a EmptyString || ends_with_slash a then a +:+ b
  else a +:+ "/" +:+ b.

(** Lines 75 and 76. *)
Definition safe_term (search_term : string) : string :=
  Str.replace ")" EmptyString
    (Str.replace "(" EmptyString (Str.replace " " "_" search_term)).

Definition data_file_name (search_term : string) : string :=
  "reddit_" +:+ safe_term search_term +:+ "_analisado.csv".

Definition SUBREDDITS : string := "gaming+xboxone+PS5+NintendoSwitch+playstation".

(** [if comment.author and comment.body] *)
Definition retained (c : comment) : bool :=
  match author c with
  | Some _ => negb (String.eqb (body c) EmptyString)
  | None => false
  end.

Definition record_of (s : submission) (c : comment) : comment_record :=
  CommentRecord (id s) (comment_id c) (body c) (score c) (created c).

Definition post_of (s : submission) : post_record :=
  PostRecord (id s) (title s) (post_score s) (url s) (posted s).

(** The loop of lines 114 to 138 over at most [limit] submissions: the
    trace, and the two lists when no request raised. *)
Fixpoint collect (limit : nat) (l : listing)
    : list event * option (list post_record * list comment_record) :=
  match limit, l with
  | O, _ => ([], Some ([], []))
  | _, Exhausted => ([], Some ([], []))
  | _, Broken => ([], None)
  | S k, Yield s rest =>
      if stickied s then collect k rest
      else
        match comments s with
        | None => ([ExpandComments (id s)], None)
        | Some cs =>
            let '(tr, res) := collect k rest in
            (ExpandComments (id s) :: tr,
             match res with
             | Some (posts, coms) =>
                 Some (post_of s :: posts,
                       (map (record_of s) (List.filter retained cs) ++ coms)%list)
             | None => None
             end)
        end
  end.

Section Driver.
(** Parameters: the two NLTK stop-word lists, the compound polarity of the
    VADER analyser, the printing of floats, and the directory of the
    script. *)
Variables words_pt words_en : list string.
Variable polarity : string -> float.
Variable float_repr : float -> string.
Variable script_dir : string.

Definition DATA_DIR : string := path_join (path_join script_dir "..") "Data".

Definition full_file_path (search_term : string) : string :=
  path_join DATA_DIR (data_file_name search_term).

Definition credentials_path : string := path_join script_dir "credentials.txt".

(** Lines 90 to 104: everything here is inside the [try]. *)
Definition authenticate (search_term : string) (w : world)
    : list event * bool :=
  match credentials w with
  | None => ([OpenCredentials credentials_path], false)
  | Some lines =>
      match firstn 4 (map Str.strip lines) with
      | [client_id; client_secret; username; password] =>
          ([OpenCredentials credentials_path;
            NewSession client_id client_secret username password
              ("Python script for " +:+ search_term
               +:+ " analysis by /u/Data-Science-Project")],
           session w)
      | _ => ([OpenCredentials credentials_path], false)
      end
  end.

(** Lines 144 to 162 for one comment record. *)
Definition analyse (c : comment_record) : Artifact.row :=
  let cleaned := Normalizer.preprocess_text words_pt words_en (c_comment_text c) in
  let sentiment_score := polarity cleaned in
  Artifact.Row (c_post_id c) (Artifact.normalize (c_created_utc c))
    (c_comment_text c) cleaned sentiment_score
    (Sentiment.classify_sentiment sentiment_score) (c_comment_score c).

(** The seven cells of the record written for a collected comment. *)
Definition written_cells (c : comment_record) : list string :=
  let cleaned := Normalizer.preprocess_text words_pt words_en (c_comment_text c) in
  [ c_post_id c;
    Artifact.iso_date (c_created_utc c);
    c_comment_text c;
    cleaned;
    float_repr (polarity cleaned);
    Sentiment.classify_sentiment (polarity cleaned);
    Artifact.int_str (c_comment_score c) ].

Definition artifact_of (coms : list comment_record) : string :=
  Artifact.to_csv float_repr (map analyse coms).

Definition run_analysis_for_theme (search_term : string) (w : world)
    (fs : gmap string string) : gmap string string * list event * outcome :=
  let path := full_file_path search_term in
  match fs !! path with
  | Some _ => (fs, [], Returned Cached)
  | None =>
      let '(tr_auth, connected) := authenticate search_term w in
      if negb connected then (fs, tr_auth, Returned AuthFailed)
      else
        let '(tr_coll, res) := collect 100 (search w) in
        let tr := (tr_auth ++ SearchPosts SUBREDDITS search_term 100 :: tr_coll)%list in
        match res with
        | None => (fs, tr, Raised CollectionError)
        | Some (_, []) => (fs, tr, Returned SkippedEmpty)
        | Some (_, coms) =>
            let content := artifact_of coms in
            let tr := (tr ++ [ScoreComments (List.length coms); WriteCsv path])%list in
            match disk w with
            | Written => (<[path := content]> fs, tr, Returned Persisted)
            | OpenFails => (fs, tr, Raised PersistenceError)
            | FailsAfter n =>
                (<[path := String.substring 0 n content]> fs, tr,
                 Raised PersistenceError)
            end
        end
  end.

(** The loop of lines 186 and 187 over [(topic, world)] pairs: an exception
    raised by a call leaves the loop.  (The download of the NLTK resources
    before the loop and the creation of the data directory at import time
    touch neither the artifacts nor the Reddit service and are left out.) *)
Fixpoint run_batch (jobs : list (string * world)) (fs : gmap string string)
    : gmap string string * list event * list outcome :=
  match jobs with
  | [] => (fs, [], [])
  | (tema, w) :: rest =>
      let '(fs1, tr1, o) := run_analysis_for_theme tema w fs in
      match o with
      | Raised _ => (fs1, tr1, [o])
      | Returned _ =>
          let '(fs2, tr2, os) := run_batch rest fs1 in
          (fs2, (tr1 ++ tr2)%list, o :: os)
      end
  end.

Definition temas_para_analisar : list string :=
  [ "Xbox Game Pass"; "PlayStation Plus (PSN)"; "Nintendo Switch Online" ].

Definition main (worlds : list world) (fs : gmap string string) :=
  run_batch (combine temas_para_analisar worlds) fs.

End Driver.

End Pipeline.

(* ===================================================================== *)
(** * 5a. Vocabulary for the statements about the driver                  *)
(* ===================================================================== *)

Module Trace.
Import Pipeline.

(** A collection pass starts with the search request; a scoring pass is
    the analysis of the collected comments. *)
Definition is_search (e : event) : bool :=
  match e with SearchPosts _ _ _ => true | _ => false end.

Definition is_scoring (e : event) : bool :=
  match e with ScoreComments _ => true | _ => false end.

Definition is_write (e : event) : bool :=
  match e with WriteCsv _ => true | _ => false end.

Definition collection_passes (tr : list event) : nat :=
  List.length (List.filter is_search tr).

Definition scoring_passes (tr : list event) : nat :=
  List.length (List.filter is_scoring tr).

Definition writes (tr : list event) : nat :=
  List.length (List.filter is_write tr).

(** The call ended with a [return]. *)
Definition returned (o : outcome) : Prop :=
  match o with Returned _ => True | Raised _ => False end.

(** A topic without the characters that the sanitisation produces or
    deletes. *)
Definition plain_topic (t : string) : Prop :=
  Str.has "_" t = false /\ Str.has "(" t = false /\ Str.has ")" t = false.

(** Nothing that the world [w] holds makes the collection loop or the
    final write raise. *)
Definition quiet (w : world) : Prop :=
  snd (collect 100 (search w)) <> None /\ disk w = Written.

End Trace.

(* ===================================================================== *)
(** * 5b. Concrete worlds                                                 *)
(* ===================================================================== *)

Module Sample.
Import Pipeline Reddit Artifact.

(** Stand-ins for the two functions of the Python runtime that the driver
    takes as parameters; the lemmas of this section do not depend on what
    they return. *)
Definition polarity (cleaned : string) : float := 0%float.
Definition float_repr (x : float) : string := "0.0".

Definition script_dir : string := "/app/src".

Definition run :=
  run_analysis_for_theme Corpus.portuguese Corpus.english polarity float_repr
    script_dir.

Definition main :=
  Pipeline.main Corpus.portuguese Corpus.english polarity float_repr script_dir.

Definition path_of := full_file_path script_dir.

Definition preprocess_text : string -> string :=
  Normalizer.preprocess_text Corpus.portuguese Corpus.english.

Definition afternoon : datetime := DateTime 2024 1 3 15 42 7 0.

Definition a_comment : comment :=
  Comment "c1" (Some "someone") "I love this game!!" 5 afternoon.

Definition a_deleted_comment : comment :=
  Comment "c2" None "[deleted]" 1 afternoon.

Definition a_post : submission :=
  Submission "p1" "Is it worth it?" 10 "https://redd.it/p1" afternoon false
    (Some [a_comment; a_deleted_comment]).

Definition four_lines : list string := ["id"; "secret"; "user"; "password"].

(** Everything works. *)
Definition fine : world :=
  World (Some four_lines) true (Yield a_post Exhausted) Written.

(** The search finds nothing. *)
Definition nothing_found : world :=
  World (Some four_lines) true Exhausted Written.

(** The credentials file is missing. *)
Definition no_credentials : world :=
  World None true (Yield a_post Exhausted) Written.

(** The search request raises (network failure, rejected credentials). *)
Definition service_down : world :=
  World (Some four_lines) true Broken Written.

(** The disk fills up after seven characters of the file. *)
Definition disk_full : world :=
  World (Some four_lines) true (Yield a_post Exhausted) (FailsAfter 7).

Definition the_artifact : string :=
  artifact_of Corpus.portuguese Corpus.english polarity float_repr
    [CommentRecord "p1" "c1" "I love this game!!" 5 afternoon].

End Sample.

(* ===================================================================== *)
(** * 5c. Vocabulary for further statements about the collection         *)
(* ===================================================================== *)

Module Collector.
Import Reddit Pipeline.

(** The submissions that the iteration hands to the loop body: at most
    [limit] of them, up to the point where the iteration ends or raises. *)
Fixpoint yielded (limit : nat) (l : listing) : list submission :=
  match limit, l with
  | S k, Yield s rest => s :: yielded k rest
  | _, _ => []
  end.

(** Those of them that are not pinned. *)
Definition visible (limit : nat) (l : listing) : list submission :=
  List.filter (fun s => negb (stickied s)) (yielded limit l).

(** The records that one submission contributes to [comments_data]. *)
Definition records_of (s : submission) : list comment_record :=
  match comments s with
  | Some cs => map (record_of s) (List.filter retained cs)
  | None => []
  end.

(** The listing that yields the submissions [ss] and then goes on as
    [rest]. *)
Definition prepend (ss : list submission) (rest : listing) : listing :=
  fold_right Yield rest ss.

(** A call ended with the artifact in place. *)
Definition settled (o : outcome) : Prop :=
  o = Returned Persisted \/ o = Returned Cached.

End Collector.

(* ===================================================================== *)
(** * 5d. Vocabulary for further statements about the normaliser          *)
(* ===================================================================== *)

Module Shape.
Import Chars Tokens.

(** What the output of [preprocess_text] is made of: word characters that
    [str.lower] leaves alone, and the space that [' '.join] puts in. *)
Definition output_char (c : ascii) : bool :=
  lowered c && (is_word c || Ascii.eqb c " ").

(** A text without a word character: empty, blank, or punctuation only. *)
Definition wordless (s : string) : bool :=
  Str.all (fun c => negb (is_word c)) s.

End Shape.

(* ===================================================================== *)
(** * 5e. The set-up of the NLTK resources: [download_nltk_resources]     *)
(* ===================================================================== *)

Module Nltk.

(** The calls the function makes on the library. *)
Inductive call :=
| Find (resource : string)
| Download (package : string).

(** The four look-ups of the [try] block and the four downloads of the
    [except] block, in the order of the source. *)
Definition resources : list string :=
  [ "corpora/stopwords"; "tokenizers/punkt"; "sentiment/vader_lexicon";
    "tokenizers/punkt_tab" ].

Definition packages : list string :=
  [ "stopwords"; "punkt"; "vader_lexicon"; "punkt_tab" ].

(** The [try] block: [nltk.data.find] returns for a resource that is
    installed and raises [LookupError] for one that is not, which ends the
    block.  The result is the calls made and whether the block ran to its
    end. *)
Fixpoint lookups (installed : string -> bool) (rs : list string)
    : list call * bool :=
  match rs with
  | [] => ([], true)
  | r :: rest =>
      if installed r then
        let '(tr, ok) := lookups installed rest in (Find r :: tr, ok)
      else ([Find r], false)
  end.

Definition download_nltk_resources (installed : string -> bool) : list call :=
  let '(tr, ok) := lookups installed resources in
  if ok then tr else (tr ++ map Download packages)%list.

Definition is_download (c : call) : bool :=
  match c with Download _ => true | Find _ => false end.

Definition downloads (tr : list call) : list string :=
  flat_map (fun c => match c with Download p => [p] | Find _ => [] end) tr.

Definition finds (tr : list call) : list string :=
  flat_map (fun c => match c with Find r => [r] | Download _ => [] end) tr.

End Nltk.

(* ===================================================================== *)
(** * 5f. Path functions of [os.path] (POSIX)                             *)
(* ===================================================================== *)

Module Posix.

(** [s.split(sep)] for a one-character separator: the first piece and the
    pieces after it. *)
Fixpoint pieces (sep : ascii) (s : string) : string * list string :=
  match s with
  | EmptyString => (EmptyString, [])
  | String c r =>
      let '(w, ws) := pieces sep r in
      if Ascii.eqb c sep then (EmptyString, w :: ws) else (String c w, ws)
  end.

Definition split_on (sep : ascii) (s : string) : list string :=
  let '(w, ws) := pieces sep s in w :: ws.

(** [p[:p.rfind('/') + 1]]: up to and including the last slash. *)
Fixpoint head_of (p : string) : string :=
  match p with
  | EmptyString => EmptyString
  | String c r =>
      if Str.has "/" r then String c (head_of r)
      else if Ascii.eqb c "/" then String c EmptyString
      else EmptyString
  end.

(** [s.rstrip('/')] *)
Fixpoint rstrip_slashes (s : string) : string :=
  match s with
  | EmptyString => EmptyString
  | String c r =>
      match rstrip_slashes r with
      | EmptyString => if Ascii.eqb c "/" then EmptyString else String c EmptyString
      | r' => String c r'
      end
  end.

(** [os.path.dirname(p)] *)
Definition dirname (p : string) : string :=
  let head := head_of p in
  if negb (String.eqb head EmptyString) && negb (Str.all (Ascii.eqb "/") head)
  then rstrip_slashes head
  else head.

(** [os.path.normpath(path)]: one leading slash, or two when the path
    starts with exactly two; empty and [.] components are dropped; [..]
    removes the component before it. *)
Definition initial_slashes (path : string) : nat :=
  if String.prefix "/" path then
    if String.prefix "//" path && negb (String.prefix "///" path) then 2 else 1
  else 0.

Definition is_nil (l : list string) : bool :=
  match l with [] => true | _ :: _ => false end.

Definition step (initial : nat) (new_comps : list string) (comp : string)
    : list string :=
  if String.eqb comp EmptyString || String.eqb comp "." then new_comps
  else if negb (String.eqb comp "..")
          || (Nat.eqb initial 0 && is_nil new_comps)
          || (negb (is_nil new_comps)
              && String.eqb (List.last new_comps EmptyString) "..")
  then (new_comps ++ [comp])%list
  else List.removelast new_comps.

Definition normpath (path : string) : string :=
  if String.eqb path EmptyString then "."
  else
    let initial := initial_slashes path in
    let comps := fold_left (step initial) (split_on "/" path) [] in
    let p := String.concat EmptyString (repeat "/" initial)
             +:+ Str.join "/" comps in
    if String.eqb p EmptyString then "." else p.

(** A path component: not empty and without a slash; and one that
    [normpath] keeps, which is a component other than [.] and [..]. *)
Definition name (c : string) : bool :=
  negb (String.eqb c EmptyString) && negb (Str.has "/" c).

Definition proper (c : string) : bool :=
  name c && negb (String.eqb c ".") && negb (String.eqb c "..").

(** The absolute path with the components [xs]; [slashed xs] is the same
    string when there is a component. *)
Definition absolute (xs : list string) : string := "/" +:+ Str.join "/" xs.

Fixpoint slashed (xs : list string) : string :=
  match xs with
  | [] => EmptyString
  | x :: r => "/" +:+ x +:+ slashed r
  end.

Fixpoint last_char (s : string) : option ascii :=
  match s with
  | EmptyString => None
  | String c r =>
      match last_char r with
      | Some d => Some d
      | None => Some c
      end
  end.

End Posix.

(* ===================================================================== *)
(** * 5g. The dashboard: [dashboard_app.py]                               *)
(* ===================================================================== *)

Module Dashboard.
Import Artifact.

Definition AVAILABLE_THEMES : list string :=
  [ "Xbox Game Pass"; "PlayStation Plus (PSN)"; "Nintendo Switch Online" ].

(** Lines 32 and 33. *)
Definition safe_theme (selected_theme : string) : string :=
  Str.replace ")" EmptyString
    (Str.replace "(" EmptyString (Str.replace " " "_" selected_theme)).

Definition data_file_name (selected_theme : string) : string :=
  "reddit_" +:+ safe_theme selected_theme +:+ "_analisado.csv".

(** Lines 43 to 45 of [load_data]; [current_dir] is
    [os.path.dirname(os.path.abspath(__file__))]. *)
Definition absolute_file_path (current_dir file_path : string) : string :=
  Pipeline.path_join
    (Pipeline.path_join (Posix.dirname current_dir) "Data") file_path.

(** ** Dates *)

(** A calendar date: what [Timestamp.date()] returns and what
    [st.date_input] hands back. *)
Record day_date := Date { d_year : nat; d_month : nat; d_day : nat }.

(** [ts.date()] and [pd.to_datetime(d)], which is the midnight of [d]. *)
Definition date_of (t : datetime) : day_date :=
  Date (year t) (month t) (day t).

Definition to_datetime (d : day_date) : datetime :=
  DateTime (d_year d) (d_month d) (d_day d) 0 0 0 0.

(** Chronological order, which is the lexicographic order of the fields. *)
Fixpoint lex_leb (a b : list nat) : bool :=
  match a, b with
  | x :: a', y :: b' => Nat.ltb x y || (Nat.eqb x y && lex_leb a' b')
  | _, _ => true
  end.

Definition fields (t : datetime) : list nat :=
  [ year t; month t; day t; hour t; minute t; second t; microsecond t ].

(** [a <= b] of two timestamps, and of two calendar dates. *)
Definition leb (a b : datetime) : bool := lex_leb (fields a) (fields b).

Definition date_leb (a b : day_date) : bool :=
  lex_leb [d_year a; d_month a; d_day a] [d_year b; d_month b; d_day b].

(** [Series.min()] and [Series.max()]; [None] is the [NaT] of an empty
    column. *)
Definition earlier (a b : datetime) : datetime := if leb a b then a else b.
Definition later (a b : datetime) : datetime := if leb a b then b else a.

Definition minimum (col : list datetime) : option datetime :=
  match col with
  | [] => None
  | t :: ts => Some (fold_left earlier ts t)
  end.

Definition maximum (col : list datetime) : option datetime :=
  match col with
  | [] => None
  | t :: ts => Some (fold_left later ts t)
  end.

(** ** The frame *)

Definition with_date (r : row) (t : datetime) : row :=
  Row (post_id r) t (text r) (cleaned_text r) (sentiment_score r)
    (sentiment r) (comment_score r).

(** [load_data], line 50, on the frame that [read_csv] returned: the date
    column is normalised. *)
Definition load_data (frame : list row) : list row :=
  map (fun r => with_date r (normalize (date r))) frame.

(** Lines 61 and 62. *)
Definition data_min (df_analise : list row) : option day_date :=
  option_map date_of (minimum (map date df_analise)).

Definition data_max (df_analise : list row) : option day_date :=
  option_map date_of (maximum (map date df_analise)).

(** Lines 71 to 81.  [date_range] is what the date input holds: two dates,
    or fewer while the user is choosing. *)
Definition df_filtered (date_range : list day_date) (df_analise : list row)
    : list row :=
  match date_range with
  | [start_date; end_date] =>
      List.filter
        (fun r => leb (to_datetime start_date) (date r)
                  && leb (date r) (to_datetime end_date))
        df_analise
  | _ => df_analise
  end.

(** ** The total of line 98 *)

(** [f"{n:,}"]: the decimal digits with a comma before every group of
    three counted from the right. *)
Definition separator_due (remaining : nat) : bool :=
  Nat.ltb 0 remaining && Nat.eqb (remaining mod 3) 0.

Fixpoint group (s : string) : string :=
  match s with
  | EmptyString => EmptyString
  | String c r =>
      String c (if separator_due (String.length r)
                then String "," (group r) else group r)
  end.

Definition commas (n : nat) : string := group (digits n).

(** [s.replace(old, new, 1)] for one-character [old] and [new]. *)
Fixpoint replace_first (old new : ascii) (s : string) : string :=
  match s with
  | EmptyString => EmptyString
  | String c r =>
      if Ascii.eqb c old then String new r
      else String c (replace_first old new r)
  end.

Definition total_label (total_comentarios : nat) : string :=
  replace_first "," "."
    (Str.replace "." ","
       (Str.replace "," "." (commas total_comentarios))).

(** Number of occurrences of a character. *)
Fixpoint count (c : ascii) (s : string) : nat :=
  match s with
  | EmptyString => 0
  | String d r => (if Ascii.eqb c d then 1 else 0) + count c r
  end.

End Dashboard.

(* ===================================================================== *)
(** * 6. Properties of [classify_sentiment]                               *)
(* ===================================================================== *)

Section ClassifyFacts.
Import Sentiment.
Open Scope float_scope.

(** Comparison of binary64 numbers, read through their specification. *)
Lemma SFcompare_antisym (x y : spec_float) :
  SFcompare y x = option_map CompOpp (SFcompare x y).
Proof.
  destruct x as [sx | sx | | sx mx ex], y as [sy | sy | | sy my ey];
    cbn; try reflexivity;
    repeat match goal with b : bool |- _ => destruct b end;
    cbn; try reflexivity.
  - rewrite (Z.compare_antisym ex ey).
    destruct (ex ?= ey)%Z; cbn; try reflexivity.
    change (Pos.compare_cont Eq my mx) with (my ?= mx)%positive.
    change (Pos.compare_cont Eq mx my) with (mx ?= my)%positive.
    rewrite (Pos.compare_antisym mx my).
    now destruct (mx ?= my)%positive.
  - rewrite (Z.compare_antisym ex ey).
    destruct (ex ?= ey)%Z; cbn; try reflexivity.
    change (Pos.compare_cont Eq my mx) with (my ?= mx)%positive.
    change (Pos.compare_cont Eq mx my) with (mx ?= my)%positive.
    now rewrite (Pos.compare_antisym mx my).
Qed.

Lemma SFcompare_refl (x : spec_float) :
  x <> S754_nan -> SFcompare x x = Some Eq.
Proof.
  destruct x as [s | s | | s m e]; cbn; intros Hx;
    try congruence; try (destruct s; reflexivity).
  destruct s; rewrite Z.compare_refl;
    change (Pos.compare_cont Eq m m) with (m ?= m)%positive;
    now rewrite Pos.compare_refl.
Qed.

Lemma is_nan_false (x : float) :
  is_nan x = false -> Prim2SF x <> S754_nan.
Proof.
  unfold is_nan. rewrite FloatAxioms.eqb_spec. unfold SFeqb.
  intros H E. rewrite E in H. discriminate.
Qed.

Lemma is_nan_true (x : float) :
  is_nan x = true -> Prim2SF x = S754_nan.
Proof.
  unfold is_nan. rewrite FloatAxioms.eqb_spec. unfold SFeqb.
  destruct (Prim2SF x) as [s | s | | s m e] eqn:E; try reflexivity;
    rewrite SFcompare_refl by congruence; discriminate.
Qed.

(** For numbers, [not (x <= y)] is [y < x]. *)
Lemma leb_false_ltb (x y : float) :
  is_nan x = false -> is_nan y = false ->
  (x <=? y) = false <-> (y <? x) = true.
Proof.
  intros Hx%is_nan_false Hy%is_nan_false.
  rewrite FloatAxioms.leb_spec, FloatAxioms.ltb_spec. unfold SFleb, SFltb.
  rewrite (SFcompare_antisym (Prim2SF x) (Prim2SF y)).
  destruct (SFcompare (Prim2SF x) (Prim2SF y)) as [[ | | ] | ] eqn:E; cbn;
    try (split; congruence).
  destruct (Prim2SF x), (Prim2SF y); cbn in E; congruence.
Qed.

Lemma Prim2SF_pos_threshold :
  Prim2SF pos_threshold = S754_finite false 7205759403792794 (-57).
Proof. vm_compute. reflexivity. Qed.

Lemma Prim2SF_neg_threshold :
  Prim2SF neg_threshold = S754_finite true 7205759403792794 (-57).
Proof. vm_compute. reflexivity. Qed.

(** No float is both at or above [0.05] and at or below [-0.05]. *)
Lemma thresholds_exclusive (score : float) :
  (pos_threshold <=? score) = true -> (score <=? neg_threshold) = false.
Proof.
  rewrite !FloatAxioms.leb_spec.
  rewrite Prim2SF_pos_threshold, Prim2SF_neg_threshold. unfold SFleb.
  generalize 7205759403792794%positive, (-57)%Z. intros mt et.
  destruct (Prim2SF score) as [s | s | | s m e]; simpl; try congruence;
    destruct s; simpl; congruence.
Qed.

(** The boundary values named in the specification. *)
Lemma classify_boundaries :
  classify_sentiment 0.05 = "Positivo"
  /\ classify_sentiment (-0.05) = "Negativo"
  /\ classify_sentiment 0.049 = "Neutro"
  /\ classify_sentiment (-0.049) = "Neutro"
  /\ classify_sentiment 0.0 = "Neutro".
Proof. vm_compute. repeat split. Qed.

End ClassifyFacts.

(** C4. [classify_sentiment] is a three-way threshold function.  For every
    score that is a number: the class is Positivo exactly when
    [score >= 0.05], Negativo exactly when [score <= -0.05] and Neutro
    exactly when [-0.05 < score < 0.05]; no other class is returned; and
    the five boundary values classify as stated. *)
Theorem classify_sentiment_three_way (score : float) :
  is_nan score = false ->
  (Sentiment.classify_sentiment score = "Positivo"
     <-> (0.05 <=? score)%float = true)
  /\ (Sentiment.classify_sentiment score = "Negativo"
     <-> (score <=? -0.05)%float = true)
  /\ (Sentiment.classify_sentiment score = "Neutro"
     <-> (-0.05 <? score)%float = true /\ (score <? 0.05)%float = true)
  /\ In (Sentiment.classify_sentiment score) ["Positivo"; "Negativo"; "Neutro"]
  /\ Sentiment.classify_sentiment 0.05 = "Positivo"
  /\ Sentiment.classify_sentiment (-0.05) = "Negativo"
  /\ Sentiment.classify_sentiment 0.049 = "Neutro"
  /\ Sentiment.classify_sentiment (-0.049) = "Neutro"
  /\ Sentiment.classify_sentiment 0.0 = "Neutro".
Proof.
  intros Hnum.
  assert (Hneg : (-0.05)%float = Sentiment.neg_threshold)
    by (vm_compute; reflexivity).
  rewrite Hneg. change 0.05%float with Sentiment.pos_threshold.
  assert (Hp : is_nan Sentiment.pos_threshold = false)
    by (vm_compute; reflexivity).
  assert (Hn : is_nan Sentiment.neg_threshold = false)
    by (vm_compute; reflexivity).
  pose proof (thresholds_exclusive score) as Hex.
  pose proof (leb_false_ltb Sentiment.pos_threshold score Hp Hnum) as Hlt1.
  pose proof (leb_false_ltb score Sentiment.neg_threshold Hnum Hn) as Hlt2.
  pose proof classify_boundaries as Hb.
  rewrite Hneg in Hb. change 0.05%float with Sentiment.pos_threshold in Hb.
  unfold Sentiment.classify_sentiment.
  destruct (Sentiment.pos_threshold <=? score)%float eqn:E1;
    [ specialize (Hex eq_refl)
    | destruct (score <=? Sentiment.neg_threshold)%float eqn:E2 ].
  - (* score >= 0.05 *)
    split; [ | split; [ | split; [ | split; [ | exact Hb ] ] ] ].
    + tauto.
    + rewrite Hex. split; discriminate.
    + split; [ discriminate | ].
      intros [_ H]. apply Hlt1 in H. discriminate.
    + simpl. tauto.
  - (* score <= -0.05 *)
    split; [ | split; [ | split; [ | split; [ | exact Hb ] ] ] ].
    + split; discriminate.
    + tauto.
    + split; [ discriminate | ].
      intros [H _]. apply Hlt2 in H. discriminate.
    + simpl. tauto.
  - (* neither *)
    split; [ | split; [ | split; [ | split; [ | exact Hb ] ] ] ].
    + split; discriminate.
    + split; discriminate.
    + split; [ intros _ | reflexivity ].
      split; [ now apply Hlt2 | now apply Hlt1 ].
    + simpl. tauto.
Qed.

(** The theorem applied at the score [0.0]. *)
Lemma classify_sentiment_three_way_witness :
  Sentiment.classify_sentiment 0.0 = "Neutro"
    <-> (-0.05 <? 0.0)%float = true /\ (0.0 <? 0.05)%float = true.
Proof.
  refine (proj1 (proj2 (proj2 (classify_sentiment_three_way 0.0%float _)))).
  vm_compute. reflexivity.
Defined.

(** A NaN is not a score; the function sends it to Neutro, the [else]
    branch, because both comparisons are false. *)
Lemma classify_sentiment_nan : Sentiment.classify_sentiment nan = "Neutro".
Proof. vm_compute. reflexivity. Qed.

(* ===================================================================== *)
(** * 6b. Elementary facts about strings                                  *)
(* ===================================================================== *)

Section StringFacts.

(** The two equations of [append]. *)
Lemma append_nil_l (s : string) : EmptyString +:+ s = s.
Proof. reflexivity. Qed.

Lemma append_cons (c : ascii) (s t : string) :
  String c s +:+ t = String c (s +:+ t).
Proof. reflexivity. Qed.

Lemma append_nil_r (s : string) : s +:+ EmptyString = s.
Proof.
  induction s as [ | c s IH]; [ reflexivity | ].
  now rewrite append_cons, IH.
Qed.

Lemma append_assoc (a b c : string) : (a +:+ b) +:+ c = a +:+ (b +:+ c).
Proof.
  induction a as [ | x a IH]; [ reflexivity | ].
  now rewrite !append_cons, IH.
Qed.

Lemma length_append (a b : string) :
  String.length (a +:+ b) = String.length a + String.length b.
Proof.
  induction a as [ | x a IH]; [ reflexivity | ].
  rewrite append_cons. simpl. now rewrite IH.
Qed.

Lemma append_inj_l (a b c : string) : a +:+ b = a +:+ c -> b = c.
Proof.
  induction a as [ | x a IH]; [ easy | ].
  rewrite !append_cons. intros H. injection H as H. now apply IH.
Qed.

Lemma append_inj_r (a b c : string) : a +:+ c = b +:+ c -> a = b.
Proof.
  revert b. induction a as [ | x a IH]; intros [ | y b];
    rewrite ?append_cons, ?append_nil_l; intros H.
  - reflexivity.
  - apply (f_equal String.length) in H. simpl in H.
    rewrite length_append in H. lia.
  - apply (f_equal String.length) in H. simpl in H.
    rewrite length_append in H. lia.
  - injection H as -> H. f_equal. now apply IH.
Qed.

Lemma replace_absent (old : ascii) (new s : string) :
  Str.has old s = false -> Str.replace old new s = s.
Proof.
  induction s as [ | c s IH]; simpl; [ reflexivity | ].
  rewrite (Ascii.eqb_sym old c).
  destruct (Ascii.eqb c old); simpl; [ discriminate | ].
  intros H. now rewrite IH.
Qed.

(** Replacing a character by another one leaves the other characters
    where they are. *)
Lemma has_replace_other (old new c : ascii) (s : string) :
  c <> old -> c <> new ->
  Str.has c (Str.replace old (String new EmptyString) s) = Str.has c s.
Proof.
  intros Ho Hn. induction s as [ | d s IH]; simpl; [ reflexivity | ].
  destruct (Ascii.eqb_spec d old) as [-> | Hd];
    rewrite ?append_cons, ?append_nil_l; simpl; rewrite IH.
  - apply Ascii.eqb_neq in Ho, Hn. now rewrite Ho, Hn.
  - reflexivity.
Qed.

(** Replacing [old] by a character that does not occur is reversible. *)
Lemma replace_inj (old new : ascii) (s t : string) :
  Str.has new s = false -> Str.has new t = false ->
  Str.replace old (String new EmptyString) s
  = Str.replace old (String new EmptyString) t ->
  s = t.
Proof.
  revert t. induction s as [ | c s IH]; intros [ | d t]; simpl.
  - reflexivity.
  - intros _ _. destruct (Ascii.eqb d old);
      rewrite ?append_cons, ?append_nil_l; discriminate.
  - intros _ _. destruct (Ascii.eqb c old);
      rewrite ?append_cons, ?append_nil_l; discriminate.
  - destruct (Ascii.eqb_spec new c) as [-> | Hc]; simpl; [ discriminate | ].
    destruct (Ascii.eqb_spec new d) as [-> | Hd]; simpl; [ discriminate | ].
    intros Hs Ht.
    destruct (Ascii.eqb_spec c old) as [-> | Hco],
             (Ascii.eqb_spec d old) as [-> | Hdo];
      rewrite ?append_cons, ?append_nil_l;
      intros H; injection H; intros; subst;
      try congruence; f_equal; now apply IH.
Qed.

End StringFacts.

(* ===================================================================== *)
(** * 7. Properties of the driver                                         *)
(* ===================================================================== *)


Section DriverFacts.
Import Pipeline Trace.
Variables words_pt words_en : list string.
Variable polarity : string -> float.
Variable float_repr : float -> string.
Variable script_dir : string.

Local Abbreviation run :=
  (run_analysis_for_theme words_pt words_en polarity float_repr script_dir).
Local Abbreviation batch :=
  (run_batch words_pt words_en polarity float_repr script_dir).
Local Abbreviation path_of := (full_file_path script_dir).
Local Abbreviation artifact :=
  (artifact_of words_pt words_en polarity float_repr).

(** The existence check of lines 81 to 83. *)
Lemma run_cached (topic : string) (w : world) (fs : gmap string string) :
  is_Some (fs !! path_of topic) ->
  run topic w fs = (fs, [], Returned Cached).
Proof.
  intros [content Hc]. unfold run_analysis_for_theme. now rewrite Hc.
Qed.

(** The collection loop makes no search request, scores nothing and writes
    nothing by itself. *)
Lemma collect_trace (limit : nat) (l : Reddit.listing) :
  List.filter is_search (fst (collect limit l)) = []
  /\ List.filter is_scoring (fst (collect limit l)) = []
  /\ List.filter is_write (fst (collect limit l)) = [].
Proof.
  revert l. induction limit as [ | k IH]; intros l; [ now cbn | ].
  destruct l as [ | | s rest]; cbn; try easy.
  destruct (Reddit.stickied s); [ apply IH | ].
  destruct (Reddit.comments s) as [cs | ]; [ | now cbn ].
  specialize (IH rest). destruct (collect k rest) as [tr res].
  cbn [fst List.filter is_search is_scoring is_write] in *. easy.
Qed.

Lemma authenticate_trace (topic : string) (w : world) :
  List.filter is_search (fst (authenticate script_dir topic w)) = []
  /\ List.filter is_scoring (fst (authenticate script_dir topic w)) = []
  /\ List.filter is_write (fst (authenticate script_dir topic w)) = [].
Proof.
  unfold authenticate. destruct (credentials w) as [lines | ]; [ | now cbn ].
  destruct (firstn 4 (map Str.strip lines)) as [ | a [ | b [ | c [ | d [ | e r]]]]];
    now cbn.
Qed.

(** The body of the function, with the outcomes of its two sub-steps
    named. *)
Lemma run_unfold (topic : string) (w : world) (fs : gmap string string) :
  run topic w fs =
  match fs !! path_of topic with
  | Some _ => (fs, [], Returned Cached)
  | None =>
      let a := authenticate script_dir topic w in
      let c := collect 100 (search w) in
      let tr := (fst a ++ SearchPosts SUBREDDITS topic 100 :: fst c)%list in
      if snd a then
        match snd c with
        | None => (fs, tr, Raised CollectionError)
        | Some (_, []) => (fs, tr, Returned SkippedEmpty)
        | Some (_, coms) =>
            let tr' := (tr ++ [ScoreComments (List.length coms);
                               WriteCsv (path_of topic)])%list in
            match disk w with
            | Written =>
                (<[path_of topic := artifact coms]> fs, tr', Returned Persisted)
            | OpenFails => (fs, tr', Raised PersistenceError)
            | FailsAfter n =>
                (<[path_of topic := String.substring 0 n (artifact coms)]> fs,
                 tr', Raised PersistenceError)
            end
        end
      else (fs, fst a, Returned AuthFailed)
  end.
Proof.
  unfold run_analysis_for_theme.
  destruct (fs !! path_of topic); [ reflexivity | ].
  destruct (authenticate script_dir topic w) as [tr_auth [ | ]];
    [ | reflexivity ].
  generalize (collect 100 (search w)). intros [tr_coll [[posts coms] | ]];
    reflexivity.
Qed.

Lemma passes_of_run (tr_a tr_c : list event) (topic : string) :
  List.filter is_search tr_a = [] -> List.filter is_scoring tr_a = [] ->
  List.filter is_write tr_a = [] ->
  List.filter is_search tr_c = [] -> List.filter is_scoring tr_c = [] ->
  List.filter is_write tr_c = [] ->
  let tr := (tr_a ++ SearchPosts SUBREDDITS topic 100 :: tr_c)%list in
  collection_passes tr = 1 /\ scoring_passes tr = 0 /\ writes tr = 0
  /\ forall n p,
      collection_passes (tr ++ [ScoreComments n; WriteCsv p]) = 1
      /\ scoring_passes (tr ++ [ScoreComments n; WriteCsv p]) = 1
      /\ writes (tr ++ [ScoreComments n; WriteCsv p]) = 1.
Proof.
  intros A1 A2 A3 C1 C2 C3. unfold collection_passes, scoring_passes, writes.
  repeat split; try intros n p; try (split; [ | split ]);
    repeat (rewrite ?List.filter_app;
            cbn [List.filter is_search is_scoring is_write]);
    rewrite ?A1, ?A2, ?A3, ?C1, ?C2, ?C3; reflexivity.
Qed.

(** What a call that ends with [Persisted] did: the artifact was absent,
    one search, one scoring pass, one write, and the file now holds the
    whole table. *)
Lemma run_persisted (topic : string) (w : world) (fs fs1 : gmap string string)
    (tr : list event) :
  run topic w fs = (fs1, tr, Returned Persisted) ->
  fs !! path_of topic = None
  /\ collection_passes tr = 1 /\ scoring_passes tr = 1 /\ writes tr = 1
  /\ exists posts coms,
       snd (collect 100 (search w)) = Some (posts, coms)
       /\ coms <> []
       /\ fs1 = <[path_of topic := artifact coms]> fs.
Proof.
  rewrite run_unfold.
  pose proof (authenticate_trace topic w) as (A1 & A2 & A3).
  pose proof (collect_trace 100 (search w)) as (C1 & C2 & C3).
  destruct (passes_of_run _ _ topic A1 A2 A3 C1 C2 C3) as (_ & _ & _ & P).
  destruct (fs !! path_of topic); [ discriminate | ]. cbv zeta.
  destruct (snd (authenticate script_dir topic w)); [ | discriminate ].
  destruct (snd (collect 100 (search w))) as [[posts [ | c coms]] | ];
    try discriminate.
  destruct (disk w); try discriminate.
  intros H.
  pose proof (f_equal (fun x => fst (fst x)) H) as Hfs.
  pose proof (f_equal (fun x => snd (fst x)) H) as Htr.
  cbn [fst snd] in Hfs, Htr. subst fs1 tr. clear H.
  destruct (P (List.length (c :: coms)) (path_of topic)) as (P1 & P2 & P3).
  repeat split; try assumption.
  exists posts, (c :: coms). repeat split. congruence.
Qed.

(** C1. When an artifact exists at the path derived from the topic,
    [run_analysis_for_theme] returns at once: no credentials are read, no
    request is made, nothing is written.  Hence, when a first call has
    produced the artifact, a second call in sequence is such a no-op: the two
    calls together made one collection pass and one scoring pass, and the
    file system, the artifact included, is what the first call left. *)
Theorem run_analysis_for_theme_idempotent (topic : string) (w1 w2 : world)
    (fs fs1 fs2 : gmap string string) (tr1 tr2 : list event) (o2 : outcome) :
  run topic w1 fs = (fs1, tr1, Returned Persisted) ->
  run topic w2 fs1 = (fs2, tr2, o2) ->
  (forall (w : world) (fs0 : gmap string string),
      is_Some (fs0 !! path_of topic) ->
      run topic w fs0 = (fs0, [], Returned Cached))
  /\ o2 = Returned Cached /\ tr2 = [] /\ fs2 = fs1
  /\ collection_passes (tr1 ++ tr2) = 1
  /\ scoring_passes (tr1 ++ tr2) = 1
  /\ is_Some (fs1 !! path_of topic)
  /\ fs2 !! path_of topic = fs1 !! path_of topic.
Proof.
  intros H1 H2.
  destruct (run_persisted _ _ _ _ _ H1)
    as (Hnone & Hc & Hs & _ & posts & coms & _ & _ & ->).
  assert (Hex : is_Some (<[path_of topic := artifact coms]> fs !! path_of topic))
    by (rewrite lookup_insert_eq; eauto).
  rewrite (run_cached topic w2 _ Hex) in H2.
  pose proof (f_equal (fun x => fst (fst x)) H2) as Hfs.
  pose proof (f_equal (fun x => snd (fst x)) H2) as Htr.
  pose proof (f_equal snd H2) as Ho.
  cbn [fst snd] in Hfs, Htr, Ho. subst fs2 tr2 o2. clear H2.
  split; [ intros w fs0; apply run_cached | ].
  rewrite app_nil_r. repeat split; assumption.
Qed.

(** C6. When the collection loop ends with no comment retained, the call
    returns (no exception leaves it) and the file system is unchanged: no
    file is created at the artifact path and no existing file is
    overwritten; nothing is scored or written. *)
Theorem empty_result_is_skipped (topic : string) (w : world)
    (fs : gmap string string) (posts : list post_record) :
  snd (collect 100 (search w)) = Some (posts, []) ->
  exists (tr : list event) (s : status),
    run topic w fs = (fs, tr, Returned s)
    /\ In s [Cached; AuthFailed; SkippedEmpty]
    /\ scoring_passes tr = 0 /\ writes tr = 0
    /\ (fs !! path_of topic = None ->
        snd (authenticate script_dir topic w) = true -> s = SkippedEmpty).
Proof.
  intros Hempty. rewrite run_unfold.
  pose proof (authenticate_trace topic w) as (A1 & A2 & A3).
  pose proof (collect_trace 100 (search w)) as (C1 & C2 & C3).
  destruct (passes_of_run _ _ topic A1 A2 A3 C1 C2 C3) as (_ & P2 & P3 & _).
  destruct (fs !! path_of topic).
  - exists [], Cached. repeat split; try (now left); intros; discriminate.
  - cbv zeta. rewrite Hempty.
    destruct (snd (authenticate script_dir topic w)).
    + eexists _, SkippedEmpty. split; [ reflexivity | ].
      repeat split; try assumption. cbn [In]. tauto.
    + exists (fst (authenticate script_dir topic w)), AuthFailed.
      unfold scoring_passes, writes. rewrite A2, A3.
      repeat split; try (intros; discriminate). cbn [In]. tauto.
Qed.

(** ** Per-topic error handling *)

Lemma run_quiet (topic : string) (w : world) (fs : gmap string string) :
  quiet w -> returned (run topic w fs).2.
Proof.
  intros [Hc Hd]. rewrite run_unfold.
  destruct (fs !! path_of topic); [ exact I | ]. cbv zeta.
  destruct (snd (authenticate script_dir topic w)); [ | exact I ].
  destruct (snd (collect 100 (search w))) as [[posts [ | c coms]] | ];
    [ exact I | | congruence ].
  rewrite Hd. exact I.
Qed.

Lemma run_batch_cons (tema : string) (w : world) (rest : list (string * world))
    (fs : gmap string string) :
  batch ((tema, w) :: rest) fs =
  match (run tema w fs).2 with
  | Raised _ => ((run tema w fs).1.1, (run tema w fs).1.2, [(run tema w fs).2])
  | Returned _ =>
      let r := batch rest (run tema w fs).1.1 in
      (r.1.1, ((run tema w fs).1.2 ++ r.1.2)%list, (run tema w fs).2 :: r.2)
  end.
Proof.
  cbn [run_batch]. destruct (run tema w fs) as [[fs1 tr1] o].
  cbn [fst snd]. destruct o; [ | reflexivity ].
  cbv zeta. now destruct (batch rest fs1) as [[fs2 tr2] os].
Qed.

(** C3 (as the code has it).  The [try] of the function covers the reading
    of the credentials and the creation of the session: whatever these do,
    the call returns.  So in a batch in which no collection request and no
    write raises, every topic is processed, failed authentications
    included.  An exception raised by the collection loop or by the write is
    caught nowhere: it ends the batch at that topic. *)
Theorem batch_survives_authentication_failures
    (jobs : list (string * world)) (fs : gmap string string) :
  Forall (fun j => quiet (snd j)) jobs ->
  (List.length (batch jobs fs).2 = List.length jobs
   /\ Forall returned (batch jobs fs).2)
  /\ (forall (topic : string) (w : world) (fs0 : gmap string string),
        fs0 !! path_of topic = None ->
        snd (authenticate script_dir topic w) = false ->
        run topic w fs0
        = (fs0, fst (authenticate script_dir topic w), Returned AuthFailed))
  /\ (forall (topic : string) (w : world) (rest : list (string * world))
             (fs0 : gmap string string) (e : error),
        (run topic w fs0).2 = Raised e ->
        (batch ((topic, w) :: rest) fs0).2 = [Raised e]
        /\ (batch ((topic, w) :: rest) fs0).1.2 = (run topic w fs0).1.2).
Proof.
  intros Hq. split; [ | split ].
  - revert fs. induction jobs as [ | [tema w] rest IH]; intros fs.
    + split; [ reflexivity | constructor ].
    + apply Forall_cons_iff in Hq. destruct Hq as [Hw Hrest].
      rewrite run_batch_cons.
      pose proof (run_quiet tema w fs Hw) as Hret.
      destruct (run tema w fs).2 as [st | e] eqn:Ho; [ | contradiction ].
      cbv zeta. cbn [snd List.length].
      destruct (IH Hrest (run tema w fs).1.1) as [IH1 IH2].
      split; [ now rewrite IH1 | now constructor ].
  - intros topic w fs0 Hnone Hauth. rewrite run_unfold, Hnone. cbv zeta.
    now rewrite Hauth.
  - intros topic w rest fs0 e Hraise. rewrite run_batch_cons, Hraise.
    split; reflexivity.
Qed.

(** ** The write *)

Lemma run_elsewhere (topic : string) (w : world) (fs : gmap string string)
    (p : string) :
  p <> path_of topic -> (run topic w fs).1.1 !! p = fs !! p.
Proof.
  intros Hp. rewrite run_unfold.
  destruct (fs !! path_of topic); [ reflexivity | ]. cbv zeta.
  destruct (snd (authenticate script_dir topic w)); [ | reflexivity ].
  destruct (snd (collect 100 (search w))) as [[posts [ | c coms]] | ];
    try reflexivity.
  destruct (disk w); cbn [fst snd]; try reflexivity;
    now rewrite lookup_insert_ne.
Qed.

(** C2 (as the code has it).  Line 165 hands the final path to [to_csv]:
    there is no temporary file and no rename.  A call changes no path but
    the artifact path of its topic, it writes at most once, and after a call
    that ends with [Persisted] the file holds the whole table; when the
    write fails after [n] characters, these [n] characters are what the
    file at the artifact path holds. *)
Theorem artifact_is_written_in_place (topic : string) (w : world)
    (fs : gmap string string) :
  (forall p : string,
      p <> path_of topic -> (run topic w fs).1.1 !! p = fs !! p)
  /\ writes (run topic w fs).1.2 <= 1
  /\ ((run topic w fs).2 = Returned Persisted ->
      exists posts coms,
        snd (collect 100 (search w)) = Some (posts, coms)
        /\ (run topic w fs).1.1 !! path_of topic = Some (artifact coms))
  /\ (forall n : nat,
        disk w = FailsAfter n ->
        (run topic w fs).2 = Raised PersistenceError ->
        exists posts coms,
          snd (collect 100 (search w)) = Some (posts, coms)
          /\ (run topic w fs).1.1 !! path_of topic
             = Some (String.substring 0 n (artifact coms))).
Proof.
  split; [ intros p; apply run_elsewhere | ].
  pose proof (authenticate_trace topic w) as (A1 & A2 & A3).
  pose proof (collect_trace 100 (search w)) as (C1 & C2 & C3).
  destruct (passes_of_run _ _ topic A1 A2 A3 C1 C2 C3) as (_ & _ & W0 & P).
  rewrite run_unfold.
  destruct (fs !! path_of topic);
    [ split; [ cbn; lia | split; [ | intros n _ ]; discriminate ] | ].
  cbv zeta.
  destruct (snd (authenticate script_dir topic w));
    [ | split; [ unfold writes; cbn [fst snd]; rewrite A3; cbn; lia
               | split; [ | intros n _ ]; discriminate ] ].
  destruct (snd (collect 100 (search w))) as [[posts [ | c coms]] | ];
    try (split; [ cbn [fst snd]; rewrite W0; lia
                | split; [ | intros n _ ]; discriminate ]).
  destruct (P (List.length (c :: coms)) (path_of topic)) as (_ & _ & W1).
  destruct (disk w) as [ | | m]; cbn [fst snd]; rewrite W1;
    (split; [ lia | split; [ try discriminate | intros n Hn; try discriminate ] ]).
  - intros _. exists posts, (c :: coms).
    split; [ reflexivity | now rewrite lookup_insert_eq ].
  - injection Hn as <-. intros _. exists posts, (c :: coms).
    split; [ reflexivity | now rewrite lookup_insert_eq ].
Qed.

End DriverFacts.

Section PathFacts.
Import Pipeline Trace.
Variable script_dir : string.
Local Abbreviation path_of := (full_file_path script_dir).

(** ** The artifact path *)

Lemma safe_term_plain (t : string) :
  plain_topic t -> safe_term t = Str.replace " " "_" t.
Proof.
  intros (Hu & Ho & Hc). unfold safe_term.
  rewrite (replace_absent "(")
    by (rewrite has_replace_other; [ exact Ho | discriminate | discriminate ]).
  apply replace_absent.
  rewrite has_replace_other; [ exact Hc | discriminate | discriminate ].
Qed.

Lemma data_file_name_inj (t1 t2 : string) :
  plain_topic t1 -> plain_topic t2 ->
  data_file_name t1 = data_file_name t2 -> t1 = t2.
Proof.
  intros H1 H2. unfold data_file_name.
  rewrite (safe_term_plain t1 H1), (safe_term_plain t2 H2).
  intros H%append_inj_l%append_inj_r.
  destruct H1 as (U1 & _), H2 as (U2 & _).
  exact (replace_inj " " "_" t1 t2 U1 U2 H).
Qed.

Lemma data_file_name_relative (t : string) :
  String.prefix "/" (data_file_name t) = false.
Proof. reflexivity. Qed.

Lemma path_join_inj (a b1 b2 : string) :
  String.prefix "/" b1 = false -> String.prefix "/" b2 = false ->
  path_join a b1 = path_join a b2 -> b1 = b2.
Proof.
  unfold path_join. intros -> ->.
  destruct (String.eqb a EmptyString || ends_with_slash a).
  - apply append_inj_l.
  - intros H%append_inj_l. now apply (append_inj_l "/") in H.
Qed.

Lemma configured_file_names :
  map data_file_name temas_para_analisar =
  [ "reddit_Xbox_Game_Pass_analisado.csv";
    "reddit_PlayStation_Plus_PSN_analisado.csv";
    "reddit_Nintendo_Switch_Online_analisado.csv" ].
Proof. vm_compute. reflexivity. Qed.

Lemma replace_removes (old new : ascii) (s : string) :
  new <> old ->
  Str.has old (Str.replace old (String new EmptyString) s) = false.
Proof.
  intros Hne. induction s as [ | c s IH]; [ reflexivity | ].
  cbn [Str.replace]. destruct (Ascii.eqb_spec c old) as [-> | Hc].
  - rewrite append_cons, append_nil_l. cbn [Str.has]. rewrite IH.
    apply Ascii.eqb_neq in Hne. now rewrite Ascii.eqb_sym, Hne.
  - cbn [Str.has]. rewrite IH. apply Ascii.eqb_neq in Hc.
    now rewrite Ascii.eqb_sym, Hc.
Qed.

Lemma safe_term_underscores (t : string) :
  safe_term (Str.replace " " "_" t) = safe_term t.
Proof.
  unfold safe_term. f_equal. f_equal.
  apply replace_absent, replace_removes. discriminate.
Qed.

(** C7 (as the code has it).  The derivation of the artifact path is
    injective on the topics that contain no underscore and no parenthesis,
    and the three configured topics have three different artifact paths;
    but a topic and the topic with underscores for its spaces have one
    path. *)
Theorem artifact_path_injective_on_plain_topics (t1 t2 : string) :
  plain_topic t1 -> plain_topic t2 ->
  path_of t1 = path_of t2 ->
  t1 = t2
  /\ List.NoDup (map path_of temas_para_analisar)
  /\ (forall t : string, path_of (Str.replace " " "_" t) = path_of t).
Proof.
  intros H1 H2 Hp. split; [ | split ].
  - apply (data_file_name_inj t1 t2 H1 H2).
    exact (path_join_inj _ _ _ (data_file_name_relative t1)
             (data_file_name_relative t2) Hp).
  - assert (Hinj : forall a b, path_of a = path_of b ->
                               data_file_name a = data_file_name b).
    { intros a b. apply path_join_inj; apply data_file_name_relative. }
    assert (Hnd : List.NoDup (map data_file_name temas_para_analisar)).
    { rewrite configured_file_names.
      repeat (apply List.NoDup_cons; [ cbn [In]; intuition discriminate | ]).
      apply List.NoDup_nil. }
    revert Hnd. generalize temas_para_analisar.
    induction l as [ | a l IH]; cbn [map]; intros Hnd;
      [ apply List.NoDup_nil | ].
    apply List.NoDup_cons_iff in Hnd. destruct Hnd as [Hnotin Hnd].
    apply List.NoDup_cons; [ | now apply IH ].
    intros Hin. apply Hnotin. apply List.in_map_iff in Hin.
    destruct Hin as (b & Hb & Hbl). apply List.in_map_iff. exists b.
    split; [ now apply Hinj | assumption ].
  - intros t. unfold full_file_path, data_file_name.
    now rewrite safe_term_underscores.
Qed.

End PathFacts.

(* ===================================================================== *)
(** * 7b. Properties of the normaliser                                    *)
(* ===================================================================== *)


Section CharFacts.
Import Chars Tokens.

Ltac by_cases_on c :=
  destruct c as [[ | ] [ | ] [ | ] [ | ] [ | ] [ | ] [ | ] [ | ]];
  vm_compute; try reflexivity; try discriminate; auto.

Lemma lower_char_lowered (c : ascii) : lowered (lower_char c) = true.
Proof. by_cases_on c. Qed.

Lemma word_is_solid (c : ascii) : is_word c = true -> solid c = true.
Proof. by_cases_on c. Qed.

Lemma at_sign_is_not_word_or_space (c : ascii) :
  is_word c || is_space c = true -> Ascii.eqb "@" c = false.
Proof. by_cases_on c. Qed.

End CharFacts.

Section SplitFacts.
Import Chars Tokens.

Lemma all_append (p : ascii -> bool) (a b : string) :
  Str.all p (a +:+ b) = Str.all p a && Str.all p b.
Proof.
  induction a as [ | c a IH]; [ reflexivity | ].
  rewrite append_cons. simpl. now rewrite IH, andb_assoc.
Qed.

Lemma all_substring (p : ascii -> bool) (s : string) (n m : nat) :
  Str.all p s = true -> Str.all p (String.substring n m s) = true.
Proof.
  revert n m. induction s as [ | c s IH]; intros n m; simpl.
  - now destruct n, m.
  - intros [Hc Hs]%andb_prop.
    destruct n as [ | n]; [ destruct m as [ | m]; simpl | ]; auto.
    now rewrite Hc, IH.
Qed.

Lemma all_keep (p q : ascii -> bool) (s : string) :
  Str.all p s = true -> Str.all p (Str.keep q s) = true.
Proof.
  induction s as [ | c s IH]; simpl; [ easy | ].
  intros [Hc Hs]%andb_prop. destruct (q c); simpl; auto.
  now rewrite Hc, IH.
Qed.

Lemma keep_all (p : ascii -> bool) (s : string) :
  Str.all p (Str.keep p s) = true.
Proof.
  induction s as [ | c s IH]; simpl; [ reflexivity | ].
  destruct (p c) eqn:Hc; simpl; [ now rewrite Hc | exact IH ].
Qed.

Lemma keep_fixed (p : ascii -> bool) (s : string) :
  Str.all p s = true -> Str.keep p s = s.
Proof.
  induction s as [ | c s IH]; simpl; [ reflexivity | ].
  intros [Hc Hs]%andb_prop. now rewrite Hc, IH.
Qed.

Lemma all_impl (p q : ascii -> bool) (s : string) :
  (forall c, p c = true -> q c = true) ->
  Str.all p s = true -> Str.all q s = true.
Proof.
  intros Hpq. induction s as [ | c s IH]; simpl; [ easy | ].
  intros [Hc Hs]%andb_prop. now rewrite (Hpq c Hc), IH.
Qed.

(** The tokens of [split] are well formed and keep every property that all
    the characters of the text have. *)
Lemma split_well_formed (s : string) : Forall well_formed (Str.split s).
Proof.
  induction s as [ | c s IH]; simpl; [ constructor | ].
  destruct (is_space c) eqn:Hc; [ exact IH | ].
  assert (Hsolid : solid c = true) by (unfold solid; now rewrite Hc).
  destruct (Str.nonspace_at 0 s).
  - destruct (Str.split s) as [ | w ws]; constructor.
    + split; [ discriminate | simpl; now rewrite Hsolid ].
    + constructor.
    + apply Forall_cons_iff in IH. destruct IH as [[_ Hw] _].
      split; [ discriminate | simpl; now rewrite Hsolid, Hw ].
    + now apply Forall_cons_iff in IH.
  - constructor; [ | exact IH ].
    split; [ discriminate | simpl; now rewrite Hsolid ].
Qed.

Lemma split_all (p : ascii -> bool) (s : string) :
  Str.all p s = true -> Forall (fun t => Str.all p t = true) (Str.split s).
Proof.
  induction s as [ | c s IH]; simpl; [ constructor | ].
  intros [Hc Hs]%andb_prop. specialize (IH Hs).
  destruct (is_space c); [ exact IH | ].
  destruct (Str.nonspace_at 0 s).
  - destruct (Str.split s) as [ | w ws]; constructor.
    + simpl. now rewrite Hc.
    + constructor.
    + apply Forall_cons_iff in IH. destruct IH as [Hw _].
      simpl. now rewrite Hc, Hw.
    + now apply Forall_cons_iff in IH.
  - constructor; [ simpl; now rewrite Hc | exact IH ].
Qed.

(** A well-formed token followed by the end of the text or by whitespace
    is the first token of the text. *)
Lemma split_token_first (t rest : string) :
  well_formed t -> Str.nonspace_at 0 rest = false ->
  Str.split (t +:+ rest) = t :: Str.split rest.
Proof.
  intros [Hne Hsolid] Hrest. induction t as [ | c t IH]; [ easy | ].
  simpl in Hsolid. apply andb_prop in Hsolid. destruct Hsolid as [Hc Ht].
  rewrite append_cons. simpl.
  unfold solid in Hc. apply negb_true_iff in Hc. rewrite Hc.
  destruct t as [ | d t].
  - rewrite append_nil_l, Hrest. reflexivity.
  - assert (Hd : Str.nonspace_at 0 (String d t +:+ rest) = true).
    { rewrite append_cons. unfold Str.nonspace_at. simpl.
      simpl in Ht. now apply andb_prop in Ht. }
    rewrite Hd, IH by (easy || exact Ht). reflexivity.
Qed.

(** [split] undoes [join] on well-formed tokens. *)
Lemma split_join (toks : list string) :
  Forall well_formed toks -> Str.split (Str.join " " toks) = toks.
Proof.
  unfold Str.join. induction toks as [ | t toks IH]; intros Hall;
    [ reflexivity | ].
  apply Forall_cons_iff in Hall. destruct Hall as [Ht Htoks].
  destruct toks as [ | u toks].
  - simpl. rewrite <- (append_nil_r t) at 1.
    now rewrite split_token_first.
  - change (String.concat " " (t :: u :: toks))
      with (t +:+ " " +:+ String.concat " " (u :: toks)).
    rewrite split_token_first by easy.
    f_equal. rewrite append_cons, append_nil_l.
    change (Str.split (String " " (String.concat " " (u :: toks))))
      with (Str.split (String.concat " " (u :: toks))).
    now apply IH.
Qed.

End SplitFacts.

Section TokenizerFacts.
Import Chars Tokens Normalizer.

Lemma lower_length (s : string) : String.length (Str.lower s) = String.length s.
Proof. induction s as [ | c s IH]; simpl; [ reflexivity | now rewrite IH ]. Qed.

Lemma substring_length_le (s : string) (n m : nat) :
  String.length (String.substring n m s) <= m.
Proof.
  revert n m. induction s as [ | c s IH]; intros [ | n] [ | m]; simpl;
    try lia.
  - specialize (IH 0 m). lia.
  - apply (IH n 0).
  - apply (IH n (S m)).
Qed.

Lemma substring_length (s : string) (n m : nat) :
  n + m <= String.length s -> String.length (String.substring n m s) = m.
Proof.
  revert n m. induction s as [ | c s IH]; intros [ | n] [ | m]; simpl;
    try lia; intros H.
  - rewrite (IH 0 m); lia.
  - apply (IH n 0). lia.
  - apply (IH n (S m)). lia.
Qed.

(** The two shapes of [split_contraction]. *)
Lemma split_contraction_cases (w : string) :
  split_contraction w = [w]
  \/ exists a b,
       In (a, b) contractions2 /\ Str.lower w = a +:+ b
       /\ split_contraction w =
          [ String.substring 0 (String.length a) w;
            String.substring (String.length a) (String.length b) w ].
Proof.
  unfold split_contraction.
  destruct (find _ contractions2) as [[a b] | ] eqn:Hfind; [ | now left ].
  right. exists a, b. apply find_some in Hfind. destruct Hfind as [Hin Heq].
  apply String.eqb_eq in Heq. auto.
Qed.

(** A word of fewer than five characters is no contraction. *)
Lemma short_word_is_stable (t : string) :
  String.length t < 5 -> split_contraction t = [t].
Proof.
  intros Hlen. destruct (split_contraction_cases t) as [H | (a & b & Hin & Hl & _)];
    [ exact H | exfalso ].
  apply (f_equal String.length) in Hl. rewrite lower_length in Hl.
  simpl in Hin.
  repeat (destruct Hin as [Hin | Hin];
          [ injection Hin as <- <-; simpl in Hl; lia | ]).
  exact Hin.
Qed.

(** What every token of [word_tokenize] satisfies: it is well formed, it
    keeps the properties of the characters of the text, and the tokenizer
    would leave it alone. *)
Lemma split_contraction_tokens (p : ascii -> bool) (w : string) :
  well_formed w -> Str.all p w = true ->
  Forall (fun t => well_formed t /\ Str.all p t = true
                   /\ split_contraction t = [t])
         (split_contraction w).
Proof.
  intros [Hne Hsolid] Hp.
  destruct (split_contraction_cases w) as [H | (a & b & Hin & Hl & H)].
  - rewrite H. constructor; [ | constructor ]. repeat split; assumption.
  - rewrite H. apply (f_equal String.length) in Hl.
    rewrite lower_length, length_append in Hl.
    assert (Ha : String.length a = 3 /\ 2 <= String.length b <= 3).
    { simpl in Hin.
      repeat (destruct Hin as [Hin | Hin];
              [ injection Hin as <- <-; simpl; lia | ]).
      destruct Hin. }
    assert (L1 : String.length
                   (String.substring 0 (String.length a) w) = String.length a)
      by (apply substring_length; lia).
    assert (L2 : String.length
                   (String.substring (String.length a) (String.length b) w)
                 = String.length b)
      by (apply substring_length; lia).
    constructor; [ | constructor; [ | constructor ] ].
    + repeat split.
      * intros E. rewrite E in L1. simpl in L1. lia.
      * now apply all_substring.
      * now apply all_substring.
      * apply short_word_is_stable. lia.
    + repeat split.
      * intros E. rewrite E in L2. simpl in L2. lia.
      * now apply all_substring.
      * now apply all_substring.
      * apply short_word_is_stable. lia.
Qed.

Lemma word_tokenize_tokens (p : ascii -> bool) (s : string) :
  Str.all p s = true ->
  Forall (fun t => well_formed t /\ Str.all p t = true
                   /\ split_contraction t = [t])
         (word_tokenize s).
Proof.
  intros Hp. unfold word_tokenize. apply List.Forall_flat_map.
  pose proof (split_well_formed s) as Hwf.
  pose proof (split_all p s Hp) as Hall.
  induction (Str.split s) as [ | w ws IH]; [ constructor | ].
  apply Forall_cons_iff in Hwf, Hall.
  destruct Hwf as [Hw Hws], Hall as [Ha Has].
  constructor; [ now apply split_contraction_tokens | now apply IH ].
Qed.

Lemma all_true (s : string) : Str.all (fun _ => true) s = true.
Proof. induction s as [ | c s IH]; simpl; [ reflexivity | exact IH ]. Qed.

Lemma filter_Forall {A : Type} (P : A -> Prop) (f : A -> bool) (l : list A) :
  Forall P l -> Forall P (List.filter f l).
Proof.
  intros H. apply List.Forall_forall. intros x [Hx _]%List.filter_In.
  revert x Hx. now apply List.Forall_forall.
Qed.

End TokenizerFacts.

Section PreprocessFacts.
Import Chars Tokens Normalizer.
Variables words_pt words_en : list string.

Local Abbreviation preprocess := (preprocess_text words_pt words_en).
Local Abbreviation tokens_of := (filtered_tokens words_pt words_en).
Local Abbreviation keeps := (kept words_pt words_en).

Lemma not_in_list (word : string) (l : list string) :
  existsb (String.eqb word) l = false -> ~ In word l.
Proof.
  intros H Hin. assert (existsb (String.eqb word) l = true); [ | congruence ].
  apply existsb_exists. exists word. split; [ exact Hin | apply String.eqb_refl ].
Qed.

Lemma kept_spec (word : string) :
  keeps word = true ->
  2 <= String.length word /\ ~ In word words_pt /\ ~ In word words_en.
Proof.
  unfold kept, stop_words_pt, stop_words_en.
  intros [[Hpt Hen]%andb_prop Hlen]%andb_prop.
  apply negb_true_iff in Hpt, Hen. apply Nat.ltb_lt in Hlen.
  repeat split; [ lia | now apply not_in_list | now apply not_in_list ].
Qed.

Lemma tokens_well_formed (text : string) :
  Forall well_formed (tokens_of text).
Proof.
  unfold filtered_tokens. apply filter_Forall.
  eapply Forall_impl; [ apply (word_tokenize_tokens (fun _ => true)) | ].
  - apply all_true.
  - intros t (H & _). exact H.
Qed.

(** C8. The output of [preprocess_text] is its kept tokens joined by single
    spaces; splitting the output at whitespace gives these tokens back; and
    each of them has at least two characters and is in neither stop-word
    list. *)
Theorem preprocess_text_keeps_content_tokens (text : string) :
  preprocess text = Str.join " " (tokens_of text)
  /\ Str.split (preprocess text) = tokens_of text
  /\ Forall (fun tok => 2 <= String.length tok
                        /\ ~ In tok words_pt /\ ~ In tok words_en)
            (tokens_of text).
Proof.
  split; [ reflexivity | split ].
  - unfold preprocess_text. apply split_join, tokens_well_formed.
  - unfold filtered_tokens. apply List.Forall_forall.
    intros tok [_ Hk]%List.filter_In. now apply kept_spec.
Qed.

End PreprocessFacts.

Section RegexFacts.
Import Chars Tokens Normalizer.

(** ** Subsequences keep what holds of every character *)

Lemma sub_urls_all (p : ascii -> bool) (inside : bool) (s : string) :
  Str.all p s = true -> Str.all p (sub_urls inside s) = true.
Proof.
  revert inside. induction s as [ | c s IH]; intros inside H;
    [ reflexivity | ].
  simpl in H. apply andb_prop in H. destruct H as [Hc Hs].
  cbn [sub_urls].
  destruct (is_space c); [ simpl; now rewrite Hc, IH | ].
  destruct inside; [ now apply IH | ].
  destruct (url_at (String c s)); [ now apply IH | ].
  simpl. now rewrite Hc, IH.
Qed.

Lemma sub_mentions_all (p : ascii -> bool) (inside : bool) (s : string) :
  Str.all p s = true -> Str.all p (sub_mentions inside s) = true.
Proof.
  revert inside. induction s as [ | c s IH]; intros inside H;
    [ reflexivity | ].
  simpl in H. apply andb_prop in H. destruct H as [Hc Hs].
  cbn [sub_mentions].
  destruct (inside && is_word c); [ now apply IH | ].
  destruct (mention_at (String c s)); [ now apply IH | ].
  simpl. now rewrite Hc, IH.
Qed.

Lemma lower_all (s : string) : Str.all lowered (Str.lower s) = true.
Proof.
  induction s as [ | c s IH]; simpl; [ reflexivity | ].
  now rewrite lower_char_lowered, IH.
Qed.

Lemma lower_fixed (s : string) : Str.all lowered s = true -> Str.lower s = s.
Proof.
  induction s as [ | c s IH]; simpl; [ reflexivity | ].
  intros [Hc Hs]%andb_prop. unfold lowered in Hc.
  apply Ascii.eqb_eq in Hc. now rewrite Hc, IH.
Qed.

Lemma all_has (p : ascii -> bool) (c : ascii) (s : string) :
  (forall d, p d = true -> Ascii.eqb c d = false) ->
  Str.all p s = true -> Str.has c s = false.
Proof.
  intros Hp. induction s as [ | d s IH]; simpl; [ reflexivity | ].
  intros [Hd Hs]%andb_prop. now rewrite (Hp d Hd), IH.
Qed.

Lemma all_join (p : ascii -> bool) (toks : list string) :
  p " "%char = true -> Forall (fun t => Str.all p t = true) toks ->
  Str.all p (Str.join " " toks) = true.
Proof.
  intros Hsp. unfold Str.join.
  induction toks as [ | t toks IH]; intros Hall; [ reflexivity | ].
  apply Forall_cons_iff in Hall. destruct Hall as [Ht Htoks].
  destruct toks as [ | u toks]; [ exact Ht | ].
  change (String.concat " " (t :: u :: toks))
    with (t +:+ " " +:+ String.concat " " (u :: toks)).
  rewrite !all_append, Ht, (IH Htoks). simpl. now rewrite Hsp.
Qed.

(** ** Texts that the substitutions leave alone *)

Lemma sub_mentions_fixed (s : string) :
  Str.has "@" s = false -> sub_mentions false s = s.
Proof.
  induction s as [ | c s IH]; intros H; [ reflexivity | ].
  cbn [Str.has] in H. apply orb_false_elim in H. destruct H as [Hc Hs].
  assert (Hm : mention_at (String c s) = false).
  { unfold mention_at. rewrite Ascii.eqb_sym, Hc. now destruct s. }
  cbn [sub_mentions andb]. now rewrite Hm, IH.
Qed.

Lemma sub_urls_fixed (s : string) :
  url_free s = true -> sub_urls false s = s.
Proof.
  induction s as [ | c s IH]; [ reflexivity | ].
  cbn [url_free sub_urls]. intros [Hu Hs]%andb_prop.
  apply negb_true_iff in Hu. rewrite Hu, (IH Hs).
  now destruct (is_space c).
Qed.

(** ** The URL step removes every match *)

Lemma prefix_append (p s : string) :
  String.prefix p s = true -> exists rest, s = p +:+ rest.
Proof.
  revert s. induction p as [ | c p IH]; intros s H.
  - exists s. reflexivity.
  - destruct s as [ | d s]; [ discriminate | ]. simpl in H.
    destruct (ascii_dec c d) as [-> | ]; [ | discriminate ].
    destruct (IH s H) as [rest ->]. exists rest. now rewrite append_cons.
Qed.

Lemma prefix_of_append (p rest : string) : String.prefix p (p +:+ rest) = true.
Proof.
  induction p as [ | c p IH]; [ now destruct rest | ].
  rewrite append_cons. simpl. now destruct (ascii_dec c c).
Qed.

Lemma nonspace_at_append (p rest : string) :
  Str.nonspace_at (String.length p) (p +:+ rest) = Str.nonspace_at 0 rest.
Proof.
  unfold Str.nonspace_at. induction p as [ | c p IH]; [ reflexivity | ].
  rewrite append_cons. exact IH.
Qed.

(** A match of the URL pattern: one of the literals, then a character that
    is not whitespace. *)
Lemma url_at_iff (s : string) :
  url_at s = true <->
  exists lit d rest,
    In lit ["http"; "www"; "https"] /\ solid d = true
    /\ s = lit +:+ String d rest.
Proof.
  unfold url_at. split.
  - intros H.
    assert (Hlit : exists lit, In lit ["http"; "www"; "https"]
                     /\ String.prefix lit s = true
                     /\ Str.nonspace_at (String.length lit) s = true).
    { apply orb_prop in H. destruct H as [H | H];
        [ apply orb_prop in H; destruct H as [H | H] | ];
        apply andb_prop in H; destruct H as [Hp Hn];
        [ exists "http" | exists "www" | exists "https" ];
        simpl; auto. }
    destruct Hlit as (lit & Hin & Hp & Hn).
    destruct (prefix_append lit s Hp) as [rest ->].
    rewrite nonspace_at_append in Hn. unfold Str.nonspace_at in Hn.
    destruct rest as [ | d rest]; [ discriminate | ].
    exists lit, d, rest. auto.
  - intros (lit & d & rest & Hin & Hd & ->).
    assert (Hn : Str.nonspace_at (String.length lit) (lit +:+ String d rest)
                 = true)
      by (rewrite nonspace_at_append; exact Hd).
    pose proof (prefix_of_append lit (String d rest)) as Hp.
    simpl in Hin. destruct Hin as [<- | [<- | [<- | []]]];
      simpl in Hn; rewrite Hp, Hn; auto using orb_true_r.
Qed.

Lemma url_at_space (c : ascii) (s : string) :
  is_space c = true -> url_at (String c s) = false.
Proof.
  intros Hc. destruct (url_at (String c s)) eqn:H; [ exfalso | reflexivity ].
  apply url_at_iff in H. destruct H as (lit & d & rest & Hin & _ & E).
  simpl in Hin. destruct Hin as [<- | [<- | [<- | []]]];
    rewrite append_cons in E; injection E as -> _; discriminate.
Qed.

(** Inside a match the scan emits nothing before the next whitespace. *)
Lemma sub_urls_inside_head (s : string) :
  match sub_urls true s with
  | EmptyString => True
  | String d _ => is_space d = true
  end.
Proof.
  induction s as [ | c s IH]; [ exact I | ]. cbn [sub_urls].
  destruct (is_space c) eqn:Hc; [ exact Hc | exact IH ].
Qed.


Lemma sub_urls_agree (r : string) : agree (sub_urls false r) r.
Proof.
  induction r as [ | c r IH]; [ exact I | ]. cbn [sub_urls].
  destruct (is_space c) eqn:Hc; [ simpl; now rewrite Hc | ].
  destruct (url_at (String c r)).
  - pose proof (sub_urls_inside_head r) as H.
    destruct (sub_urls true r) as [ | d y]; [ exact I | ].
    simpl. now rewrite H.
  - simpl. rewrite Hc. auto.
Qed.

Lemma agree_solid_prefix (p y r : string) :
  Str.all solid p = true -> agree (p +:+ y) r ->
  exists r', r = p +:+ r' /\ agree y r'.
Proof.
  revert r. induction p as [ | c p IH]; intros r Hp H.
  - exists r. auto.
  - rewrite append_cons in H. simpl in Hp, H.
    apply andb_prop in Hp. destruct Hp as [Hc Hp].
    unfold solid in Hc. apply negb_true_iff in Hc. rewrite Hc in H.
    destruct r as [ | e r]; [ destruct H | ]. destruct H as [<- H].
    destruct (IH r Hp H) as (r' & -> & Hr'). exists r'.
    now rewrite append_cons.
Qed.

Lemma url_at_agree (c : ascii) (y r : string) :
  agree y r -> url_at (String c y) = true -> url_at (String c r) = true.
Proof.
  intros Hag H. apply url_at_iff in H.
  destruct H as (lit & d & rest & Hin & Hd & E).
  assert (Hlit : exists lit', lit = String c lit'
                              /\ Str.all solid lit' = true).
  { simpl in Hin. destruct Hin as [<- | [<- | [<- | []]]];
      rewrite append_cons in E; injection E as -> _;
      eexists; split; reflexivity. }
  destruct Hlit as (lit' & -> & Hsolid).
  rewrite append_cons in E. injection E as ->.
  change (String d rest) with (String d EmptyString +:+ rest) in Hag.
  rewrite <- append_assoc in Hag.
  apply agree_solid_prefix in Hag;
    [ | rewrite all_append, Hsolid; simpl; now rewrite Hd ].
  destruct Hag as (r' & -> & _).
  apply url_at_iff. exists (String c lit'), d, r'.
  repeat split; [ exact Hin | exact Hd | ].
  now rewrite append_cons, append_assoc.
Qed.

Lemma sub_urls_url_free (inside : bool) (s : string) :
  url_free (sub_urls inside s) = true.
Proof.
  revert inside. induction s as [ | c s IH]; intros inside;
    [ reflexivity | ].
  cbn [sub_urls].
  destruct (is_space c) eqn:Hc.
  - cbn [url_free]. now rewrite (url_at_space c _ Hc), IH.
  - destruct inside; [ apply IH | ].
    destruct (url_at (String c s)) eqn:Hu; [ apply IH | ].
    cbn [url_free]. rewrite IH, andb_true_r. apply negb_true_iff.
    destruct (url_at (String c (sub_urls false s))) eqn:Hu';
      [ | reflexivity ].
    apply (url_at_agree c _ s (sub_urls_agree s)) in Hu'. congruence.
Qed.

End RegexFacts.

Section NormalFormFacts.
Import Chars Tokens Normalizer.
Variables words_pt words_en : list string.

Local Abbreviation preprocess := (preprocess_text words_pt words_en).
Local Abbreviation tokens_of := (filtered_tokens words_pt words_en).
Local Abbreviation keeps := (kept words_pt words_en).


Lemma cleaned_clean (text : string) :
  Str.all clean_char (cleaned text) = true.
Proof.
  unfold cleaned, sub_punct.
  assert (Hl : Str.all lowered
                 (Str.keep (fun c => is_word c || is_space c)
                    (sub_mentions false (sub_urls false (Str.lower text))))
               = true)
    by (apply all_keep, sub_mentions_all, sub_urls_all, lower_all).
  pose proof (keep_all (fun c => is_word c || is_space c)
                (sub_mentions false (sub_urls false (Str.lower text)))) as Hw.
  revert Hl Hw.
  generalize (Str.keep (fun c => is_word c || is_space c)
                (sub_mentions false (sub_urls false (Str.lower text)))).
  intros s. induction s as [ | c s IH]; simpl; [ easy | ].
  intros [Hc Hs]%andb_prop [Hc' Hs']%andb_prop.
  unfold clean_char at 1. now rewrite Hc, Hc', IH.
Qed.

Lemma tokens_normal (text : string) :
  Forall (fun t => well_formed t /\ Str.all clean_char t = true
                   /\ split_contraction t = [t] /\ keeps t = true)
         (tokens_of text).
Proof.
  unfold filtered_tokens. apply List.Forall_forall.
  intros t [Hin Hk]%List.filter_In.
  pose proof (word_tokenize_tokens clean_char (cleaned text)
                (cleaned_clean text)) as H.
  rewrite List.Forall_forall in H. destruct (H t Hin) as (H1 & H2 & H3).
  auto.
Qed.

Lemma output_clean (text : string) :
  Str.all clean_char (preprocess text) = true.
Proof.
  unfold preprocess_text. apply all_join; [ reflexivity | ].
  eapply Forall_impl; [ apply tokens_normal | ].
  intros t (_ & H & _). exact H.
Qed.

Lemma flat_map_stable (l : list string) :
  Forall (fun t => split_contraction t = [t]) l ->
  flat_map split_contraction l = l.
Proof.
  induction l as [ | t l IH]; intros H; [ reflexivity | ].
  apply Forall_cons_iff in H. destruct H as [Ht Hl].
  cbn [flat_map]. now rewrite Ht, IH.
Qed.

Lemma filter_all_kept (f : string -> bool) (l : list string) :
  Forall (fun t => f t = true) l -> List.filter f l = l.
Proof.
  induction l as [ | t l IH]; intros H; [ reflexivity | ].
  apply Forall_cons_iff in H. destruct H as [Ht Hl].
  cbn [List.filter]. now rewrite Ht, IH.
Qed.

(** C10 (as the code has it).  A second pass over an output that holds no
    match of the URL pattern changes nothing. *)
Theorem preprocess_text_idempotent_without_url (text : string) :
  url_free (preprocess text) = true ->
  preprocess (preprocess text) = preprocess text.
Proof.
  intros Hfree.
  pose proof (output_clean text) as Hclean.
  pose proof (tokens_normal text) as Htok.
  assert (Hcleaned : cleaned (preprocess text) = preprocess text).
  { unfold cleaned, sub_punct.
    rewrite lower_fixed
      by (revert Hclean; apply all_impl; unfold clean_char;
          intros c [H _]%andb_prop; exact H).
    rewrite (sub_urls_fixed _ Hfree).
    rewrite sub_mentions_fixed
      by (revert Hclean; apply all_has; unfold clean_char;
          intros d [_ H]%andb_prop; now apply at_sign_is_not_word_or_space).
    apply keep_fixed. revert Hclean. apply all_impl. unfold clean_char.
    intros c [_ H]%andb_prop. exact H. }
  unfold preprocess_text at 1. unfold filtered_tokens at 1.
  rewrite Hcleaned. unfold word_tokenize.
  unfold preprocess_text at 1.
  rewrite split_join
    by (eapply Forall_impl; [ exact Htok | intros t (H & _); exact H ]).
  rewrite flat_map_stable
    by (eapply Forall_impl; [ exact Htok | intros t (_ & _ & H & _); exact H ]).
  rewrite filter_all_kept
    by (eapply Forall_impl; [ exact Htok | intros t (_ & _ & _ & H); exact H ]).
  reflexivity.
Qed.

Lemma example_tokens :
  word_tokenize (cleaned "check http://a.co/x now @bob!!") = ["check"; "now"].
Proof. vm_compute. reflexivity. Qed.

(** C9 (as the code has it).  For every text: the output holds no [@], so
    no mention; the URL step leaves no match of the URL pattern in the
    lowercased text; and the output for the text of the specification
    contains neither [http] nor [@bob]. *)
Theorem preprocess_text_strips_mentions_and_url_matches (text : string) :
  Str.has "@" (preprocess text) = false
  /\ url_free (sub_urls false (Str.lower text)) = true
  /\ Str.contains "http" (preprocess "check http://a.co/x now @bob!!") = false
  /\ Str.contains "@bob" (preprocess "check http://a.co/x now @bob!!") = false.
Proof.
  split; [ | split; [ apply sub_urls_url_free | ] ].
  - pose proof (output_clean text) as Hclean. revert Hclean.
    apply all_has. unfold clean_char.
    intros d [_ H]%andb_prop. now apply at_sign_is_not_word_or_space.
  - unfold preprocess_text, filtered_tokens. rewrite example_tokens.
    cbn [List.filter].
    destruct (keeps "check"), (keeps "now"); vm_compute; auto.
Qed.

End NormalFormFacts.

(* ===================================================================== *)
(** * 7c. The artifact file read back                                     *)
(* ===================================================================== *)

Section CsvFacts.
Import Csv.
Variable sep : ascii.
Hypothesis sep_not_quote : Ascii.eqb sep DQUOTE = false.
Hypothesis sep_not_lf : Ascii.eqb sep LF = false.

Local Abbreviation plain := (fun c => negb (special sep c)).

Lemma plain_char (c : ascii) :
  plain c = true ->
  Ascii.eqb c sep = false /\ Ascii.eqb c DQUOTE = false
  /\ Ascii.eqb c LF = false.
Proof.
  unfold special. intros H%negb_true_iff.
  apply orb_false_elim in H. destruct H as [H _].
  apply orb_false_elim in H. destruct H as [H H3].
  apply orb_false_elim in H. destruct H as [H1 H2]. auto.
Qed.

Lemma snoc_append (fld : string) (c : ascii) (s : string) :
  snoc fld c +:+ s = fld +:+ String c s.
Proof. unfold snoc. now rewrite append_assoc, append_cons, append_nil_l. Qed.

(** An unquoted field is read character by character. *)
Lemma read_plain (s fld : string) (rec : list string) (rest : string) :
  Str.all plain s = true ->
  read sep Unquoted fld rec (s +:+ rest)
  = read sep Unquoted (fld +:+ s) rec rest.
Proof.
  revert fld. induction s as [ | c s IH]; intros fld H.
  - now rewrite append_nil_l, append_nil_r.
  - cbn [Str.all] in H. apply andb_prop in H. destruct H as [Hc Hs].
    destruct (plain_char c Hc) as (H1 & H2 & H3).
    rewrite append_cons. cbn [read]. rewrite H1, H3, H2.
    assert (E : read sep Unquoted (snoc fld c) rec (s +:+ rest)
                = read sep Unquoted (fld +:+ String c s) rec rest)
      by (rewrite (IH _ Hs); now rewrite snoc_append).
    destruct fld; exact E.
Qed.

(** The body of a quoted field, up to the closing quote. *)
Lemma read_quoted (s fld : string) (rec : list string) (rest : string) :
  read sep Quoted fld rec (escape s +:+ String DQUOTE rest)
  = read sep QuoteSeen (fld +:+ s) rec rest.
Proof.
  revert fld. unfold escape. induction s as [ | c s IH]; intros fld.
  - rewrite append_nil_r. cbn [Str.replace]. rewrite append_nil_l.
    cbn [read]. now rewrite Ascii.eqb_refl.
  - cbn [Str.replace]. destruct (Ascii.eqb c DQUOTE) eqn:Hc.
    + apply Ascii.eqb_eq in Hc. subst c.
      rewrite !append_cons, append_nil_l. cbn [read].
      rewrite Ascii.eqb_refl.
      now rewrite IH, snoc_append.
    + rewrite append_cons. cbn [read]. rewrite Hc.
      now rewrite IH, snoc_append.
Qed.

(** A field followed by the delimiter. *)
Lemma read_field_sep (f : string) (rec : list string) (rest : string) :
  read sep Unquoted EmptyString rec (field sep f +:+ String sep rest)
  = read sep Unquoted EmptyString (rec ++ [f])%list rest.
Proof.
  unfold field, needs_quotes.
  destruct (Str.all plain f) eqn:Hf; cbn [negb].
  - rewrite (read_plain f _ rec _ Hf), append_nil_l.
    cbn [read]. now rewrite Ascii.eqb_refl.
  - rewrite append_cons. cbn [read].
    rewrite (Ascii.eqb_sym DQUOTE sep), sep_not_quote.
    change (Ascii.eqb DQUOTE LF) with false. rewrite Ascii.eqb_refl.
    rewrite append_assoc, append_cons, append_nil_l.
    rewrite read_quoted, append_nil_l. cbn [read].
    now rewrite sep_not_quote, Ascii.eqb_refl.
Qed.

(** The last field of a record, followed by the line terminator. *)
Lemma read_field_end (f : string) (rec : list string) (rest : string) :
  (rec ++ [f])%list <> [EmptyString] ->
  read sep Unquoted EmptyString rec (field sep f +:+ String LF rest)
  = (rec ++ [f])%list :: read sep Unquoted EmptyString [] rest.
Proof.
  intros Hne. unfold field, needs_quotes.
  destruct (Str.all plain f) eqn:Hf; cbn [negb].
  - rewrite (read_plain f _ rec _ Hf), append_nil_l.
    cbn [read]. rewrite (Ascii.eqb_sym LF sep), sep_not_lf, Ascii.eqb_refl.
    destruct f; [ | reflexivity ].
    destruct rec; [ now destruct Hne | reflexivity ].
  - rewrite append_cons. cbn [read].
    rewrite (Ascii.eqb_sym DQUOTE sep), sep_not_quote.
    change (Ascii.eqb DQUOTE LF) with false. rewrite Ascii.eqb_refl.
    rewrite append_assoc, append_cons, append_nil_l.
    rewrite read_quoted, append_nil_l. cbn [read].
    change (Ascii.eqb LF DQUOTE) with false.
    now rewrite (Ascii.eqb_sym LF sep), sep_not_lf, Ascii.eqb_refl.
Qed.

(** One record. *)
Lemma read_line (fields rec : list string) (rest : string) :
  fields <> [] -> (rec ++ fields)%list <> [EmptyString] ->
  read sep Unquoted EmptyString rec (line sep fields +:+ rest)
  = (rec ++ fields)%list :: read sep Unquoted EmptyString [] rest.
Proof.
  unfold line, Str.join. revert rec.
  induction fields as [ | f fields IH]; intros rec Hne Hblank; [ easy | ].
  destruct fields as [ | g fields].
  - cbn [map String.concat].
    rewrite append_assoc, append_cons, append_nil_l.
    now apply read_field_end.
  - change (String.concat (String sep EmptyString)
              (map (field sep) (f :: g :: fields)))
      with (field sep f +:+ String sep EmptyString
            +:+ String.concat (String sep EmptyString)
                  (map (field sep) (g :: fields))).
    rewrite !append_assoc, append_cons, append_nil_l.
    rewrite read_field_sep.
    rewrite <- append_assoc.
    assert (Hne' : g :: fields <> []) by discriminate.
    assert (Hblank' : ((rec ++ [f]) ++ g :: fields)%list <> [EmptyString]).
    { intros E. apply (f_equal (@List.length string)) in E.
      rewrite !List.length_app in E. cbn [List.length] in E. lia. }
    rewrite (IH (rec ++ [f])%list Hne' Hblank').
    now rewrite <- app_assoc.
Qed.

Lemma write_cons (r : list string) (rs : list (list string)) :
  write sep (r :: rs) = line sep r +:+ write sep rs.
Proof.
  unfold write. cbn [map]. destruct (map (line sep) rs) as [ | x l].
  - cbn [String.concat]. now rewrite append_nil_r.
  - cbn [String.concat]. now rewrite append_nil_l.
Qed.

(** Reading a written file gives the records back, when no record is empty
    or a single empty field. *)
Lemma parse_write (records : list (list string)) :
  Forall (fun r => r <> [] /\ r <> [EmptyString]) records ->
  parse sep (write sep records) = records.
Proof.
  unfold parse. induction records as [ | r rs IH]; intros H;
    [ reflexivity | ].
  apply Forall_cons_iff in H. destruct H as [[Hne Hblank] Hrs].
  rewrite write_cons, (read_line r [] _ Hne Hblank). cbn [app].
  now rewrite (IH Hrs).
Qed.

End CsvFacts.

Section DateFacts.
Import Artifact.


Lemma string_of_uint_digits (u : Decimal.uint) :
  Str.all date_char (NilEmpty.string_of_uint u) = true.
Proof. induction u; simpl; auto. Qed.

Lemma digits_are_digits (n : nat) : Str.all date_char (digits n) = true.
Proof.
  unfold digits, NilZero.string_of_uint.
  destruct (Nat.to_uint n) eqn:E; try reflexivity;
    rewrite <- E; apply string_of_uint_digits.
Qed.

Lemma zeros_are_digits (k : nat) : Str.all date_char (zeros k) = true.
Proof. induction k as [ | k IH]; simpl; auto. Qed.

Lemma padded_digits (width n : nat) : Str.all date_char (padded width n) = true.
Proof.
  unfold padded. now rewrite all_append, zeros_are_digits, digits_are_digits.
Qed.

(** A rendered date holds digits and hyphens only: no time of day. *)
Lemma iso_date_chars (d : datetime) : Str.all date_char (iso_date d) = true.
Proof.
  unfold iso_date. rewrite !all_append, !padded_digits. reflexivity.
Qed.

(** The rendered date does not depend on the time of day. *)
Lemma iso_date_normalize (d : datetime) : iso_date (normalize d) = iso_date d.
Proof. reflexivity. Qed.

Lemma normalize_is_midnight (d : datetime) : is_midnight (normalize d) = true.
Proof. reflexivity. Qed.

Lemma render_dates_normalized (ds : list datetime) :
  render_dates (map normalize ds) = map iso_date ds.
Proof.
  unfold render_dates.
  assert (H : forallb is_midnight (map normalize ds) = true)
    by (induction ds as [ | d ds IH]; simpl; auto).
  rewrite H. induction ds as [ | d ds IH]; [ reflexivity | ].
  cbn [map]. now rewrite IH.
Qed.

End DateFacts.

Section ArtifactFacts.
Import Pipeline Trace Artifact.
Variables words_pt words_en : list string.
Variable polarity : string -> float.
Variable float_repr : float -> string.
Variable script_dir : string.

Local Abbreviation run :=
  (run_analysis_for_theme words_pt words_en polarity float_repr script_dir).
Local Abbreviation path_of := (full_file_path script_dir).
Local Abbreviation artifact :=
  (artifact_of words_pt words_en polarity float_repr).
Local Abbreviation preprocess := (Normalizer.preprocess_text words_pt words_en).
Local Abbreviation cells_of :=
  (written_cells words_pt words_en polarity float_repr).


Lemma records_of_comments (coms : list comment_record) :
  records float_repr (map (analyse words_pt words_en polarity) coms)
  = map cells_of coms.
Proof.
  unfold records. rewrite map_map.
  change (map (fun c => date (analyse words_pt words_en polarity c)) coms)
    with (map (fun c => normalize (c_created_utc c)) coms).
  rewrite <- (map_map c_created_utc normalize), render_dates_normalized.
  induction coms as [ | c coms IH]; [ reflexivity | ].
  cbn [map combine]. now rewrite IH.
Qed.

Lemma artifact_header (coms : list comment_record) :
  artifact coms =
  ("post_id;date;text;cleaned_text;sentiment_score;sentiment;comment_score"
   +:+ String Csv.LF EmptyString)
  +:+ Csv.write SEP (map cells_of coms).
Proof.
  unfold artifact_of, to_csv. rewrite (write_cons SEP), records_of_comments. reflexivity.
Qed.

Lemma artifact_parses (coms : list comment_record) :
  Csv.parse SEP (artifact coms) = columns :: map cells_of coms.
Proof.
  unfold artifact_of, to_csv. rewrite records_of_comments.
  apply parse_write; [ reflexivity | reflexivity | ].
  constructor; [ split; discriminate | ].
  induction coms as [ | c coms IH]; cbn [map]; constructor;
    [ split; discriminate | exact IH ].
Qed.

(** C5. The file that a call leaves when it ends with [Persisted] is
    delimited text with the separator [;]: read back, it is the header row
    with the seven column names in their order, followed by one record of
    seven cells per collected comment, in the same order.  The [date] cell
    is the calendar date of the comment, made of digits and hyphens only,
    whatever the time of day of the comment was. *)
Theorem artifact_file_format (topic : string) (w : world)
    (fs fs1 : gmap string string) (tr : list event) :
  run topic w fs = (fs1, tr, Returned Persisted) ->
  exists posts coms content,
    snd (collect 100 (search w)) = Some (posts, coms)
    /\ fs1 !! path_of topic = Some content
    /\ String.prefix
         ("post_id;date;text;cleaned_text;sentiment_score;sentiment;comment_score"
          +:+ String Csv.LF EmptyString) content = true
    /\ Csv.parse ";" content =
       [ "post_id"; "date"; "text"; "cleaned_text"; "sentiment_score";
         "sentiment"; "comment_score" ]
       :: map (fun c =>
                 [ c_post_id c;
                   iso_date (c_created_utc c);
                   c_comment_text c;
                   preprocess (c_comment_text c);
                   float_repr (polarity (preprocess (c_comment_text c)));
                   Sentiment.classify_sentiment
                     (polarity (preprocess (c_comment_text c)));
                   int_str (c_comment_score c) ]) coms
    /\ Forall (fun c =>
                 Str.all date_char (iso_date (c_created_utc c)) = true
                 /\ iso_date (normalize (c_created_utc c))
                    = iso_date (c_created_utc c)) coms.
Proof.
  intros Hrun.
  destruct (run_persisted _ _ _ _ _ _ _ _ _ _ Hrun)
    as (_ & _ & _ & _ & posts & coms & Hcoll & _ & ->).
  exists posts, coms, (artifact coms).
  split; [ exact Hcoll | ].
  split; [ now rewrite lookup_insert_eq | ].
  split; [ rewrite artifact_header; apply prefix_of_append | ].
  split; [ exact (artifact_parses coms) | ].
  apply List.Forall_forall. intros c _.
  split; [ apply iso_date_chars | reflexivity ].
Qed.

End ArtifactFacts.

(* ===================================================================== *)
(** * 8. The driver on concrete worlds                                    *)
(* ===================================================================== *)


Import Pipeline Trace.

Lemma sample_artifact :
  Sample.the_artifact =
  "post_id;date;text;cleaned_text;sentiment_score;sentiment;comment_score"
  +:+ String Csv.LF
     ("p1;2024-01-03;I love this game!!;love game;0.0;Neutro;5"
      +:+ String Csv.LF EmptyString).
Proof. vm_compute. reflexivity. Qed.

(** The idempotency theorem on a first call that persists and a second
    call made while the service is down. *)
Lemma run_analysis_for_theme_idempotent_witness :
  (Sample.run "Xbox Game Pass" Sample.service_down
     (Sample.run "Xbox Game Pass" Sample.fine ∅).1.1).2 = Returned Cached
  /\ (Sample.run "Xbox Game Pass" Sample.service_down
        (Sample.run "Xbox Game Pass" Sample.fine ∅).1.1).1.2 = []
  /\ (Sample.run "Xbox Game Pass" Sample.service_down
        (Sample.run "Xbox Game Pass" Sample.fine ∅).1.1).1.1
     = (Sample.run "Xbox Game Pass" Sample.fine ∅).1.1.
Proof.
  assert (H1 : (Sample.run "Xbox Game Pass" Sample.fine ∅).2
               = Returned Persisted) by (vm_compute; reflexivity).
  destruct (run_analysis_for_theme_idempotent
              Corpus.portuguese Corpus.english Sample.polarity
              Sample.float_repr Sample.script_dir
              "Xbox Game Pass" Sample.fine Sample.service_down ∅
              (Sample.run "Xbox Game Pass" Sample.fine ∅).1.1
              (Sample.run "Xbox Game Pass" Sample.service_down
                 (Sample.run "Xbox Game Pass" Sample.fine ∅).1.1).1.1
              (Sample.run "Xbox Game Pass" Sample.fine ∅).1.2
              (Sample.run "Xbox Game Pass" Sample.service_down
                 (Sample.run "Xbox Game Pass" Sample.fine ∅).1.1).1.2
              (Sample.run "Xbox Game Pass" Sample.service_down
                 (Sample.run "Xbox Game Pass" Sample.fine ∅).1.1).2)
    as (_ & Ho & Htr & Hfs & _).
  - rewrite <- H1. unfold Sample.run.
    now destruct (run_analysis_for_theme _ _ _ _ _ _ _ _) as [[fs1 tr1] o1].
  - unfold Sample.run.
    now destruct (run_analysis_for_theme _ _ _ _ _ _ Sample.service_down _)
      as [[fs2 tr2] o2].
  - exact (conj Ho (conj Htr Hfs)).
Defined.

(** The empty-result theorem on a search that finds nothing. *)
Lemma empty_result_is_skipped_witness :
  exists (tr : list event) (s : status),
    Sample.run "Xbox Game Pass" Sample.nothing_found ∅ = (∅, tr, Returned s)
    /\ writes tr = 0.
Proof.
  destruct (empty_result_is_skipped
              Corpus.portuguese Corpus.english Sample.polarity
              Sample.float_repr Sample.script_dir
              "Xbox Game Pass" Sample.nothing_found ∅ [])
    as (tr & s & Hrun & _ & _ & Hw & _).
  - vm_compute. reflexivity.
  - exists tr, s. split; [ exact Hrun | exact Hw ].
Defined.

(** The batch theorem on a batch whose first topic fails to authenticate. *)
Lemma batch_survives_authentication_failures_witness :
  List.length
    (run_batch Corpus.portuguese Corpus.english Sample.polarity
       Sample.float_repr Sample.script_dir
       [("Xbox Game Pass", Sample.no_credentials);
        ("Nintendo Switch Online", Sample.fine)] ∅).2 = 2.
Proof.
  refine (proj1 (proj1 (batch_survives_authentication_failures
                   Corpus.portuguese Corpus.english Sample.polarity
                   Sample.float_repr Sample.script_dir
                   [("Xbox Game Pass", Sample.no_credentials);
                    ("Nintendo Switch Online", Sample.fine)] ∅ _))).
  repeat constructor; vm_compute; congruence.
Defined.

(** The injectivity theorem on a configured topic. *)
Lemma artifact_path_injective_on_plain_topics_witness :
  "Xbox Game Pass" = "Xbox Game Pass"
  /\ List.NoDup (map Sample.path_of temas_para_analisar).
Proof.
  destruct (artifact_path_injective_on_plain_topics Sample.script_dir
              "Xbox Game Pass" "Xbox Game Pass") as (H1 & H2 & _).
  - vm_compute. auto.
  - vm_compute. auto.
  - reflexivity.
  - exact (conj H1 H2).
Defined.

(** C2, counterexample.  The disk fills up after seven characters: the call
    ends with the exception, and the file at the artifact path holds the
    first seven characters of the table.  A later call takes that file for
    the artifact and returns at once. *)
Lemma torn_artifact_is_visible :
  (Sample.run "Xbox Game Pass" Sample.disk_full ∅).2
    = Raised PersistenceError
  /\ (Sample.run "Xbox Game Pass" Sample.disk_full ∅).1.1
       !! Sample.path_of "Xbox Game Pass" = Some "post_id"
  /\ "post_id" <> Sample.the_artifact
  /\ Sample.run "Xbox Game Pass" Sample.fine
       (Sample.run "Xbox Game Pass" Sample.disk_full ∅).1.1
     = ((Sample.run "Xbox Game Pass" Sample.disk_full ∅).1.1, [],
        Returned Cached).
Proof.
  repeat split; try (vm_compute; reflexivity).
  rewrite sample_artifact. discriminate.
Qed.

(** C3, counterexample.  The search for the first topic raises: the
    exception leaves the call and the loop, and the two topics after it are
    never processed, although nothing would have failed for them. *)
Lemma collection_error_aborts_the_batch :
  Sample.main [Sample.service_down; Sample.fine; Sample.fine] ∅
  = (∅,
     [ OpenCredentials "/app/src/credentials.txt";
       NewSession "id" "secret" "user" "password"
         "Python script for Xbox Game Pass analysis by /u/Data-Science-Project";
       SearchPosts SUBREDDITS "Xbox Game Pass" 100 ],
     [ Raised CollectionError ])
  /\ (Sample.run "PlayStation Plus (PSN)" Sample.fine ∅).2
     = Returned Persisted.
Proof. split; vm_compute; reflexivity. Qed.

(** C7, counterexample.  Two different topics with one artifact path. *)
Lemma different_topics_share_an_artifact :
  "Xbox Game Pass" <> "Xbox_Game_Pass"
  /\ Sample.path_of "Xbox Game Pass" = Sample.path_of "Xbox_Game_Pass"
  /\ "PSN" <> "(PSN)"
  /\ Sample.path_of "PSN" = Sample.path_of "(PSN)".
Proof. repeat split; try discriminate; vm_compute; reflexivity. Qed.


(* ===================================================================== *)
(** * 9. The normaliser on concrete texts                                 *)
(* ===================================================================== *)

(** The text of the specification. *)
Lemma preprocess_text_example :
  Sample.preprocess_text "check http://a.co/x now @bob!!" = "check".
Proof. vm_compute. reflexivity. Qed.

(** C9, counterexample.  Stripping the punctuation after the URL step can
    build a token that begins with [https] and that the URL pattern matches;
    and the words [www] and [http] on their own are no match of the pattern
    and stay. *)
Lemma url_like_tokens_survive :
  Sample.preprocess_text "h.ttps://example.com/game" = "httpsexamplecomgame"
  /\ Str.contains "http" "httpsexamplecomgame" = true
  /\ Normalizer.url_at "httpsexamplecomgame" = true
  /\ Sample.preprocess_text "see www and http today" = "see www http today".
Proof. repeat split; vm_compute; reflexivity. Qed.

(** C10, counterexample.  The first pass builds a token that the URL step of
    the second pass deletes. *)
Lemma second_pass_changes_the_output :
  Sample.preprocess_text "ht.tp://a.co/x" = "httpacox"
  /\ Sample.preprocess_text (Sample.preprocess_text "ht.tp://a.co/x")
     = EmptyString
  /\ Sample.preprocess_text (Sample.preprocess_text "ht.tp://a.co/x")
     <> Sample.preprocess_text "ht.tp://a.co/x".
Proof.
  assert (H1 : Sample.preprocess_text "ht.tp://a.co/x" = "httpacox")
    by (vm_compute; reflexivity).
  assert (H2 : Sample.preprocess_text "httpacox" = EmptyString)
    by (vm_compute; reflexivity).
  rewrite H1, H2. repeat split. discriminate.
Qed.

(** The amended idempotency on a comment of the sample. *)
Lemma preprocess_text_idempotent_without_url_witness :
  Sample.preprocess_text (Sample.preprocess_text "I love this game!!")
  = Sample.preprocess_text "I love this game!!".
Proof.
  apply (preprocess_text_idempotent_without_url
           Corpus.portuguese Corpus.english "I love this game!!").
  vm_compute. reflexivity.
Defined.

(* ===================================================================== *)
(** * 10. The artifact of the sample                                      *)
(* ===================================================================== *)

(** The format theorem on the call that persists the sample comment, posted
    at 15:42:07. *)
Lemma artifact_file_format_witness :
  exists content,
    (Sample.run "Xbox Game Pass" Sample.fine ∅).1.1
      !! Sample.path_of "Xbox Game Pass" = Some content
    /\ Csv.parse ";" content =
       [ [ "post_id"; "date"; "text"; "cleaned_text"; "sentiment_score";
           "sentiment"; "comment_score" ];
         [ "p1"; "2024-01-03"; "I love this game!!"; "love game"; "0.0";
           "Neutro"; "5" ] ].
Proof.
  assert (H1 : (Sample.run "Xbox Game Pass" Sample.fine ∅).2
               = Returned Persisted) by (vm_compute; reflexivity).
  destruct (artifact_file_format
              Corpus.portuguese Corpus.english Sample.polarity
              Sample.float_repr Sample.script_dir
              "Xbox Game Pass" Sample.fine ∅
              (Sample.run "Xbox Game Pass" Sample.fine ∅).1.1
              (Sample.run "Xbox Game Pass" Sample.fine ∅).1.2)
    as (posts & coms & content & Hcoll & Hfile & _ & Hparse & _).
  - rewrite <- H1. unfold Sample.run.
    now destruct (run_analysis_for_theme _ _ _ _ _ _ _ _) as [[fs1 tr1] o1].
  - exists content. split; [ exact Hfile | ].
    rewrite Hparse. f_equal.
    assert (Hcoms : snd (collect 100 (search Sample.fine))
                    = Some ([post_of Sample.a_post],
                            [CommentRecord "p1" "c1" "I love this game!!" 5
                               Sample.afternoon]))
      by (vm_compute; reflexivity).
    rewrite Hcoms in Hcoll. injection Hcoll as _ <-.
    vm_compute. reflexivity.
Defined.

(* ===================================================================== *)
(** * 11. Further properties of the collection loop                       *)
(* ===================================================================== *)

Section CollectFacts.
Import Reddit Pipeline Collector.

Lemma collect_shape (limit : nat) (l : listing) :
  fst (collect limit l)
  = firstn (List.length (fst (collect limit l)))
      (map (fun s => ExpandComments (id s)) (visible limit l))
  /\ forall posts coms,
       snd (collect limit l) = Some (posts, coms) ->
       fst (collect limit l)
       = map (fun s => ExpandComments (id s)) (visible limit l)
       /\ posts = map post_of (visible limit l)
       /\ coms = flat_map records_of (visible limit l).
Proof.
  unfold visible. revert l.
  induction limit as [ | k IH]; intros l.
  - cbn. split; [ reflexivity | ]. intros posts coms H.
    injection H as <- <-. auto.
  - destruct l as [ | | s rest]; cbn [collect yielded].
    + cbn. split; [ reflexivity | ]. intros posts coms H.
      injection H as <- <-. auto.
    + cbn. split; [ reflexivity | ]. intros posts coms H. discriminate.
    + cbn [List.filter]. destruct (stickied s) eqn:Hs; cbn [negb].
      * apply IH.
      * destruct (IH rest) as [IH1 IH2].
        destruct (comments s) as [cs | ] eqn:Hcs.
        -- destruct (collect k rest) as [tr [[ps cms] | ]].
           ++ cbn [fst snd] in *.
              destruct (IH2 ps cms eq_refl) as (E1 & E2 & E3).
              split.
              ** cbn [List.length map firstn]. f_equal. exact IH1.
              ** intros posts coms H. injection H as <- <-.
                 cbn [map flat_map]. unfold records_of at 1. rewrite Hcs.
                 now rewrite E1, E2, E3.
           ++ cbn [fst snd] in *. split.
              ** cbn [List.length map firstn]. f_equal. exact IH1.
              ** intros posts coms H. discriminate.
        -- cbn [fst snd]. split; [ reflexivity | ].
           intros posts coms H. discriminate.
Qed.

(** X1. When no request raises, the loop of lines 114 to 138 leaves in
    [comments_data] exactly the comments that have an author and a body, of
    the submissions that are not pinned among the first [limit] results, in
    their order; it expands the comments of these submissions and of no
    other; and no record has an empty text. *)
Theorem collect_gathers_retained_comments (limit : nat) (l : listing)
    (posts : list post_record) (coms : list comment_record) :
  snd (collect limit l) = Some (posts, coms) ->
  coms = flat_map records_of (visible limit l)
  /\ posts = map post_of (visible limit l)
  /\ fst (collect limit l)
     = map (fun s => ExpandComments (id s)) (visible limit l)
  /\ Forall (fun c => c_comment_text c <> EmptyString) coms
  /\ Forall (fun c => exists s, In s (yielded limit l) /\ stickied s = false
                                /\ c_post_id c = id s) coms.
Proof.
  intros H. destruct (collect_shape limit l) as [_ Hs].
  destruct (Hs posts coms H) as (E1 & E2 & E3).
  split; [ exact E3 | split; [ exact E2 | split; [ exact E1 | ] ] ].
  subst coms. split; apply List.Forall_forall; intros c Hin;
    apply List.in_flat_map in Hin; destruct Hin as (s & Hs1 & Hs2);
    unfold records_of in Hs2;
    destruct (comments s) as [cs | ]; try (now destruct Hs2);
    apply List.in_map_iff in Hs2; destruct Hs2 as (c0 & <- & Hc0);
    apply List.filter_In in Hc0; destruct Hc0 as [_ Hret].
  - cbn. unfold retained in Hret. destruct (author c0); [ | discriminate ].
    apply negb_true_iff in Hret. now apply String.eqb_neq in Hret.
  - exists s. unfold visible in Hs1. apply List.filter_In in Hs1.
    destruct Hs1 as [Hy Hst]. apply negb_true_iff in Hst. auto.
Qed.

Lemma collect_prepend (ss : list submission) (rest : listing) :
  collect (List.length ss) (prepend ss rest)
  = collect (List.length ss) (prepend ss Exhausted).
Proof.
  induction ss as [ | s ss IH]; [ reflexivity | ].
  cbn [List.length prepend fold_right collect].
  fold (prepend ss rest). fold (prepend ss Exhausted).
  destruct (stickied s); [ exact IH | ].
  destruct (comments s); [ | reflexivity ]. now rewrite IH.
Qed.

Lemma yielded_length (limit : nat) (l : listing) :
  List.length (yielded limit l) <= limit.
Proof.
  revert l. induction limit as [ | k IH]; intros l; [ cbn; lia | ].
  destruct l as [ | | s rest]; cbn [yielded List.length]; try lia.
  specialize (IH rest). lia.
Qed.

(** X2. The loop looks at no more than [limit] results: what the iteration
    would do after them, an exception included, has no influence; and at
    most [limit] submissions are recorded and expanded. *)
Theorem collect_stops_at_the_limit (ss : list submission) (rest : listing)
    (limit : nat) (l : listing) :
  collect (List.length ss) (prepend ss rest)
  = collect (List.length ss) (prepend ss Exhausted)
  /\ List.length (fst (collect limit l)) <= limit
  /\ (forall posts coms,
        snd (collect limit l) = Some (posts, coms) ->
        List.length posts <= limit).
Proof.
  split; [ apply collect_prepend | ].
  destruct (collect_shape limit l) as [Hpre Hs].
  assert (Hv : List.length (visible limit l) <= limit).
  { unfold visible. pose proof (yielded_length limit l).
    pose proof (List.filter_length_le
                  (fun s => negb (stickied s)) (yielded limit l)). lia. }
  split.
  - rewrite Hpre. rewrite List.length_firstn, List.length_map. lia.
  - intros posts coms H. destruct (Hs posts coms H) as (_ & -> & _).
    now rewrite List.length_map.
Qed.

End CollectFacts.

(* ===================================================================== *)
(** * 12. Further properties of the driver                                *)
(* ===================================================================== *)

Section DriverMore.
Import Reddit Pipeline Trace Collector.
Variables words_pt words_en : list string.
Variable polarity : string -> float.
Variable float_repr : float -> string.
Variable script_dir : string.

Local Abbreviation run :=
  (run_analysis_for_theme words_pt words_en polarity float_repr script_dir).
Local Abbreviation batch :=
  (run_batch words_pt words_en polarity float_repr script_dir).
Local Abbreviation path_of := (full_file_path script_dir).
Local Abbreviation artifact :=
  (artifact_of words_pt words_en polarity float_repr).
Local Abbreviation unfold_run :=
  (run_unfold words_pt words_en polarity float_repr script_dir).

(** X3. A credentials file with fewer than four lines ends the call at the
    [except] of line 102: no session is created and no request is made.
    Lines after the fourth are never looked at. *)
Theorem credentials_need_four_lines (topic : string) (w : world)
    (fs : gmap string string) (lines : list string) :
  fs !! path_of topic = None ->
  credentials w = Some lines ->
  (List.length lines < 4 ->
   run topic w fs
   = (fs, [OpenCredentials (credentials_path script_dir)],
      Returned AuthFailed))
  /\ (forall extra : list string,
        4 <= List.length lines ->
        run topic (World (Some (lines ++ extra)%list) (session w) (search w) (disk w)) fs
        = run topic w fs).
Proof.
  intros Hnone Hcred. split.
  - intros Hlen. rewrite unfold_run, Hnone. cbv zeta.
    unfold authenticate. rewrite Hcred.
    destruct lines as [ | a [ | b [ | c [ | d rest]]]];
      cbn [List.length] in Hlen; try lia; reflexivity.
  - intros extra Hlen. rewrite !unfold_run, Hnone. cbv zeta.
    assert (Hauth : authenticate script_dir topic
                      (World (Some (lines ++ extra)%list) (session w) (search w)
                         (disk w))
                    = authenticate script_dir topic w).
    { unfold authenticate. cbn [credentials session]. rewrite Hcred.
      rewrite List.map_app, List.firstn_app.
      replace (4 - List.length (map Str.strip lines)) with 0
        by (rewrite List.length_map; lia).
      cbn [firstn]. now rewrite app_nil_r. }
    rewrite Hauth. reflexivity.
Qed.

(** A call never touches a file that exists. *)
Lemma run_keeps_files (topic : string) (w : world) (fs : gmap string string)
    (p content : string) :
  fs !! p = Some content -> (run topic w fs).1.1 !! p = Some content.
Proof.
  intros Hp. rewrite unfold_run.
  destruct (fs !! path_of topic) eqn:Hnone; [ exact Hp | ]. cbv zeta.
  assert (Hne : path_of topic <> p) by congruence.
  destruct (snd (authenticate script_dir topic w)); [ | exact Hp ].
  destruct (snd (collect 100 (search w))) as [[posts [ | c coms]] | ];
    try exact Hp.
  destruct (disk w); cbn [fst]; try exact Hp;
    now rewrite lookup_insert_ne.
Qed.

Lemma batch_cons (tema : string) (w : world) (rest : list (string * world))
    (fs : gmap string string) :
  batch ((tema, w) :: rest) fs =
  match (run tema w fs).2 with
  | Raised _ => ((run tema w fs).1.1, (run tema w fs).1.2, [(run tema w fs).2])
  | Returned _ =>
      let r := batch rest (run tema w fs).1.1 in
      (r.1.1, ((run tema w fs).1.2 ++ r.1.2)%list, (run tema w fs).2 :: r.2)
  end.
Proof. apply run_batch_cons. Qed.

Lemma batch_keeps_files (jobs : list (string * world))
    (fs : gmap string string) (p content : string) :
  fs !! p = Some content -> (batch jobs fs).1.1 !! p = Some content.
Proof.
  revert fs. induction jobs as [ | [tema w] rest IH]; intros fs Hp;
    [ exact Hp | ].
  rewrite batch_cons.
  pose proof (run_keeps_files tema w fs p content Hp) as Hrun.
  destruct (run tema w fs).2; [ | exact Hrun ].
  cbv zeta. cbn [fst]. now apply IH.
Qed.

(** X4. Neither a call nor a batch deletes or overwrites a file that
    exists, an artifact of an earlier run included: whatever the worlds
    are, every file is afterwards where it was, with its content. *)
Theorem existing_files_are_never_modified (jobs : list (string * world))
    (fs : gmap string string) (p content : string) :
  fs !! p = Some content ->
  (batch jobs fs).1.1 !! p = Some content
  /\ (forall topic w, (run topic w fs).1.1 !! p = Some content).
Proof.
  intros Hp. split.
  - now apply batch_keeps_files.
  - intros topic w. now apply run_keeps_files.
Qed.

Lemma run_settled (topic : string) (w : world) (fs : gmap string string) :
  settled (run topic w fs).2 -> is_Some ((run topic w fs).1.1 !! path_of topic).
Proof.
  rewrite unfold_run.
  destruct (fs !! path_of topic) eqn:Hfs; [ intros _; cbn [fst]; eauto | ].
  cbv zeta.
  destruct (snd (authenticate script_dir topic w));
    [ | intros [H | H]; discriminate ].
  destruct (snd (collect 100 (search w))) as [[posts [ | c coms]] | ];
    try (intros [H | H]; discriminate).
  destruct (disk w); cbn [fst snd]; try (intros [H | H]; discriminate).
  intros _. rewrite lookup_insert_eq. eauto.
Qed.

Lemma batch_settled (jobs : list (string * world)) (fs : gmap string string) :
  List.length (batch jobs fs).2 = List.length jobs ->
  Forall settled (batch jobs fs).2 ->
  Forall (fun j => is_Some ((batch jobs fs).1.1 !! path_of (fst j))) jobs.
Proof.
  revert fs. induction jobs as [ | [tema w] rest IH]; intros fs;
    [ constructor | ].
  rewrite batch_cons.
  pose proof (run_settled tema w fs) as Hrun.
  destruct (run tema w fs).2 as [st | e] eqn:Ho.
  - cbv zeta. cbn [fst snd List.length]. intros Hlen Hall.
    apply Forall_cons_iff in Hall. destruct Hall as [Hst Hall].
    constructor.
    + cbn [fst]. destruct (Hrun Hst) as [content Hc].
      exists content.
      now apply batch_keeps_files.
    + apply IH; [ lia | exact Hall ].
  - cbn [snd]. intros _ Hall. apply Forall_cons_iff in Hall.
    destruct Hall as [[H | H] _]; discriminate.
Qed.

Lemma batch_all_cached (jobs : list (string * world)) (fs : gmap string string) :
  Forall (fun j => is_Some (fs !! path_of (fst j))) jobs ->
  batch jobs fs = (fs, [], map (fun _ => Returned Cached) jobs).
Proof.
  induction jobs as [ | [tema w] rest IH]; intros Hall; [ reflexivity | ].
  apply Forall_cons_iff in Hall. destruct Hall as [Hj Hall].
  rewrite batch_cons.
  rewrite (run_cached words_pt words_en polarity float_repr script_dir
             tema w fs Hj).
  cbv zeta. cbn [fst snd]. now rewrite (IH Hall).
Qed.

(** X5. After a batch in which every call ended with the artifact in place
    (written or found), running the same topics again is a no-op whatever
    the worlds are: no credentials are read, no request is made, the file
    system is unchanged and every call returns at the existence check. *)
Theorem batch_rerun_is_a_no_op (jobs again : list (string * world))
    (fs : gmap string string) :
  List.length (batch jobs fs).2 = List.length jobs ->
  Forall settled (batch jobs fs).2 ->
  map fst again = map fst jobs ->
  batch again (batch jobs fs).1.1
  = ((batch jobs fs).1.1, [], map (fun _ => Returned Cached) again).
Proof.
  intros Hlen Hall Htopics. apply batch_all_cached.
  pose proof (batch_settled jobs fs Hlen Hall) as Hfiles.
  apply List.Forall_forall. intros j Hj.
  assert (Hin : In (fst j) (map fst jobs))
    by (rewrite <- Htopics; now apply List.in_map).
  apply List.in_map_iff in Hin. destruct Hin as (j' & Hj' & Hin').
  rewrite List.Forall_forall in Hfiles. rewrite <- Hj'. now apply Hfiles.
Qed.

(** X6. Unless the call reaches the write, it leaves the file system as it
    found it and neither scores nor writes: this holds for a cached topic, a
    failed authentication, an empty result and an exception raised during
    the collection, and also when [open] itself fails. *)
Theorem no_write_leaves_the_disk_alone (topic : string) (w : world)
    (fs : gmap string string) :
  ((run topic w fs).2 <> Returned Persisted ->
   (run topic w fs).2 <> Raised PersistenceError ->
   (run topic w fs).1.1 = fs
   /\ scoring_passes (run topic w fs).1.2 = 0
   /\ writes (run topic w fs).1.2 = 0)
  /\ (disk w = OpenFails -> (run topic w fs).1.1 = fs).
Proof.
  pose proof (authenticate_trace script_dir topic w) as (A1 & A2 & A3).
  pose proof (collect_trace 100 (search w)) as (C1 & C2 & C3).
  destruct (passes_of_run _ _ topic A1 A2 A3 C1 C2 C3) as (_ & S0 & W0 & _).
  rewrite unfold_run.
  destruct (fs !! path_of topic); [ cbn; auto | ]. cbv zeta.
  destruct (snd (authenticate script_dir topic w)).
  - destruct (snd (collect 100 (search w))) as [[posts [ | c coms]] | ];
      cbn [fst snd]; try (rewrite S0, W0; auto).
    destruct (disk w); cbn [fst snd];
      (split; [ intros H1 H2; congruence | intros H; try reflexivity;
                                            discriminate ]).
  - cbn [fst snd]. unfold scoring_passes, writes. rewrite A2, A3. auto.
Qed.

(** X7. The artifact has one record per retained comment: after a call
    that ends with [Persisted], the file read back holds the header row and
    as many records as there are comments with an author and a body in the
    submissions that are not pinned among the first hundred results. *)
Theorem artifact_row_count (topic : string) (w : world)
    (fs fs1 : gmap string string) (tr : list event) :
  run topic w fs = (fs1, tr, Returned Persisted) ->
  exists content,
    fs1 !! path_of topic = Some content
    /\ List.length (Csv.parse ";" content)
       = 1 + List.length (flat_map records_of (visible 100 (search w)))
    /\ 0 < List.length (flat_map records_of (visible 100 (search w)))
    /\ tr = (fst (authenticate script_dir topic w)
             ++ SearchPosts SUBREDDITS topic 100
             :: map (fun s => ExpandComments (id s)) (visible 100 (search w))
             ++ [ ScoreComments
                    (List.length (flat_map records_of (visible 100 (search w))));
                  WriteCsv (path_of topic) ])%list.
Proof.
  intros Hrun. pose proof Hrun as Hrun'.
  rewrite unfold_run in Hrun'.
  destruct (fs !! path_of topic); [ discriminate | ]. cbv zeta in Hrun'.
  destruct (snd (authenticate script_dir topic w)); [ | discriminate ].
  destruct (snd (collect 100 (search w))) as [[posts [ | c coms]] | ] eqn:Hcoll;
    try discriminate.
  destruct (disk w); try discriminate.
  destruct (collect_shape 100 (search w)) as [_ Hs].
  destruct (Hs posts (c :: coms) Hcoll) as (E1 & _ & E3).
  pose proof (f_equal (fun x => fst (fst x)) Hrun') as Hfs.
  pose proof (f_equal (fun x => snd (fst x)) Hrun') as Htr.
  cbn [fst snd] in Hfs, Htr. subst fs1 tr.
  exists (artifact (c :: coms)).
  split; [ now rewrite lookup_insert_eq | ].
  rewrite (artifact_parses words_pt words_en polarity float_repr).
  rewrite <- E3, E1. cbn [List.length]. rewrite List.length_map.
  split; [ reflexivity | split; [ lia | ] ].
  now rewrite <- List.app_assoc.
Qed.

End DriverMore.

(* ===================================================================== *)
(** * 13. The further properties on the sample worlds                     *)
(* ===================================================================== *)

(** The characterisation of the collection on the search that yields one
    submission with one retained and one deleted comment. *)
Lemma collect_gathers_retained_comments_witness :
  snd (collect 100 (search Sample.fine))
  = Some ([post_of Sample.a_post],
          [CommentRecord "p1" "c1" "I love this game!!" 5 Sample.afternoon])
  /\ [CommentRecord "p1" "c1" "I love this game!!" 5 Sample.afternoon]
     = flat_map Collector.records_of (Collector.visible 100 (search Sample.fine)).
Proof.
  assert (H : snd (collect 100 (search Sample.fine))
              = Some ([post_of Sample.a_post],
                      [CommentRecord "p1" "c1" "I love this game!!" 5
                         Sample.afternoon]))
    by (vm_compute; reflexivity).
  split; [ exact H | ].
  exact (proj1 (collect_gathers_retained_comments 100 _ _ _ H)).
Defined.

(** The credentials theorem on a file of two lines. *)
Lemma credentials_need_four_lines_witness :
  Sample.run "Xbox Game Pass"
    (World (Some ["id"; "secret"]) true
       (Reddit.Yield Sample.a_post Reddit.Exhausted) Written)
    ∅
  = (∅, [OpenCredentials (credentials_path Sample.script_dir)],
     Returned AuthFailed).
Proof.
  refine (proj1 (credentials_need_four_lines
                   Corpus.portuguese Corpus.english Sample.polarity
                   Sample.float_repr Sample.script_dir "Xbox Game Pass"
                   (World (Some ["id"; "secret"]) true
                      (Reddit.Yield Sample.a_post Reddit.Exhausted) Written)
                   ∅ ["id"; "secret"] _ _) _).
  - apply lookup_empty.
  - reflexivity.
  - cbn [List.length]. lia.
Defined.

(** The preservation theorem on a disk that holds one unrelated file. *)
Lemma existing_files_are_never_modified_witness :
  (run_batch Corpus.portuguese Corpus.english Sample.polarity
     Sample.float_repr Sample.script_dir
     [("Xbox Game Pass", Sample.fine);
      ("Nintendo Switch Online", Sample.disk_full)]
     (<["/app/src/notes.txt" := "keep me"]> ∅)).1.1 !! "/app/src/notes.txt"
  = Some "keep me".
Proof.
  refine (proj1 (existing_files_are_never_modified
                   Corpus.portuguese Corpus.english Sample.polarity
                   Sample.float_repr Sample.script_dir
                   [("Xbox Game Pass", Sample.fine);
                    ("Nintendo Switch Online", Sample.disk_full)]
                   (<["/app/src/notes.txt" := "keep me"]> ∅)
                   "/app/src/notes.txt" "keep me" _)).
  apply lookup_insert_eq.
Defined.

(** The re-run theorem: a batch that persists, run again while the service
    is down. *)
Lemma batch_rerun_is_a_no_op_witness :
  run_batch Corpus.portuguese Corpus.english Sample.polarity
    Sample.float_repr Sample.script_dir
    [("Xbox Game Pass", Sample.service_down)]
    (run_batch Corpus.portuguese Corpus.english Sample.polarity
       Sample.float_repr Sample.script_dir
       [("Xbox Game Pass", Sample.fine)] ∅).1.1
  = ((run_batch Corpus.portuguese Corpus.english Sample.polarity
        Sample.float_repr Sample.script_dir
        [("Xbox Game Pass", Sample.fine)] ∅).1.1,
     [], [Returned Cached]).
Proof.
  assert (H : (run_batch Corpus.portuguese Corpus.english Sample.polarity
                 Sample.float_repr Sample.script_dir
                 [("Xbox Game Pass", Sample.fine)] ∅).2
              = [Returned Persisted]) by (vm_compute; reflexivity).
  refine (batch_rerun_is_a_no_op
            Corpus.portuguese Corpus.english Sample.polarity
            Sample.float_repr Sample.script_dir
            [("Xbox Game Pass", Sample.fine)]
            [("Xbox Game Pass", Sample.service_down)] ∅ _ _ _).
  - rewrite H. reflexivity.
  - rewrite H. repeat constructor.
  - reflexivity.
Defined.

(** The theorem on calls that do not reach the write, on a search that
    raises. *)
Lemma no_write_leaves_the_disk_alone_witness :
  (Sample.run "Xbox Game Pass" Sample.service_down ∅).1.1 = ∅.
Proof.
  assert (H : (Sample.run "Xbox Game Pass" Sample.service_down ∅).2
              = Raised CollectionError) by (vm_compute; reflexivity).
  refine (proj1 (proj1 (no_write_leaves_the_disk_alone
                   Corpus.portuguese Corpus.english Sample.polarity
                   Sample.float_repr Sample.script_dir
                   "Xbox Game Pass" Sample.service_down ∅) _ _)).
  - unfold Sample.run in H. rewrite H. discriminate.
  - unfold Sample.run in H. rewrite H. discriminate.
Defined.

(** The row-count theorem on the call that persists one comment. *)
Lemma artifact_row_count_witness :
  exists content,
    (Sample.run "Xbox Game Pass" Sample.fine ∅).1.1
      !! Sample.path_of "Xbox Game Pass" = Some content
    /\ List.length (Csv.parse ";" content) = 2.
Proof.
  assert (H : (Sample.run "Xbox Game Pass" Sample.fine ∅).2
              = Returned Persisted) by (vm_compute; reflexivity).
  destruct (artifact_row_count
              Corpus.portuguese Corpus.english Sample.polarity
              Sample.float_repr Sample.script_dir
              "Xbox Game Pass" Sample.fine ∅
              (Sample.run "Xbox Game Pass" Sample.fine ∅).1.1
              (Sample.run "Xbox Game Pass" Sample.fine ∅).1.2)
    as (content & Hc & Hn & _).
  - rewrite <- H. unfold Sample.run.
    now destruct (run_analysis_for_theme _ _ _ _ _ _ _ _) as [[fs1 tr1] o1].
  - exists content. split; [ exact Hc | ].
    rewrite Hn. vm_compute. reflexivity.
Defined.

(* ===================================================================== *)
(** * 14. Further properties of the normaliser                            *)
(* ===================================================================== *)

Section ShapeFacts.
Import Chars Tokens Normalizer Shape.

Ltac by_cases c :=
  destruct c as [[ | ] [ | ] [ | ] [ | ] [ | ] [ | ] [ | ] [ | ]];
  vm_compute; try reflexivity; try discriminate; auto.

Lemma solid_clean_is_output (c : ascii) :
  solid c = true -> clean_char c = true -> output_char c = true.
Proof. by_cases c. Qed.

Lemma output_char_is_plain (c : ascii) :
  output_char c = true -> negb (Csv.special Artifact.SEP c) = true.
Proof. by_cases c. Qed.

Lemma space_is_not_upper (c : ascii) : is_space c = true -> lower_char c = c.
Proof. by_cases c. Qed.

Lemma space_is_not_word (c : ascii) : is_space c = true -> is_word c = false.
Proof. by_cases c. Qed.

Lemma space_is_not_at (c : ascii) : is_space c = true -> Ascii.eqb c "@" = false.
Proof. by_cases c. Qed.

Lemma nonword_is_not_upper (c : ascii) :
  negb (is_word c) = true -> lower_char c = c.
Proof. by_cases c. Qed.

Lemma all_and (p q : ascii -> bool) (s : string) :
  Str.all p s = true -> Str.all q s = true ->
  Str.all (fun c => p c && q c) s = true.
Proof.
  induction s as [ | c s IH]; simpl; [ easy | ].
  intros [Hp Hps]%andb_prop [Hq Hqs]%andb_prop.
  now rewrite Hp, Hq, IH.
Qed.

Lemma lower_lower (s : string) : Str.lower (Str.lower s) = Str.lower s.
Proof. apply lower_fixed, lower_all. Qed.

Lemma lower_append (a b : string) :
  Str.lower (a +:+ b) = Str.lower a +:+ Str.lower b.
Proof.
  induction a as [ | d a IH]; [ now rewrite !append_nil_l | ].
  rewrite append_cons. cbn [Str.lower]. now rewrite append_cons, IH.
Qed.

Lemma keep_append (p : ascii -> bool) (a b : string) :
  Str.keep p (a +:+ b) = Str.keep p a +:+ Str.keep p b.
Proof.
  induction a as [ | d a IH]; [ now rewrite !append_nil_l | ].
  rewrite append_cons. cbn [Str.keep]. rewrite IH.
  destruct (p d); [ now rewrite append_cons | reflexivity ].
Qed.

Lemma split_blank (s : string) :
  Str.all is_space s = true -> Str.split s = [].
Proof.
  induction s as [ | c s IH]; simpl; [ easy | ].
  intros [Hc Hs]%andb_prop. rewrite Hc. now apply IH.
Qed.

(** ** What lies before a whitespace character is scanned on its own *)

Lemma nonspace_at_before_space (a b : string) (c : ascii) :
  is_space c = true ->
  Str.nonspace_at 0 (a +:+ String c b) = Str.nonspace_at 0 a.
Proof.
  intros Hc. destruct a as [ | d a].
  - rewrite append_nil_l. unfold Str.nonspace_at. cbn [String.get].
    now rewrite Hc.
  - now rewrite append_cons.
Qed.

Lemma literal_before_space (lit a b : string) (c : ascii) :
  is_space c = true -> Str.all solid lit = true ->
  String.prefix lit (a +:+ String c b)
    && Str.nonspace_at (String.length lit) (a +:+ String c b)
  = String.prefix lit a && Str.nonspace_at (String.length lit) a.
Proof.
  intros Hc. revert a. induction lit as [ | l lit IH]; intros a Hlit.
  - cbn [String.prefix String.length andb].
    destruct a; cbn [String.prefix];
      now rewrite nonspace_at_before_space.
  - cbn [Str.all] in Hlit. apply andb_prop in Hlit. destruct Hlit as [Hl Hlit].
    destruct a as [ | d a].
    + rewrite append_nil_l. cbn [String.prefix].
      destruct (ascii_dec l c) as [-> | Hne]; [ | reflexivity ].
      unfold solid in Hl. rewrite Hc in Hl. discriminate.
    + rewrite append_cons. cbn [String.prefix String.length].
      destruct (ascii_dec l d); [ | reflexivity ].
      unfold Str.nonspace_at in *. cbn [String.get].
      change (match String.length lit with
              | 0 => S (String.length lit)
              | S _ => S (String.length lit)
              end) with (S (String.length lit)).
      apply IH, Hlit.
Qed.

Lemma url_at_before_space (a b : string) (c : ascii) :
  is_space c = true -> url_at (a +:+ String c b) = url_at a.
Proof.
  intros Hc. unfold url_at.
  pose proof (literal_before_space "http" a b c Hc eq_refl) as H1.
  pose proof (literal_before_space "www" a b c Hc eq_refl) as H2.
  pose proof (literal_before_space "https" a b c Hc eq_refl) as H3.
  cbn [String.length] in H1, H2, H3. now rewrite H1, H2, H3.
Qed.

Lemma sub_urls_before_space (inside : bool) (a b : string) (c : ascii) :
  is_space c = true ->
  sub_urls inside (a +:+ String c b)
  = sub_urls inside a +:+ String c (sub_urls false b).
Proof.
  intros Hc. revert inside. induction a as [ | d a IH]; intros inside.
  - rewrite append_nil_l. cbn [sub_urls]. rewrite Hc.
    now rewrite append_nil_l.
  - rewrite append_cons. cbn [sub_urls].
    rewrite <- (append_cons d a (String c b)).
    rewrite (url_at_before_space (String d a) b c Hc).
    destruct (is_space d); [ now rewrite IH, append_cons | ].
    destruct inside; [ apply IH | ].
    destruct (url_at (String d a)); [ apply IH | ].
    now rewrite IH, append_cons.
Qed.

Lemma mention_at_before_space (a b : string) (c : ascii) :
  is_space c = true -> mention_at (a +:+ String c b) = mention_at a.
Proof.
  intros Hc. destruct a as [ | d [ | e a]].
  - rewrite append_nil_l. unfold mention_at.
    rewrite (space_is_not_at c Hc). now destruct b.
  - rewrite append_cons, append_nil_l. unfold mention_at.
    rewrite (space_is_not_word c Hc). apply andb_false_r.
  - now rewrite !append_cons.
Qed.

Lemma sub_mentions_before_space (inside : bool) (a b : string) (c : ascii) :
  is_space c = true ->
  sub_mentions inside (a +:+ String c b)
  = sub_mentions inside a +:+ String c (sub_mentions false b).
Proof.
  intros Hc. revert inside. induction a as [ | d a IH]; intros inside.
  - rewrite append_nil_l. cbn [sub_mentions].
    rewrite (space_is_not_word c Hc), andb_false_r.
    pose proof (mention_at_before_space EmptyString b c Hc) as Hm.
    rewrite append_nil_l in Hm. change (mention_at EmptyString) with false in Hm.
    now rewrite Hm, append_nil_l.
  - rewrite append_cons. cbn [sub_mentions].
    rewrite <- (append_cons d a (String c b)).
    rewrite (mention_at_before_space (String d a) b c Hc).
    destruct (inside && is_word d); [ apply IH | ].
    destruct (mention_at (String d a)); [ apply IH | ].
    now rewrite IH, append_cons.
Qed.

Lemma split_nonempty (s : string) :
  Str.nonspace_at 0 s = true -> Str.split s <> [].
Proof.
  destruct s as [ | c s]; [ discriminate | ].
  unfold Str.nonspace_at. cbn [String.get]. intros Hc.
  apply negb_true_iff in Hc. cbn [Str.split]. rewrite Hc.
  destruct (Str.nonspace_at 0 s); [ | discriminate ].
  destruct (Str.split s); discriminate.
Qed.

Lemma split_before_space (a b : string) (c : ascii) :
  is_space c = true ->
  Str.split (a +:+ String c b) = (Str.split a ++ Str.split b)%list.
Proof.
  intros Hc. induction a as [ | d a IH].
  - rewrite append_nil_l. cbn [Str.split]. now rewrite Hc.
  - rewrite append_cons. cbn [Str.split].
    rewrite (nonspace_at_before_space a b c Hc), IH.
    destruct (is_space d); [ reflexivity | ].
    destruct (Str.nonspace_at 0 a) eqn:Ha; [ | reflexivity ].
    apply split_nonempty in Ha.
    destruct (Str.split a); [ congruence | reflexivity ].
Qed.

Section WithStopWords.
Variables words_pt words_en : list string.

Local Abbreviation preprocess := (preprocess_text words_pt words_en).
Local Abbreviation tokens_of := (filtered_tokens words_pt words_en).

(** X8. Whatever the text, the output consists of lower-case word
    characters and the space U+0020 only: no punctuation, no capital, no tab
    or line break.  So it holds none of the characters that make the CSV
    writer quote a field, and the [cleaned_text] column is written as it
    is. *)
Theorem preprocess_text_output_alphabet (text : string) :
  Str.all output_char (preprocess text) = true
  /\ Csv.needs_quotes Artifact.SEP (preprocess text) = false
  /\ Csv.field Artifact.SEP (preprocess text) = preprocess text.
Proof.
  assert (H : Str.all output_char (preprocess text) = true).
  { unfold preprocess_text. apply all_join; [ reflexivity | ].
    pose proof (tokens_normal words_pt words_en text) as Hall.
    apply List.Forall_forall. intros t Ht.
    rewrite List.Forall_forall in Hall.
    destruct (Hall t Ht) as ([_ Hsolid] & Hclean & _).
    apply (all_impl (fun c => solid c && clean_char c)).
    - intros c [H1 H2]%andb_prop. now apply solid_clean_is_output.
    - now apply all_and. }
  assert (Hq : Csv.needs_quotes Artifact.SEP (preprocess text) = false).
  { unfold Csv.needs_quotes. apply negb_false_iff.
    apply (all_impl output_char); [ apply output_char_is_plain | exact H ]. }
  split; [ exact H | split; [ exact Hq | ] ].
  unfold Csv.field. now rewrite Hq.
Qed.

(** X9. The output does not depend on the case of the text: a text and its
    lower-case form have the same output, and so have two texts that differ
    in case only. *)
Theorem preprocess_text_ignores_case (x y : string) :
  preprocess (Str.lower x) = preprocess x
  /\ (Str.lower x = Str.lower y -> preprocess x = preprocess y).
Proof.
  unfold preprocess_text, filtered_tokens, cleaned. split.
  - now rewrite lower_lower.
  - now intros ->.
Qed.

(** X10. A text without a word character - the empty text, a blank one,
    punctuation only - has the empty output. *)
Theorem preprocess_text_of_wordless_text (text : string) :
  wordless text = true -> preprocess text = EmptyString.
Proof.
  unfold wordless. intros Hw.
  assert (Hlow : Str.lower text = text).
  { apply lower_fixed. apply (all_impl (fun c => negb (is_word c))); [ | exact Hw ].
    intros c Hc. unfold lowered. rewrite (nonword_is_not_upper c Hc).
    apply Ascii.eqb_refl. }
  unfold preprocess_text, filtered_tokens, cleaned, word_tokenize.
  rewrite Hlow, split_blank; [ reflexivity | ].
  unfold sub_punct.
  apply (all_impl (fun c => (is_word c || is_space c) && negb (is_word c))).
  - intros c [H1 H2]%andb_prop. apply negb_true_iff in H2.
    now rewrite H2 in H1.
  - apply all_and; [ apply keep_all | ].
    now apply all_keep, sub_mentions_all, sub_urls_all.
Qed.

(** X11. The function works on each whitespace-separated part on its own:
    the tokens of two texts joined by a whitespace character are the tokens
    of the first followed by the tokens of the second.  No URL or mention
    match reaches across whitespace. *)
Theorem preprocess_text_works_part_by_part (a b : string) (c : ascii) :
  is_space c = true ->
  tokens_of (a +:+ String c b) = (tokens_of a ++ tokens_of b)%list
  /\ preprocess (a +:+ String c b)
     = Str.join " " (tokens_of a ++ tokens_of b).
Proof.
  intros Hc.
  assert (H : tokens_of (a +:+ String c b) = (tokens_of a ++ tokens_of b)%list).
  { unfold filtered_tokens, cleaned, word_tokenize, sub_punct.
    rewrite lower_append. cbn [Str.lower].
    rewrite (space_is_not_upper c Hc).
    rewrite (sub_urls_before_space false _ _ c Hc).
    rewrite (sub_mentions_before_space false _ _ c Hc).
    rewrite keep_append. cbn [Str.keep]. rewrite Hc, orb_true_r.
    rewrite (split_before_space _ _ c Hc).
    now rewrite List.flat_map_app, List.filter_app. }
  split; [ exact H | ].
  unfold preprocess_text. now rewrite H.
Qed.

End WithStopWords.
End ShapeFacts.

(** The three theorems on sample texts. *)
Lemma preprocess_text_ignores_case_witness :
  Sample.preprocess_text "Great GAME" = Sample.preprocess_text "great game".
Proof.
  refine (proj2 (preprocess_text_ignores_case Corpus.portuguese Corpus.english
                   "Great GAME" "great game") _).
  vm_compute. reflexivity.
Defined.

Lemma preprocess_text_of_wordless_text_witness :
  Sample.preprocess_text "?! ... :-)" = EmptyString.
Proof.
  refine (preprocess_text_of_wordless_text Corpus.portuguese Corpus.english
            "?! ... :-)" _).
  vm_compute. reflexivity.
Defined.

Lemma preprocess_text_works_part_by_part_witness :
  Sample.preprocess_text
    ("Great game" +:+ String Csv.LF "see http://a.co/x")
  = Str.join " "
      (Normalizer.filtered_tokens Corpus.portuguese Corpus.english "Great game"
       ++ Normalizer.filtered_tokens Corpus.portuguese Corpus.english
            "see http://a.co/x").
Proof.
  refine (proj2 (preprocess_text_works_part_by_part
                   Corpus.portuguese Corpus.english
                   "Great game" "see http://a.co/x" Csv.LF _)).
  vm_compute. reflexivity.
Defined.

(* ===================================================================== *)
(** * 15. The classifier respects the order of the scores                 *)
(* ===================================================================== *)

Section OrderFacts.
Import Sentiment.
Open Scope float_scope.

Lemma SFleb_trans (a b c : spec_float) :
  SFleb a b = true -> SFleb b c = true -> SFleb a c = true.
Proof.
  unfold SFleb.
  destruct a as [sa | sa | | sa ma ea], b as [sb | sb | | sb mb eb],
           c as [sc | sc | | sc mc ec]; cbn;
    repeat match goal with s : bool |- _ => destruct s end;
    cbn; try congruence;
    repeat match goal with
           | |- context [Pos.compare_cont Eq ?p ?q] =>
               change (Pos.compare_cont Eq p q) with (p ?= q)%positive
           end;
    destruct (Z.compare_spec ea eb), (Z.compare_spec eb ec),
             (Z.compare_spec ea ec); cbn; try congruence; try lia;
    destruct (Pos.compare_spec ma mb), (Pos.compare_spec mb mc),
             (Pos.compare_spec ma mc); cbn; try congruence; try lia.
Qed.

Lemma leb_trans (x y z : float) :
  (x <=? y) = true -> (y <=? z) = true -> (x <=? z) = true.
Proof. rewrite !FloatAxioms.leb_spec. apply SFleb_trans. Qed.

Lemma leb_nan (x y : float) :
  is_nan x = true -> (x <=? y) = false /\ (y <=? x) = false.
Proof.
  intros Hx%is_nan_true. rewrite !FloatAxioms.leb_spec, Hx. unfold SFleb.
  split; [ reflexivity | now destruct (Prim2SF y) ].
Qed.

(** X12. The class follows the order of the scores: when [x <= y], a
    Positivo [x] makes [y] Positivo and a Negativo [y] makes [x] Negativo,
    so the class of the larger score is never the lower one.  A score that
    is not a number is Neutro. *)
Theorem classify_sentiment_monotone (x y : float) :
  ((x <=? y) = true ->
   (classify_sentiment x = "Positivo" -> classify_sentiment y = "Positivo")
   /\ (classify_sentiment y = "Negativo" -> classify_sentiment x = "Negativo"))
  /\ (is_nan x = true -> classify_sentiment x = "Neutro").
Proof.
  unfold classify_sentiment. split.
  - intros Hxy. split.
    + destruct (pos_threshold <=? x) eqn:Hx.
      * now rewrite (leb_trans _ _ _ Hx Hxy).
      * destruct (x <=? neg_threshold); discriminate.
    + destruct (pos_threshold <=? y) eqn:Hy; [ discriminate | ].
      destruct (y <=? neg_threshold) eqn:Hy'; [ intros _ | discriminate ].
      rewrite (leb_trans _ _ _ Hxy Hy').
      destruct (pos_threshold <=? x) eqn:Hx; [ | reflexivity ].
      apply thresholds_exclusive in Hx.
      rewrite (leb_trans _ _ _ Hxy Hy') in Hx. discriminate.
  - intros Hnan. destruct (leb_nan x pos_threshold Hnan) as [_ H1].
    destruct (leb_nan x neg_threshold Hnan) as [H2 _].
    now rewrite H1, H2.
Qed.

End OrderFacts.

(** The order theorem on two scores on the two sides of the upper
    threshold. *)
Lemma classify_sentiment_monotone_witness :
  Sentiment.classify_sentiment 0.7 = "Positivo".
Proof.
  refine (proj1 (proj1 (classify_sentiment_monotone 0.3 0.7) _) _).
  - vm_compute. reflexivity.
  - vm_compute. reflexivity.
Defined.

(* ===================================================================== *)
(** * 16. The set-up of the NLTK resources                                *)
(* ===================================================================== *)

Section NltkFacts.
Import Nltk.

Lemma lookups_spec (installed : string -> bool) (rs : list string) :
  (forallb installed rs = true
   /\ lookups installed rs = (map Find rs, true))
  \/ (exists before r after,
        rs = (before ++ r :: after)%list
        /\ forallb installed before = true /\ installed r = false
        /\ lookups installed rs = (map Find (before ++ [r]), false)).
Proof.
  induction rs as [ | r rs IH]; [ left; now split | ].
  cbn [lookups forallb]. destruct (installed r) eqn:Hr.
  - destruct IH as [[Hall Hl] | (before & r' & after & Hrs & Hb & Hr' & Hl)].
    + left. rewrite Hl. now split.
    + right. exists (r :: before), r', after. rewrite Hl, Hrs.
      cbn [forallb]. rewrite Hr, Hb. repeat split; assumption.
  - right. exists [], r, rs. repeat split; assumption.
Qed.

(** X13. [download_nltk_resources] downloads all or nothing.  When the four
    resources are installed it makes the four look-ups and no download.
    When one is missing, the look-ups end at the first missing resource and
    the four packages are downloaded, the installed ones included. *)
Theorem download_nltk_resources_all_or_nothing (installed : string -> bool) :
  (forallb installed resources = true ->
   download_nltk_resources installed = map Find resources)
  /\ (forallb installed resources = false ->
      downloads (download_nltk_resources installed) = packages
      /\ exists before r after,
           resources = (before ++ r :: after)%list
           /\ forallb installed before = true /\ installed r = false
           /\ download_nltk_resources installed
              = (map Find (before ++ [r]) ++ map Download packages)%list).
Proof.
  unfold download_nltk_resources.
  destruct (lookups_spec installed resources)
    as [[Hall Hl] | (before & r & after & Hrs & Hb & Hr & Hl)]; rewrite Hl.
  - split; [ reflexivity | ]. rewrite Hall. discriminate.
  - split.
    + intros Hall. rewrite Hrs, forallb_app in Hall. cbn [forallb] in Hall.
      rewrite Hb, Hr in Hall. discriminate.
    + intros _. split.
      * unfold downloads. rewrite List.flat_map_app.
        assert (Hf : forall l, flat_map
                       (fun c => match c with Download p => [p] | Find _ => [] end)
                       (map Find l) = [])
          by (induction l; [ reflexivity | assumption ]).
        rewrite Hf. reflexivity.
      * exists before, r, after. repeat split; assumption.
Qed.

End NltkFacts.

(** The theorem on an installation that lacks the VADER lexicon. *)
Lemma download_nltk_resources_all_or_nothing_witness :
  Nltk.downloads
    (Nltk.download_nltk_resources
       (fun r => negb (String.eqb r "sentiment/vader_lexicon")))
  = Nltk.packages.
Proof.
  refine (proj1 (proj2 (download_nltk_resources_all_or_nothing
                          (fun r => negb (String.eqb r "sentiment/vader_lexicon")))
                   _)).
  vm_compute. reflexivity.
Defined.

(* ===================================================================== *)
(** * 17. The date filter of the dashboard                                *)
(* ===================================================================== *)

Section DateFilterFacts.
Import Artifact Dashboard.

Lemma lex_leb_refl (a : list nat) : lex_leb a a = true.
Proof.
  induction a as [ | x a IH]; [ reflexivity | ].
  cbn [lex_leb]. now rewrite Nat.eqb_refl, IH, orb_true_r.
Qed.

Lemma lex_leb_total (a b : list nat) :
  List.length a = List.length b -> lex_leb a b = false -> lex_leb b a = true.
Proof.
  revert b. induction a as [ | x a IH]; intros [ | y b] Hlen; try discriminate.
  cbn [lex_leb List.length] in *.
  intros [Hlt H]%orb_false_elim.
  apply Nat.ltb_ge in Hlt.
  destruct (Nat.eqb x y) eqn:Hxy.
  - apply Nat.eqb_eq in Hxy. subst y. rewrite Nat.eqb_refl.
    cbn [andb] in H. rewrite (IH b) by (auto; lia). apply orb_true_r.
  - apply Nat.eqb_neq in Hxy.
    assert (Hyx : Nat.ltb y x = true) by (apply Nat.ltb_lt; lia).
    now rewrite Hyx.
Qed.

Lemma lex_leb_trans (a b c : list nat) :
  List.length a = List.length b -> List.length b = List.length c ->
  lex_leb a b = true -> lex_leb b c = true -> lex_leb a c = true.
Proof.
  revert b c. induction a as [ | x a IH]; intros [ | y b] [ | z c];
    try discriminate; try reflexivity.
  cbn [lex_leb List.length]. intros Hab Hbc H1 H2.
  apply orb_true_iff in H1. apply orb_true_iff in H2. apply orb_true_iff.
  destruct H1 as [H1 | [H1 H1']%andb_prop], H2 as [H2 | [H2 H2']%andb_prop];
    rewrite ?Nat.ltb_lt, ?Nat.eqb_eq in *.
  - left. lia.
  - left. lia.
  - left. lia.
  - right. apply andb_true_intro. split.
    + apply Nat.eqb_eq. lia.
    + apply (IH b c); auto; lia.
Qed.

Lemma leb_refl (t : datetime) : leb t t = true.
Proof. apply lex_leb_refl. Qed.

Lemma leb_total (a b : datetime) : leb a b = false -> leb b a = true.
Proof. now apply lex_leb_total. Qed.

Lemma leb_trans_dt (a b c : datetime) :
  leb a b = true -> leb b c = true -> leb a c = true.
Proof. now apply lex_leb_trans. Qed.

Lemma earlier_spec (a b : datetime) :
  leb (earlier a b) a = true /\ leb (earlier a b) b = true
  /\ (earlier a b = a \/ earlier a b = b).
Proof.
  unfold earlier. destruct (leb a b) eqn:H.
  - repeat split; auto using leb_refl.
  - repeat split; auto using leb_refl, leb_total.
Qed.

Lemma later_spec (a b : datetime) :
  leb a (later a b) = true /\ leb b (later a b) = true
  /\ (later a b = a \/ later a b = b).
Proof.
  unfold later. destruct (leb a b) eqn:H.
  - repeat split; auto using leb_refl.
  - repeat split; auto using leb_refl, leb_total.
Qed.

Lemma fold_earlier (ts : list datetime) (t : datetime) :
  Forall (fun u => leb (fold_left earlier ts t) u = true) (t :: ts)
  /\ In (fold_left earlier ts t) (t :: ts).
Proof.
  revert t. induction ts as [ | u ts IH]; intros t.
  - cbn [fold_left]. split; [ repeat constructor; apply leb_refl | now left ].
  - cbn [fold_left]. destruct (IH (earlier t u)) as [Hall Hin].
    destruct (earlier_spec t u) as (Ht & Hu & Hcase).
    apply Forall_cons_iff in Hall. destruct Hall as [Hm Hall].
    split.
    + constructor; [ exact (leb_trans_dt _ _ _ Hm Ht) | ].
      constructor; [ exact (leb_trans_dt _ _ _ Hm Hu) | exact Hall ].
    + destruct Hin as [Hin | Hin]; [ | right; now right ].
      rewrite <- Hin. destruct Hcase as [-> | ->];
        [ now left | right; now left ].
Qed.

Lemma fold_later (ts : list datetime) (t : datetime) :
  Forall (fun u => leb u (fold_left later ts t) = true) (t :: ts)
  /\ In (fold_left later ts t) (t :: ts).
Proof.
  revert t. induction ts as [ | u ts IH]; intros t.
  - cbn [fold_left]. split; [ repeat constructor; apply leb_refl | now left ].
  - cbn [fold_left]. destruct (IH (later t u)) as [Hall Hin].
    destruct (later_spec t u) as (Ht & Hu & Hcase).
    apply Forall_cons_iff in Hall. destruct Hall as [Hm Hall].
    split.
    + constructor; [ exact (leb_trans_dt _ _ _ Ht Hm) | ].
      constructor; [ exact (leb_trans_dt _ _ _ Hu Hm) | exact Hall ].
    + destruct Hin as [Hin | Hin]; [ | right; now right ].
      rewrite <- Hin. destruct Hcase as [-> | ->];
        [ now left | right; now left ].
Qed.

Lemma minimum_spec (col : list datetime) (m : datetime) :
  minimum col = Some m ->
  In m col /\ Forall (fun u => leb m u = true) col.
Proof.
  destruct col as [ | t ts]; [ discriminate | ].
  cbn [minimum]. intros [= <-].
  destruct (fold_earlier ts t) as [Hall Hin]. now split.
Qed.

Lemma maximum_spec (col : list datetime) (m : datetime) :
  maximum col = Some m ->
  In m col /\ Forall (fun u => leb u m = true) col.
Proof.
  destruct col as [ | t ts]; [ discriminate | ].
  cbn [maximum]. intros [= <-].
  destruct (fold_later ts t) as [Hall Hin]. now split.
Qed.

(** A midnight is the timestamp of its calendar date, and two midnights
    compare as their dates. *)
Lemma midnight_of_date (t : datetime) :
  to_datetime (date_of (normalize t)) = normalize t.
Proof. reflexivity. Qed.

Lemma leb_midnights (a b : datetime) :
  leb (normalize a) (normalize b) = date_leb (date_of a) (date_of b).
Proof.
  unfold leb, date_leb, fields, normalize, date_of.
  cbn [year month day hour minute second microsecond d_year d_month d_day].
  cbn [lex_leb].
  change (Nat.ltb 0 0) with false. change (Nat.eqb 0 0) with true.
  reflexivity.
Qed.

Lemma loaded_dates (frame : list row) (r : row) :
  In r (load_data frame) -> exists t, date r = normalize t.
Proof.
  unfold load_data. intros (r0 & <- & _)%List.in_map_iff.
  now exists (date r0).
Qed.

Lemma loaded_column (frame : list row) (t : datetime) :
  In t (map date (load_data frame)) -> exists u, t = normalize u.
Proof.
  intros (r & <- & Hr)%List.in_map_iff. now apply (loaded_dates frame).
Qed.

Lemma filter_keeps_all {A : Type} (f : A -> bool) (l : list A) :
  Forall (fun x => f x = true) l -> List.filter f l = l.
Proof.
  induction l as [ | x l IH]; [ reflexivity | ].
  intros [Hx Hl]%Forall_cons_iff. cbn [List.filter].
  now rewrite Hx, IH.
Qed.

(** X14. The date filter of the dashboard, on the frame that [load_data]
    returns.  With the range the page starts with, from the first to the
    last date of the data, no row is filtered out; while the input holds
    fewer than two dates nothing is filtered; a chosen range keeps exactly
    the rows whose calendar date lies in it, both ends included; and the
    filtered frame is never longer than the whole. *)
Theorem date_filter_keeps_the_days_in_range (frame : list row) :
  (forall lo hi : day_date,
     data_min (load_data frame) = Some lo ->
     data_max (load_data frame) = Some hi ->
     df_filtered [lo; hi] (load_data frame) = load_data frame)
  /\ (forall date_range : list day_date,
        List.length date_range <> 2 ->
        df_filtered date_range (load_data frame) = load_data frame)
  /\ (forall (start_date end_date : day_date) (r : row),
        In r (df_filtered [start_date; end_date] (load_data frame))
        <-> In r (load_data frame)
            /\ date_leb start_date (date_of (date r)) = true
            /\ date_leb (date_of (date r)) end_date = true)
  /\ (forall date_range : list day_date,
        List.length (df_filtered date_range (load_data frame))
        <= List.length (load_data frame)).
Proof.
  split; [ | split; [ | split ] ].
  - intros lo hi Hlo Hhi. unfold data_min, data_max in *.
    destruct (minimum (map date (load_data frame))) as [m | ] eqn:Hm;
      [ | discriminate ].
    destruct (maximum (map date (load_data frame))) as [M | ] eqn:HM;
      [ | discriminate ].
    cbn [option_map] in Hlo, Hhi.
    injection Hlo as <-. injection Hhi as <-.
    destruct (minimum_spec _ _ Hm) as [Hmin Hle].
    destruct (maximum_spec _ _ HM) as [Hmax Hge].
    destruct (loaded_column frame m Hmin) as [m0 ->].
    destruct (loaded_column frame M Hmax) as [M0 ->].
    cbn [df_filtered]. rewrite !midnight_of_date.
    apply filter_keeps_all. apply List.Forall_forall. intros r Hr.
    rewrite List.Forall_forall in Hle, Hge.
    assert (Hd : In (date r) (map date (load_data frame)))
      by now apply List.in_map.
    now rewrite (Hle _ Hd), (Hge _ Hd).
  - intros [ | a [ | b [ | c rest]]] Hlen; cbn [List.length] in Hlen;
      try reflexivity; lia.
  - intros s e r. cbn [df_filtered]. rewrite List.filter_In.
    split.
    + intros [Hr H]. destruct (loaded_dates frame r Hr) as [t Ht].
      apply andb_prop in H. destruct H as [H1 H2]. rewrite Ht in *.
      change (to_datetime s) with (normalize (to_datetime s)) in H1.
      change (to_datetime e) with (normalize (to_datetime e)) in H2.
      rewrite leb_midnights in H1, H2.
      split; [ exact Hr | ].
      split; [ exact H1 | exact H2 ].
    + intros (Hr & H1 & H2). split; [ exact Hr | ].
      destruct (loaded_dates frame r Hr) as [t Ht]. rewrite Ht in *.
      change (to_datetime s) with (normalize (to_datetime s)).
      change (to_datetime e) with (normalize (to_datetime e)).
      rewrite !leb_midnights.
      apply andb_true_intro. split; [ exact H1 | exact H2 ].
  - intros [ | a [ | b [ | c rest]]]; cbn [df_filtered]; try lia.
    apply List.filter_length_le.
Qed.

End DateFilterFacts.

(* ===================================================================== *)
(** * 18. The total shown by the dashboard                                *)
(* ===================================================================== *)

Section LabelFacts.
Import Artifact Dashboard.

(** ** The number of digits of a number *)

Lemma of_uint_cons (k : nat) (d : Decimal.uint) :
  Nat.of_uint_acc d k = Nat.of_uint d + k * 10 ^ DecimalNat.Unsigned.usize d.
Proof.
  unfold Nat.of_uint. rewrite !DecimalNat.Unsigned.of_uint_acc_spec. lia.
Qed.

Lemma of_uint_upper (d : Decimal.uint) :
  Nat.of_uint d < 10 ^ DecimalNat.Unsigned.usize d.
Proof.
  induction d; cbn [DecimalNat.Unsigned.usize]; rewrite ?Nat.pow_succ_r';
    [ cbn; lia | .. ];
    unfold Nat.of_uint; cbn [Nat.of_uint_acc];
    change (Nat.tail_mul 10 0) with 0;
    rewrite of_uint_cons; lia.
Qed.

Lemma of_uint_lower (d : Decimal.uint) :
  match d with
  | Decimal.Nil | Decimal.D0 _ => True
  | _ => 10 ^ (DecimalNat.Unsigned.usize d - 1) <= Nat.of_uint d
  end.
Proof.
  destruct d; try exact I;
    cbn [DecimalNat.Unsigned.usize]; rewrite Nat.sub_succ, Nat.sub_0_r;
    unfold Nat.of_uint; cbn [Nat.of_uint_acc];
    change (Nat.tail_mul 10 0) with 0;
    rewrite of_uint_cons; lia.
Qed.

Lemma nzhead_head (d : Decimal.uint) :
  match Decimal.nzhead d with Decimal.D0 _ => False | _ => True end.
Proof. induction d; cbn [Decimal.nzhead]; auto. Qed.

Lemma to_uint_head (n : nat) :
  Nat.to_uint n = Decimal.D0 Decimal.Nil
  \/ match Nat.to_uint n with
     | Decimal.Nil | Decimal.D0 _ => False
     | _ => True
     end.
Proof.
  rewrite <- (DecimalNat.Unsigned.of_to n) at 1 2. rewrite DecimalNat.Unsigned.to_of.
  unfold Decimal.unorm.
  pose proof (nzhead_head (Nat.to_uint n)) as H.
  destruct (Decimal.nzhead (Nat.to_uint n)); auto.
Qed.

Lemma string_of_uint_length (d : Decimal.uint) :
  String.length (NilEmpty.string_of_uint d) = DecimalNat.Unsigned.usize d.
Proof.
  induction d; cbn [NilEmpty.string_of_uint DecimalNat.Unsigned.usize String.length];
    congruence.
Qed.

Lemma digits_length (n : nat) :
  String.length (digits n) = DecimalNat.Unsigned.usize (Nat.to_uint n)
  /\ 0 < String.length (digits n).
Proof.
  unfold digits, NilZero.string_of_uint.
  destruct (to_uint_head n) as [-> | H]; [ cbn; lia | ].
  destruct (Nat.to_uint n) eqn:E; try contradiction;
    rewrite string_of_uint_length; cbn [DecimalNat.Unsigned.usize]; lia.
Qed.

(** A number has more than [k] digits exactly when it is at least
    [10 ^ k]. *)
Lemma digits_length_bound (n k : nat) :
  0 < k -> Nat.ltb k (String.length (digits n)) = Nat.leb (10 ^ k) n.
Proof.
  intros Hk. destruct (digits_length n) as [Hlen Hpos]. rewrite Hlen in *.
  pose proof (of_uint_upper (Nat.to_uint n)) as Hup.
  pose proof (of_uint_lower (Nat.to_uint n)) as Hlow.
  rewrite DecimalNat.Unsigned.of_to in Hup, Hlow.
  destruct (Nat.leb_spec (10 ^ k) n) as [Hn | Hn].
  - apply Nat.ltb_lt. apply (Nat.pow_lt_mono_r_iff 10); lia.
  - apply Nat.ltb_ge.
    destruct (to_uint_head n) as [E | H]; [ rewrite E; cbn; lia | ].
    destruct (Nat.le_gt_cases (DecimalNat.Unsigned.usize (Nat.to_uint n)) k) as [ | Hgt];
      [ assumption | exfalso ].
    assert (Hpow : 10 ^ k <= 10 ^ (DecimalNat.Unsigned.usize (Nat.to_uint n) - 1))
      by (apply Nat.pow_le_mono_r; lia).
    destruct (Nat.to_uint n); try contradiction; lia.
Qed.

(** ** Separators *)

Lemma has_count (c : ascii) (s : string) :
  Str.has c s = Nat.ltb 0 (count c s).
Proof.
  induction s as [ | d s IH]; [ reflexivity | ].
  cbn [Str.has count]. rewrite IH.
  destruct (Ascii.eqb c d); [ reflexivity | ]. cbn [orb]. now rewrite Nat.add_0_l.
Qed.

Lemma digit_is_no_separator (c d : ascii) :
  date_char d = true -> c = "."%char \/ c = ","%char -> Ascii.eqb c d = false.
Proof.
  intros Hd [-> | ->];
    destruct d as [[ | ] [ | ] [ | ] [ | ] [ | ] [ | ] [ | ] [ | ]];
    vm_compute in Hd |- *; congruence.
Qed.

Lemma digits_plain (n : nat) (c : ascii) :
  c = "."%char \/ c = ","%char -> Str.has c (digits n) = false.
Proof.
  intros Hc. apply (all_has date_char).
  - intros d Hd. now apply digit_is_no_separator.
  - apply digits_are_digits.
Qed.

Lemma separator_due_count (k : nat) :
  (if separator_due k then 1 else 0) + (k - 1) / 3 = k / 3.
Proof.
  unfold separator_due.
  destruct k as [ | j]; [ reflexivity | ].
  rewrite Nat.sub_succ, Nat.sub_0_r. cbn [Nat.ltb Nat.leb andb].
  pose proof (Nat.div_mod_eq j 3). pose proof (Nat.div_mod_eq (S j) 3).
  pose proof (Nat.mod_upper_bound j 3). pose proof (Nat.mod_upper_bound (S j) 3).
  destruct (Nat.eqb_spec (S j mod 3) 0) as [H' | H']; lia.
Qed.

Lemma count_group (s : string) :
  Str.has "," s = false ->
  count "," (group s) = (String.length s - 1) / 3
  /\ count "." (group s) = count "." s.
Proof.
  induction s as [ | c s IH]; [ now split | ].
  cbn [Str.has]. intros [Hc Hs]%orb_false_elim.
  destruct (IH Hs) as [IH1 IH2].
  cbn [group count String.length]. rewrite Hc, Nat.sub_succ, Nat.sub_0_r.
  rewrite <- (separator_due_count (String.length s)).
  destruct (separator_due (String.length s)); cbn [count];
    rewrite ?Ascii.eqb_refl, IH1, IH2;
    change (Ascii.eqb "." ",") with false; split; lia.
Qed.

Lemma replace_back (a b : ascii) (s : string) :
  Str.has b s = false ->
  Str.replace b (String a EmptyString)
    (Str.replace a (String b EmptyString) s) = s.
Proof.
  induction s as [ | d s IH]; [ reflexivity | ].
  cbn [Str.has]. intros [Hd Hs]%orb_false_elim.
  cbn [Str.replace]. destruct (Ascii.eqb d a) eqn:Hda.
  - apply Ascii.eqb_eq in Hda. subst d.
    rewrite append_cons, append_nil_l. cbn [Str.replace].
    rewrite Ascii.eqb_refl, append_cons, append_nil_l. now rewrite IH.
  - cbn [Str.replace]. rewrite Ascii.eqb_sym, Hd. now rewrite IH.
Qed.

Lemma count_replace_first (old new : ascii) (s : string) :
  old <> new ->
  count old (replace_first old new s) = count old s - 1
  /\ count new (replace_first old new s)
     = count new s + (if Nat.ltb 0 (count old s) then 1 else 0).
Proof.
  intros Hne. induction s as [ | d s [IH1 IH2]]; [ now split | ].
  cbn [replace_first count].
  destruct (Ascii.eqb d old) eqn:Hd.
  - apply Ascii.eqb_eq in Hd. subst d. cbn [count].
    rewrite !Ascii.eqb_refl.
    apply Ascii.eqb_neq in Hne. rewrite Hne.
    rewrite Ascii.eqb_sym, Hne. cbn [Nat.ltb Nat.leb Nat.add]. split; lia.
  - cbn [count]. rewrite Ascii.eqb_sym, Hd, IH1, IH2. cbn [Nat.add].
    destruct (Ascii.eqb new d); split; lia.
Qed.

(** X15. The total of the dashboard, [f"{n:,}"] after the three
    [replace] calls: the first two cancel, so only the first comma of the
    grouped number becomes a dot.  Up to 999999 the groups are separated by
    dots; from a million on the second and later separators stay commas.
    There is never more than one dot. *)
Theorem total_label_separators (n : nat) :
  total_label n = replace_first "," "." (commas n)
  /\ Str.has "." (total_label n) = Nat.leb (10 ^ 3) n
  /\ Str.has "," (total_label n) = Nat.leb (10 ^ 6) n
  /\ count "." (total_label n) <= 1
  /\ count "," (total_label n) = (String.length (digits n) - 1) / 3 - 1.
Proof.
  assert (Hdot : Str.has "." (commas n) = false).
  { unfold commas. rewrite has_count.
    destruct (count_group (digits n)) as [_ ->];
      [ apply digits_plain; now right | ].
    rewrite <- has_count. apply digits_plain. now left. }
  assert (E : total_label n = replace_first "," "." (commas n)).
  { unfold total_label. now rewrite replace_back. }
  destruct (count_group (digits n)) as [Hc Hd];
    [ apply digits_plain; now right | ].
  fold (commas n) in Hc, Hd.
  assert (Hd0 : count "." (commas n) = 0).
  { rewrite Hd. pose proof (digits_plain n "." (or_introl eq_refl)) as H.
    rewrite has_count in H. apply Nat.ltb_ge in H. lia. }
  destruct (count_replace_first "," "." (commas n)) as [H1 H2];
    [ discriminate | ].
  rewrite <- E in H1, H2. rewrite Hc in H1. rewrite Hd0, Hc in H2.
  split; [ exact E | ].
  rewrite <- (digits_length_bound n 3), <- (digits_length_bound n 6) by lia.
  rewrite !has_count, H1, H2.
  destruct (digits_length n) as [_ Hpos].
  pose proof (Nat.div_mod_eq (String.length (digits n) - 1) 3) as Hq.
  pose proof (Nat.mod_upper_bound (String.length (digits n) - 1) 3) as Hr.
  repeat split.
  - destruct (Nat.ltb_spec 0 ((String.length (digits n) - 1) / 3)) as [H | H];
      destruct (Nat.ltb_spec 3 (String.length (digits n))) as [H' | H'];
      try reflexivity; lia.
  - destruct (Nat.ltb_spec 0 ((String.length (digits n) - 1) / 3 - 1)) as [H | H];
      destruct (Nat.ltb_spec 6 (String.length (digits n))) as [H' | H'];
      try reflexivity; lia.
  - destruct (Nat.ltb 0 ((String.length (digits n) - 1) / 3)); lia.
Qed.

End LabelFacts.

(* ===================================================================== *)
(** * 19. Where the dashboard looks for the artifact                      *)
(* ===================================================================== *)

Section LocationFacts.
Import Pipeline Posix.

Lemma has_append (c : ascii) (a b : string) :
  Str.has c (a +:+ b) = Str.has c a || Str.has c b.
Proof.
  induction a as [ | d a IH]; [ now rewrite append_nil_l | ].
  rewrite append_cons. cbn [Str.has]. now rewrite IH, orb_assoc.
Qed.

Lemma has_delete_other (old c : ascii) (s : string) :
  c <> old -> Str.has c (Str.replace old EmptyString s) = Str.has c s.
Proof.
  intros Hne. induction s as [ | d s IH]; [ reflexivity | ].
  cbn [Str.replace Str.has]. destruct (Ascii.eqb d old) eqn:Hd.
  - apply Ascii.eqb_eq in Hd. subst d. rewrite append_nil_l, IH.
    apply Ascii.eqb_neq in Hne. now rewrite Hne.
  - cbn [Str.has]. now rewrite IH.
Qed.

Lemma slashed_app (xs ys : list string) :
  slashed (xs ++ ys) = slashed xs +:+ slashed ys.
Proof.
  induction xs as [ | x xs IH]; [ now rewrite append_nil_l | ].
  cbn [app slashed]. now rewrite IH, !append_assoc.
Qed.

Lemma absolute_slashed (xs : list string) :
  xs <> [] -> absolute xs = slashed xs.
Proof.
  unfold absolute, Str.join.
  induction xs as [ | x [ | y r] IH]; intros Hne; [ congruence | | ].
  - cbn [String.concat slashed]. now rewrite append_nil_r.
  - cbn [slashed] in *. rewrite <- IH by discriminate. reflexivity.
Qed.

Lemma last_char_append (a b : string) :
  last_char (a +:+ b)
  = match last_char b with Some d => Some d | None => last_char a end.
Proof.
  induction a as [ | c a IH]; [ rewrite append_nil_l; now destruct (last_char b) | ].
  rewrite append_cons. cbn [last_char]. rewrite IH.
  now destruct (last_char b).
Qed.

Lemma get_last (s : string) :
  String.get (String.length s - 1) s = last_char s.
Proof.
  induction s as [ | c s IH]; [ reflexivity | ].
  cbn [String.length last_char]. rewrite Nat.sub_succ, Nat.sub_0_r.
  destruct s as [ | d s]; [ reflexivity | ].
  cbn [String.length String.get] in *.
  rewrite Nat.sub_succ, Nat.sub_0_r in IH. rewrite IH.
  cbn [last_char]. now destruct (last_char s).
Qed.

Lemma ends_with_slash_last (s : string) :
  ends_with_slash s
  = match last_char s with Some c => Ascii.eqb c "/" | None => false end.
Proof. unfold ends_with_slash. now rewrite get_last. Qed.

Lemma name_parts (x : string) :
  name x = true ->
  exists c r, x = String c r /\ Ascii.eqb "/" c = false
              /\ Str.has "/" r = false.
Proof.
  unfold name. destruct x as [ | c r]; [ discriminate | ].
  cbn [String.eqb negb andb Str.has]. intros H%negb_true_iff.
  apply orb_false_elim in H. destruct H as [Hc Hr]. now exists c, r.
Qed.

Lemma last_char_plain (s : string) :
  Str.has "/" s = false ->
  match last_char s with Some d => Ascii.eqb d "/" = false | None => True end.
Proof.
  induction s as [ | c s IH]; [ easy | ].
  cbn [Str.has last_char]. intros [Hc Hs]%orb_false_elim.
  specialize (IH Hs). destruct (last_char s); [ exact IH | ].
  now rewrite Ascii.eqb_sym.
Qed.

Lemma last_char_name (x : string) :
  name x = true ->
  exists d, last_char x = Some d /\ Ascii.eqb d "/" = false.
Proof.
  intros Hx. destruct (name_parts x Hx) as (c & r & -> & Hc & Hr).
  pose proof (last_char_plain (String c r)) as H.
  cbn [Str.has] in H. rewrite Hc, Hr in H. specialize (H eq_refl).
  cbn [last_char] in *. destruct (last_char r) as [d | ]; eauto.
Qed.

Lemma last_char_slashed (xs : list string) :
  forallb name xs = true ->
  match last_char (slashed xs) with
  | Some d => Ascii.eqb d "/" = false
  | None => xs = []
  end.
Proof.
  induction xs as [ | x xs IH]; [ reflexivity | ].
  cbn [forallb]. intros [Hx Hxs]%andb_prop. specialize (IH Hxs).
  cbn [slashed]. rewrite !last_char_append.
  destruct (last_char (slashed xs)) as [d | ]; [ exact IH | ].
  destruct (last_char_name x Hx) as (d & -> & Hd). exact Hd.
Qed.

Lemma name_not_rooted (b : string) :
  name b = true -> String.prefix "/" b = false.
Proof.
  intros Hb. destruct (name_parts b Hb) as (c & r & -> & Hc & _).
  cbn [String.prefix]. destruct (ascii_dec "/" c) as [<- | ]; [ | reflexivity ].
  discriminate.
Qed.

(** Joining a component to an absolute path. *)
Lemma path_join_absolute (xs : list string) (b : string) :
  forallb name xs = true -> name b = true ->
  path_join (absolute xs) b = absolute (xs ++ [b]).
Proof.
  intros Hxs Hb. unfold path_join. rewrite (name_not_rooted b Hb).
  destruct xs as [ | x xs].
  - unfold absolute, Str.join. cbn [app String.concat].
    rewrite append_nil_r. reflexivity.
  - rewrite !absolute_slashed by (try discriminate; now destruct xs).
    rewrite ends_with_slash_last.
    pose proof (last_char_slashed (x :: xs) Hxs) as Hl.
    destruct (last_char (slashed (x :: xs))) as [d | ]; [ | discriminate ].
    rewrite Hl. cbn [slashed]. rewrite !append_cons, append_nil_l.
    cbn [String.eqb orb].
    rewrite <- !append_cons.
    change (String "/" (x +:+ slashed xs)) with ("/" +:+ x +:+ slashed xs).
    change ("/" +:+ x +:+ slashed xs) with (slashed (x :: xs)).
    change ((x :: xs) ++ [b])%list with (x :: (xs ++ [b]))%list.
    rewrite app_comm_cons, slashed_app. cbn [slashed].
    now rewrite append_nil_r.
Qed.

(** Splitting an absolute path. *)
Lemma pieces_plain (x rest : string) :
  Str.has "/" x = false ->
  pieces "/" (x +:+ rest)
  = (x +:+ fst (pieces "/" rest), snd (pieces "/" rest)).
Proof.
  induction x as [ | c x IH]; intros Hx.
  - rewrite !append_nil_l. now destruct (pieces "/" rest).
  - cbn [Str.has] in Hx. apply orb_false_elim in Hx. destruct Hx as [Hc Hx].
    rewrite !append_cons. cbn [pieces]. rewrite (IH Hx).
    rewrite Ascii.eqb_sym, Hc. reflexivity.
Qed.

Lemma pieces_slashed (xs : list string) (x : string) :
  forallb name xs = true -> Str.has "/" x = false ->
  pieces "/" (x +:+ slashed xs) = (x, xs).
Proof.
  revert x. induction xs as [ | y xs IH]; intros x Hxs Hx.
  - cbn [slashed]. rewrite pieces_plain by assumption.
    cbn [pieces fst snd]. now rewrite append_nil_r.
  - cbn [forallb] in Hxs. apply andb_prop in Hxs. destruct Hxs as [Hy Hxs].
    destruct (name_parts y Hy) as (c & r & Ey & Hc & Hr).
    assert (Hy' : Str.has "/" y = false)
      by (rewrite Ey; cbn [Str.has]; now rewrite Hc, Hr).
    rewrite pieces_plain by assumption.
    cbn [slashed]. rewrite append_cons, append_nil_l. cbn [pieces].
    rewrite (IH y Hxs Hy'). rewrite Ascii.eqb_refl. cbn [fst snd].
    now rewrite append_nil_r.
Qed.

Lemma split_on_slashed (xs : list string) :
  forallb name xs = true -> split_on "/" (slashed xs) = EmptyString :: xs.
Proof.
  intros Hxs. unfold split_on.
  rewrite <- (append_nil_l (slashed xs)).
  now rewrite (pieces_slashed xs EmptyString Hxs eq_refl).
Qed.

(** What [normpath] does with the components. *)
Lemma step_proper (initial : nat) (acc : list string) (x : string) :
  proper x = true -> step initial acc x = (acc ++ [x])%list.
Proof.
  unfold proper, name, step.
  intros [[[H1 _]%andb_prop H2]%andb_prop H3]%andb_prop.
  apply negb_true_iff in H1, H2, H3. now rewrite H1, H2, H3.
Qed.

Lemma fold_proper (initial : nat) (xs acc : list string) :
  forallb proper xs = true ->
  fold_left (step initial) xs acc = (acc ++ xs)%list.
Proof.
  revert acc. induction xs as [ | x xs IH]; intros acc Hxs.
  - cbn [fold_left]. now rewrite app_nil_r.
  - cbn [forallb] in Hxs. apply andb_prop in Hxs. destruct Hxs as [Hx Hxs].
    cbn [fold_left]. rewrite (step_proper _ _ _ Hx), (IH _ Hxs).
    now rewrite <- List.app_assoc.
Qed.

Lemma last_proper (acc : list string) :
  forallb proper acc = true ->
  negb (is_nil acc) && String.eqb (List.last acc EmptyString) ".." = false.
Proof.
  intros Hacc. destruct acc as [ | a acc]; [ reflexivity | ].
  cbn [is_nil negb andb].
  assert (Hin : In (List.last (a :: acc) EmptyString) (a :: acc)).
  { destruct (List.exists_last (l := a :: acc)) as (l' & z & E);
      [ discriminate | ].
    rewrite E, List.last_last. apply List.in_or_app. right. now left. }
  rewrite List.forallb_forall in Hacc. specialize (Hacc _ Hin).
  unfold proper in Hacc. apply andb_prop in Hacc. destruct Hacc as [_ H].
  now apply negb_true_iff in H.
Qed.

Lemma step_parent (acc : list string) :
  forallb proper acc = true -> step 1 acc ".." = List.removelast acc.
Proof.
  intros Hacc. unfold step.
  change (String.eqb ".." EmptyString || String.eqb ".." ".") with false.
  change (negb (String.eqb ".." "..")) with false.
  cbn [Nat.eqb andb orb]. now rewrite (last_proper acc Hacc).
Qed.

Lemma proper_is_name (xs : list string) :
  forallb proper xs = true -> forallb name xs = true.
Proof.
  rewrite !List.forallb_forall. intros H x Hx. specialize (H x Hx).
  unfold proper in H. now apply andb_prop in H as [[H _]%andb_prop _].
Qed.

Lemma slashed_rooted (x : string) (xs : list string) :
  name x = true ->
  exists c r, slashed (x :: xs) = String "/" (String c r)
              /\ Ascii.eqb "/" c = false.
Proof.
  intros Hx. destruct (name_parts x Hx) as (c & r & -> & Hc & _).
  exists c, (r +:+ slashed xs). cbn [slashed].
  now rewrite !append_cons, append_nil_l.
Qed.

Lemma normpath_parent (comps : list string) (a b : string) :
  forallb proper comps = true -> proper a = true -> proper b = true ->
  normpath (absolute (comps ++ [".."; a; b]))
  = absolute (List.removelast comps ++ [a; b]).
Proof.
  intros Hcomps Ha Hb.
  assert (Hnames : forallb name (comps ++ [".."; a; b]) = true).
  { rewrite forallb_app, (proper_is_name comps Hcomps).
    apply (proper_is_name [a; b]). cbn [forallb]. now rewrite Ha, Hb. }
  assert (Hne : (comps ++ [".."; a; b])%list <> [])
    by (destruct comps; discriminate).
  rewrite (absolute_slashed _ Hne).
  destruct (comps ++ [".."; a; b])%list as [ | x xs] eqn:E; [ congruence | ].
  assert (Hx : name x = true)
    by (cbn [forallb] in Hnames; now apply andb_prop in Hnames).
  destruct (slashed_rooted x xs Hx) as (c & r & Es & Hc).
  unfold normpath, initial_slashes.
  rewrite (split_on_slashed (x :: xs) Hnames), Es, <- E.
  cbn [String.eqb String.prefix].
  destruct (ascii_dec "/" "/") as [_ | Hn]; [ | congruence ].
  destruct (ascii_dec "/" c) as [<- | _]; [ discriminate | ].
  cbn [andb repeat String.concat fold_left].
  change (step 1 [] EmptyString) with (@nil string).
  rewrite List.fold_left_app, (fold_proper 1 comps [] Hcomps).
  cbn [app fold_left].
  rewrite (step_parent comps Hcomps).
  rewrite (step_proper 1 _ a Ha), (step_proper 1 _ b Hb).
  rewrite <- List.app_assoc. cbn [app].
  fold (absolute (List.removelast comps ++ [a; b])).
  unfold absolute at 1. rewrite append_cons, append_nil_l.
  reflexivity.
Qed.

(** [dirname] of an absolute path drops the last component. *)
Lemma head_of_app (a x : string) :
  Str.has "/" x = false -> head_of (a +:+ String "/" x) = a +:+ "/".
Proof.
  intros Hx. induction a as [ | c a IH].
  - rewrite !append_nil_l. cbn [head_of]. now rewrite Hx.
  - rewrite !append_cons. cbn [head_of]. rewrite has_append.
    cbn [Str.has]. rewrite Ascii.eqb_refl, orb_true_r. now rewrite IH.
Qed.

Lemma rstrip_slashes_fixed (s : string) :
  match last_char s with Some d => Ascii.eqb d "/" = false | None => True end ->
  rstrip_slashes s = s.
Proof.
  induction s as [ | c s IH]; [ reflexivity | ].
  cbn [last_char rstrip_slashes].
  destruct (last_char s) as [d | ] eqn:El.
  - intros Hd. rewrite (IH Hd). destruct s; [ discriminate | reflexivity ].
  - intros Hc. destruct s; [ | cbn [last_char] in El;
                                destruct (last_char s); discriminate ].
    cbn [rstrip_slashes]. now rewrite Hc.
Qed.

Lemma rstrip_slashes_app (s : string) :
  rstrip_slashes (s +:+ "/") = rstrip_slashes s.
Proof.
  induction s as [ | c s IH]; [ reflexivity | ].
  rewrite append_cons. cbn [rstrip_slashes]. now rewrite IH.
Qed.

Lemma dirname_absolute (comps : list string) :
  forallb name comps = true ->
  dirname (absolute comps) = absolute (List.removelast comps).
Proof.
  intros Hcomps.
  destruct comps as [ | x0 xs0] eqn:E0; [ reflexivity | ]. rewrite <- E0 in *.
  destruct (List.exists_last (l := comps)) as (ys & x & E);
    [ rewrite E0; discriminate | ].
  rewrite E in *. clear E E0 x0 xs0 comps.
  rewrite List.removelast_last.
  rewrite forallb_app in Hcomps. apply andb_prop in Hcomps.
  destruct Hcomps as [Hys Hx]. cbn [forallb] in Hx. rewrite andb_true_r in Hx.
  destruct (name_parts x Hx) as (c & r & Ex & Hc & Hr).
  assert (Hx' : Str.has "/" x = false)
    by (rewrite Ex; cbn [Str.has]; now rewrite Hc, Hr).
  rewrite absolute_slashed by (destruct ys; discriminate).
  rewrite slashed_app. cbn [slashed].
  rewrite append_nil_r, append_cons, append_nil_l.
  unfold dirname. rewrite (head_of_app _ x Hx').
  destruct ys as [ | y ys].
  - reflexivity.
  - destruct (slashed_rooted y ys) as (c' & r' & Es & Hc');
      [ cbn [forallb] in Hys; now apply andb_prop in Hys | ].
    rewrite Es. rewrite !append_cons. cbn [String.eqb negb andb Str.all].
    rewrite Ascii.eqb_refl, Hc'. cbn [andb negb].
    rewrite <- !append_cons, <- Es.
    rewrite rstrip_slashes_app.
    rewrite absolute_slashed by discriminate.
    apply rstrip_slashes_fixed.
    pose proof (last_char_slashed (y :: ys) Hys) as Hl.
    destruct (last_char (slashed (y :: ys))); [ exact Hl | exact I ].
Qed.

Lemma removelast_names (xs : list string) :
  forallb name xs = true -> forallb name (List.removelast xs) = true.
Proof.
  destruct xs as [ | x0 xs0] eqn:E0; [ reflexivity | ]. rewrite <- E0.
  destruct (List.exists_last (l := xs)) as (ys & x & ->);
    [ rewrite E0; discriminate | ].
  rewrite List.removelast_last, forallb_app. now intros [H _]%andb_prop.
Qed.

Lemma file_name_proper (topic : string) :
  Str.has "/" topic = false -> proper (data_file_name topic) = true.
Proof.
  intros Ht. unfold proper, name, data_file_name.
  assert (Hs : Str.has "/" (safe_term topic) = false).
  { unfold safe_term.
    rewrite !has_delete_other by discriminate.
    now rewrite has_replace_other by discriminate. }
  rewrite !has_append, Hs.
  change (Str.has "/" "reddit_") with false.
  change (Str.has "/" "_analisado.csv") with false.
  rewrite !append_cons. reflexivity.
Qed.

(** X16. The dashboard looks for the artifact where the collector writes
    it.  When the directory of the two scripts is an absolute path in
    normal form, as [os.path.abspath] returns it, and the topic holds no
    slash, the path that [load_data] opens is the normal form of the path
    that [run_analysis_for_theme] writes to; both programs derive the same
    file name from a topic, and the dashboard offers the topics that the
    collector runs. *)
Theorem dashboard_reads_where_the_collector_writes
    (script_dir topic : string) (comps : list string) :
  script_dir = absolute comps ->
  forallb proper comps = true ->
  Str.has "/" topic = false ->
  normpath (full_file_path script_dir topic)
  = Dashboard.absolute_file_path script_dir (Dashboard.data_file_name topic)
  /\ Dashboard.data_file_name topic = data_file_name topic
  /\ Dashboard.AVAILABLE_THEMES = temas_para_analisar.
Proof.
  intros -> Hcomps Ht.
  split; [ | split; reflexivity ].
  change (Dashboard.data_file_name topic) with (data_file_name topic).
  pose proof (file_name_proper topic Ht) as Hf.
  pose proof (proper_is_name comps Hcomps) as Hnames.
  assert (Hfn : name (data_file_name topic) = true).
  { pose proof Hf as H. unfold proper in H.
    now apply andb_prop in H as [[H _]%andb_prop _]. }
  unfold full_file_path, DATA_DIR, Dashboard.absolute_file_path.
  rewrite (path_join_absolute comps "..") by (auto; reflexivity).
  rewrite (path_join_absolute (comps ++ [".."]) "Data");
    [ | rewrite forallb_app, Hnames; reflexivity | reflexivity ].
  rewrite (path_join_absolute ((comps ++ [".."]) ++ ["Data"]));
    [ | rewrite !forallb_app, Hnames; reflexivity | exact Hfn ].
  rewrite <- !List.app_assoc. cbn [app].
  rewrite (normpath_parent comps "Data" _ Hcomps eq_refl Hf).
  rewrite (dirname_absolute comps Hnames).
  pose proof (removelast_names comps Hnames) as Hrem.
  rewrite (path_join_absolute (List.removelast comps) "Data" Hrem eq_refl).
  rewrite (path_join_absolute (List.removelast comps ++ ["Data"]));
    [ | rewrite forallb_app, Hrem; reflexivity | exact Hfn ].
  now rewrite <- List.app_assoc.
Qed.

End LocationFacts.

(* ===================================================================== *)
(** * 20. The sanitised topic                                             *)
(* ===================================================================== *)

Section SafeTermFacts.
Import Pipeline.

Lemma delete_removes (old : ascii) (s : string) :
  Str.has old (Str.replace old EmptyString s) = false.
Proof.
  induction s as [ | c s IH]; [ reflexivity | ].
  cbn [Str.replace]. destruct (Ascii.eqb c old) eqn:Hc.
  - now rewrite append_nil_l.
  - cbn [Str.has]. now rewrite Ascii.eqb_sym, Hc, IH.
Qed.

Lemma delete_length (old : ascii) (s : string) :
  String.length (Str.replace old EmptyString s) <= String.length s.
Proof.
  induction s as [ | c s IH]; [ reflexivity | ].
  cbn [Str.replace]. destruct (Ascii.eqb c old).
  - rewrite append_nil_l. cbn [String.length]. lia.
  - cbn [String.length]. lia.
Qed.

Lemma swap_length (old new : ascii) (s : string) :
  String.length (Str.replace old (String new EmptyString) s) = String.length s.
Proof.
  induction s as [ | c s IH]; [ reflexivity | ].
  cbn [Str.replace]. destruct (Ascii.eqb c old).
  - rewrite append_cons, append_nil_l. cbn [String.length]. lia.
  - cbn [String.length]. lia.
Qed.

(** X17. The sanitised topic, of which the file name is made, holds no
    space and no parenthesis, whatever the topic; it is not longer than the
    topic; and sanitising it again changes nothing, so a topic and its
    sanitised form name the same file. *)
Theorem safe_term_is_clean (search_term : string) :
  Str.has " " (safe_term search_term) = false
  /\ Str.has "(" (safe_term search_term) = false
  /\ Str.has ")" (safe_term search_term) = false
  /\ String.length (safe_term search_term) <= String.length search_term
  /\ safe_term (safe_term search_term) = safe_term search_term
  /\ data_file_name (safe_term search_term) = data_file_name search_term.
Proof.
  assert (H1 : Str.has " " (safe_term search_term) = false).
  { unfold safe_term. rewrite !has_delete_other by discriminate.
    apply replace_removes. discriminate. }
  assert (H2 : Str.has "(" (safe_term search_term) = false).
  { unfold safe_term. rewrite has_delete_other by discriminate.
    apply delete_removes. }
  assert (H3 : Str.has ")" (safe_term search_term) = false).
  { unfold safe_term. apply delete_removes. }
  assert (H4 : safe_term (safe_term search_term) = safe_term search_term).
  { unfold safe_term at 1.
    rewrite (replace_absent " " "_" _ H1).
    rewrite (replace_absent "(" EmptyString _ H2).
    apply (replace_absent ")" EmptyString _ H3). }
  repeat split; try assumption.
  - unfold safe_term.
    pose proof (delete_length ")"
                  (Str.replace "(" EmptyString
                     (Str.replace " " "_" search_term))).
    pose proof (delete_length "(" (Str.replace " " "_" search_term)).
    pose proof (swap_length " " "_" search_term). lia.
  - unfold data_file_name. now rewrite H4.
Qed.

End SafeTermFacts.

(* ===================================================================== *)
(** * 21. The dashboard properties on concrete data                       *)
(* ===================================================================== *)

(** The location theorem on the directory of the sample worlds. *)
Lemma dashboard_reads_where_the_collector_writes_witness :
  Posix.normpath (Sample.path_of "Xbox Game Pass")
  = Dashboard.absolute_file_path Sample.script_dir
      (Dashboard.data_file_name "Xbox Game Pass").
Proof.
  refine (proj1 (dashboard_reads_where_the_collector_writes
                   Sample.script_dir "Xbox Game Pass" ["app"; "src"] _ _ _)).
  - vm_compute. reflexivity.
  - vm_compute. reflexivity.
  - vm_compute. reflexivity.
Defined.

(** The date filter on a frame of two days, with the range the page starts
    with. *)
Lemma date_filter_keeps_the_days_in_range_witness :
  Dashboard.df_filtered
    [Dashboard.Date 2024 1 3; Dashboard.Date 2024 2 9]
    (Dashboard.load_data
       [ Artifact.Row "p1" (Artifact.DateTime 2024 2 9 8 0 0 0)
           "Servers are down again" "servers" 0 "Neutro" 2;
         Artifact.Row "p1" Sample.afternoon
           "I love this game!!" "love game" 0 "Neutro" 5 ])
  = Dashboard.load_data
      [ Artifact.Row "p1" (Artifact.DateTime 2024 2 9 8 0 0 0)
          "Servers are down again" "servers" 0 "Neutro" 2;
        Artifact.Row "p1" Sample.afternoon
          "I love this game!!" "love game" 0 "Neutro" 5 ].
Proof.
  refine (proj1 (date_filter_keeps_the_days_in_range _) _ _ _ _).
  - vm_compute. reflexivity.
  - vm_compute. reflexivity.
Defined.
